(** * Markdown -> Webflow CMS synchronisation: a shallow embedding

    The development follows the sync script of the repository (the
    [sync-webflow] starter: [kebab], [trimToExcerpt], [resolveToRawUrl],
    [upsertWebflowItem], [dispatchWriteback], [processFile],
    [getAllMarkdown], [getChangedMarkdown], [main]) and the pull-request
    linter [tools/validate-frontmatter.js] ([isIsoDate], [validateFile]).

    Conventions of the embedding.
    - A JavaScript value is a [JSValue].  Numbers are the integral ones
      (a YAML float or NaN is outside the model); the digits [String]
      prints for a number beyond the safe integers are left to the host.
      An object is a plain one, as YAML gives it, with no key of its own
      named [toString] or [valueOf] ([String] would throw on such a one).
    - A JavaScript string is a Rocq [string] read as a sequence of ASCII
      code units; the Unicode-only parts of [trim], [\s] and
      [toLowerCase] are outside the model.
    - An [async] function is a computation in the monad [M]: it threads the
      state of the outside world and the console, and may throw.
    - The frontmatter object [fm.data] and the [fieldData] object are
      finite maps from property names to values. *)

From Stdlib Require Import ZArith Ascii String List Bool Lia.
From stdpp Require Import base option list strings pretty gmap fin_maps.

Local Open Scope string_scope.
Local Open Scope Z_scope.
Local Open Scope list_scope.

(** ** JavaScript values *)

#[warnings="-register-all"]
Inductive JSValue : Type :=
| JUndefined
| JNull
| JBool (b : bool)
| JNum (n : Z)
| JStr (s : string)
| JDate (t : option Z)          (* time value in ms; [None] is Invalid Date *)
| JArr (xs : list JSValue)
| JObj (props : list (string * JSValue)).

(** A thrown value: an [Error] object, by constructor name and message. *)
Record JSError : Type := MkError { err_name : string; err_message : string }.

Definition Error (msg : string) : JSError := MkError "Error" msg.
Definition TypeError (msg : string) : JSError := MkError "TypeError" msg.
Definition RangeError (msg : string) : JSError := MkError "RangeError" msg.
Definition SyntaxError (msg : string) : JSError := MkError "SyntaxError" msg.

(** [Boolean(v)], the truthiness used by [if (v)], [v ? a : b], [v || w]. *)
Definition truthy (v : JSValue) : bool :=
  match v with
  | JUndefined | JNull => false
  | JBool b => b
  | JNum n => negb (n =? 0)
  | JStr s => negb (String.eqb s EmptyString)
  | JDate _ | JArr _ | JObj _ => true
  end.

(** [typeof v === "string"], [typeof v === "boolean"], [Array.isArray(v)],
    [typeof v === "object"] (true of [null], arrays and dates too). *)
Definition is_string (v : JSValue) : bool :=
  match v with JStr _ => true | _ => false end.
Definition is_boolean (v : JSValue) : bool :=
  match v with JBool _ => true | _ => false end.
Definition is_array (v : JSValue) : bool :=
  match v with JArr _ => true | _ => false end.
Definition is_object (v : JSValue) : bool :=
  match v with JNull | JDate _ | JArr _ | JObj _ => true | _ => false end.

(** [a || b] on values. *)
Definition js_or (a b : JSValue) : JSValue := if truthy a then a else b.

(** ** Strings as sequences of code units *)

Definition chars (s : string) : list ascii := list_ascii_of_string s.
Definition str (l : list ascii) : string := string_of_list_ascii l.

Definition code (c : ascii) : N := N_of_ascii c.

Definition is_ws (c : ascii) : bool :=
  let n := code c in
  ((9 <=? n) && (n <=? 13) || (n =? 32))%N.

Definition is_digit (c : ascii) : bool :=
  let n := code c in ((48 <=? n) && (n <=? 57))%N.
Definition is_lower (c : ascii) : bool :=
  let n := code c in ((97 <=? n) && (n <=? 122))%N.
Definition is_upper (c : ascii) : bool :=
  let n := code c in ((65 <=? n) && (n <=? 90))%N.

Definition lower_char (c : ascii) : ascii :=
  if is_upper c then ascii_of_N (code c + 32) else c.

Definition toLowerCase (s : string) : string := str (map lower_char (chars s)).

Fixpoint drop_ws (l : list ascii) : list ascii :=
  match l with
  | c :: l' => if is_ws c then drop_ws l' else l
  | [] => []
  end.

Definition trim_chars (l : list ascii) : list ascii :=
  rev (drop_ws (rev (drop_ws l))).

Definition trim (s : string) : string := str (trim_chars (chars s)).

Fixpoint join (sep : string) (l : list string) : string :=
  match l with
  | [] => EmptyString
  | [x] => x
  | x :: l' => x +:+ sep +:+ join sep l'
  end.

(** [s.slice(0, max)] for [0 <= max]. *)
Definition slice0 (max : nat) (s : string) : string := str (take max (chars s)).

(** [s] starts with [p], compared after ASCII lower-casing when [ci]. *)
Fixpoint starts_with (ci : bool) (p l : list ascii) : bool :=
  match p, l with
  | [], _ => true
  | a :: p', b :: l' =>
      (if ci then Ascii.eqb (lower_char a) (lower_char b) else Ascii.eqb a b)
      && starts_with ci p' l'
  | _ :: _, [] => false
  end.

(** Number of code units up to and including the first occurrence of
    [needle] in [l], if there is one. *)
Fixpoint span_through (needle l : list ascii) : option nat :=
  if starts_with false needle l then Some (length needle)
  else match l with
       | [] => None
       | _ :: l' => S <$> span_through needle l'
       end.

(** ** The host's [Date] and [String] built-ins *)

(** What ECMAScript leaves to the implementation: [Date.parse] on a string
    and [Date.prototype.toString] (which depends on the time zone); and
    what the embedding does not compute: the digits of a number beyond the
    safe integers, which [String] rounds and, from 1e21 on, prints with an
    exponent. *)
Record Host : Type := MkHost {
  Date_parse : string -> option Z;
  Date_toString : Z -> string;
  Number_toString : Z -> string;
}.

Definition MAX_SAFE_INTEGER : Z := 9007199254740991.

(** [String(v)].  A safe integer is printed in plain decimal. *)
Fixpoint ToString (h : Host) (v : JSValue) : string :=
  match v with
  | JUndefined => "undefined"
  | JNull => "null"
  | JBool true => "true"
  | JBool false => "false"
  | JNum n =>
      if Z.abs n <=? MAX_SAFE_INTEGER then pretty n else Number_toString h n
  | JStr s => s
  | JDate (Some t) => Date_toString h t
  | JDate None => "Invalid Date"
  | JArr xs =>
      join "," (map (fun x => match x with
                              | JUndefined | JNull => EmptyString
                              | _ => ToString h x
                              end) xs)
  | JObj _ => "[object Object]"
  end.

(** ** [kebab] *)

(** The character class of the first [replace] in [kebab]: the two quote
    characters and [. , ! ? ( ) [ ]]. *)
Definition is_kebab_punct (c : ascii) : bool :=
  Ascii.eqb c (ascii_of_N 34) || existsb (Ascii.eqb c) (chars "'.,!?()[]").

(** [replace(/[P]+/g, r)]: every maximal run of characters of the class [P]
    becomes the single character [r]. *)
Fixpoint replace_runs (P : ascii -> bool) (r : ascii) (in_run : bool)
    (l : list ascii) : list ascii :=
  match l with
  | [] => []
  | c :: l' =>
      if P c then
        if in_run then replace_runs P r true l'
        else r :: replace_runs P r true l'
      else c :: replace_runs P r false l'
  end.

Fixpoint drop_hyphens (l : list ascii) : list ascii :=
  match l with
  | c :: l' => if Ascii.eqb c "-" then drop_hyphens l' else l
  | [] => []
  end.

Definition is_alnum_lower (c : ascii) : bool := is_lower c || is_digit c.

Definition kebab (h : Host) (v : JSValue) : string :=
  let s0 := ToString h (js_or v (JStr EmptyString)) in
  let s1 := chars (toLowerCase (trim s0)) in
  let s2 := filter (fun c => is_kebab_punct c = false) s1 in
  let s3 := replace_runs (fun c => negb (is_alnum_lower c)) "-" false s2 in
  str (rev (drop_hyphens (rev (drop_hyphens s3)))).

(** ** [trimToExcerpt] *)

(** [replace(/<open[\s\S]*?<close>/g, EmptyString)]: a block runs from
    [opening] to the first [closing] after it; [skip] counts the code units
    of the current match still to be dropped. *)
Fixpoint remove_blocks (opening closing : list ascii) (skip : nat)
    (l : list ascii) : list ascii :=
  match l with
  | [] => []
  | c :: l' =>
      match skip with
      | S k => remove_blocks opening closing k l'
      | O =>
          if starts_with false opening l then
            match span_through closing (drop (length opening) l) with
            | Some n =>
                remove_blocks opening closing (length opening + n - 1) l'
            | None => c :: remove_blocks opening closing 0 l'
            end
          else c :: remove_blocks opening closing 0 l'
      end
  end.

Fixpoint index_of (P : ascii -> bool) (l : list ascii) : option nat :=
  match l with
  | [] => None
  | c :: l' => if P c then Some O else S <$> index_of P l'
  end.

(** [replace(/<[^>]+>/g, " ")]. *)
Fixpoint strip_tags (skip : nat) (l : list ascii) : list ascii :=
  match l with
  | [] => []
  | c :: l' =>
      match skip with
      | S k => strip_tags k l'
      | O =>
          if Ascii.eqb c "<" then
            match index_of (Ascii.eqb ">") l' with
            | Some (S k) => " "%char :: strip_tags (S (S k)) l'
            | _ => c :: strip_tags 0 l'
            end
          else c :: strip_tags 0 l'
      end
  end.

Definition trimToExcerpt (html : string) (max : nat) : string :=
  let t1 := remove_blocks (chars "<style") (chars "</style>") 0 (chars html) in
  let t2 := remove_blocks (chars "<script") (chars "</script>") 0 t1 in
  let t3 := strip_tags 0 t2 in
  let t4 := replace_runs is_ws " " false t3 in
  slice0 max (str (trim_chars t4)).

(** ** Dates *)

(** [TimeClip]: a time value beyond 8.64e15 ms is Invalid Date. *)
Definition TimeClip (t : Z) : option Z :=
  if Z.abs t <=? 8640000000000000 then Some t else None.

(** The time value of [new Date(v)]. *)
Definition Date_new (h : Host) (v : JSValue) : option Z :=
  match v with
  | JDate t => t
  | JStr s => Date_parse h s ≫= TimeClip
  | JNum n => TimeClip n
  | JBool b => Some (if b then 1 else 0)
  | JNull => Some 0
  | JUndefined => None
  | JArr _ | JObj _ => Date_parse h (ToString h v) ≫= TimeClip
  end.

(** Zero-padded decimal of a natural number. *)
Definition pad (width : nat) (n : Z) : string :=
  let d := pretty (Z.to_N n) in
  str (replicate (width - String.length d) "0"%char) +:+ d.

(** Year, month and day of a day number counted from 1970-01-01
    (proleptic Gregorian calendar). *)
Definition civil_from_days (days : Z) : Z * Z * Z :=
  let z := days + 719468 in
  let era := z / 146097 in
  let doe := z - era * 146097 in
  let yoe := (doe - doe / 1460 + doe / 36524 - doe / 146096) / 365 in
  let doy := doe - (365 * yoe + yoe / 4 - yoe / 100) in
  let mp := (5 * doy + 2) / 153 in
  let d := doy - (153 * mp + 2) / 5 + 1 in
  let m := if mp <? 10 then mp + 3 else mp - 9 in
  let y := yoe + era * 400 + (if m <=? 2 then 1 else 0) in
  (y, m, d).

(** [Date.prototype.toISOString] of a (valid) time value. *)
Definition iso_of_time (t : Z) : string :=
  let days := t / 86400000 in
  let ms := t mod 86400000 in
  let '(y, m, d) := civil_from_days days in
  let year :=
    if (0 <=? y) && (y <=? 9999) then pad 4 y
    else (if y <? 0 then "-" else "+") +:+ pad 6 (Z.abs y) in
  year +:+ "-" +:+ pad 2 m +:+ "-" +:+ pad 2 d +:+ "T"
  +:+ pad 2 (ms / 3600000) +:+ ":" +:+ pad 2 (ms / 60000 mod 60) +:+ ":"
  +:+ pad 2 (ms / 1000 mod 60) +:+ "." +:+ pad 3 (ms mod 1000) +:+ "Z".

(** [d.toISOString()], which throws on Invalid Date. *)
Definition toISOString (d : option Z) : JSError + string :=
  match d with
  | Some t => inr (iso_of_time t)
  | None => inl (RangeError "Invalid time value")
  end.

(** ** Objects *)

(** [o.k] on a frontmatter object: [undefined] when the key is absent. *)
Definition prop (o : gmap string JSValue) (k : string) : JSValue :=
  default JUndefined (o !! k).

(** [k in o]. *)
Definition has_key (o : gmap string JSValue) (k : string) : bool :=
  bool_decide (is_Some (o !! k)).

Fixpoint assoc (k : string) (props : list (string * JSValue)) : JSValue :=
  match props with
  | [] => JUndefined
  | (k', v) :: rest => if String.eqb k k' then v else assoc k rest
  end.

(** [v.k] where [k] is not a built-in property name: throws on [null] and
    [undefined], and is [undefined] on every value but an object having
    the key. *)
Definition member (v : JSValue) (k : string) : JSError + JSValue :=
  match v with
  | JUndefined | JNull =>
      inl (TypeError ("Cannot read properties of " +:+
                      (if v is JNull then "null" else "undefined")))
  | JObj props => inr (assoc k props)
  | _ => inr JUndefined
  end.

(** [v?.k]. *)
Definition opt_member (v : JSValue) (k : string) : JSValue :=
  match v with
  | JObj props => assoc k props
  | _ => JUndefined
  end.

(** ** Requests, responses and the console *)

(** The body of a Webflow v2 item request. *)
Record Payload : Type := MkPayload {
  isArchived : bool;
  isDraft : bool;
  fieldData : gmap string JSValue;
}.

(** The three requests the script sends.
    - [PatchItem token c id body] is
      [PATCH https://api.webflow.com/v2/collections/c/items/<id>], the
      item id being [id] before [encodeURIComponent];
    - [PostItem token c body] is
      [POST https://api.webflow.com/v2/collections/c/items];
    - [PostDispatch token repo path itemId] is the [repository_dispatch]
      event [webflow_item_created] posted to GitHub. *)
Inductive Request : Type :=
| PatchItem (token collection item : string) (body : Payload)
| PostItem (token collection : string) (body : Payload)
| PostDispatch (token repo path : string) (itemId : JSValue).

(** What [await fetch(...)] gives: a rejection, or a response with its
    status, its body as text and its body parsed by [res.json()]. *)
Inductive FetchResult : Type :=
| Rejected (e : JSError)
| Response (status : Z) (text : string) (json : JSError + JSValue).

Definition res_ok (status : Z) : bool := (200 <=? status) && (status <=? 299).

(** The lines the script prints, by the template that produces them. *)
Inductive Line : Type :=
| LSkipping (filePath : string)
| LDryRunUpsert (slug : string) (hasPostId : bool)
| LUpdated (post_id : JSValue) (filePath : string)
| LCreated (itemId : JSValue) (filePath : string)
| LCreatedOn (v : JSValue)
| LLastUpdated (v : JSValue)
| LDispatchSent (filePath : string) (itemId : JSValue)
| LNoFiles (all : bool)
| LFound (n : nat)
| WDiffFailed (msg : string)
| WWritebackFailed (msg : string)
| EFail (msg : string) (e : option JSError).

Inductive Event : Type :=
| EvFetch (r : Request)
| EvConsole (l : Line).

(** ** The corpus on disk *)

(** A directory entry as [readdirSync(dir, {withFileTypes: true})] gives
    it; reading a directory may throw. *)
#[warnings="-register-all"]
Inductive Dirent : Type :=
| DFile (name : string)
| DDir (name : string) (listing : JSError + list Dirent)
| DOther (name : string).

(** ** The platform *)

(** The collaborators the script calls and does not define: the network,
    the clock, the file system, git, gray-matter, the image-link rewriting
    and the unified pipeline. *)
Record Platform (World : Type) : Type := MkPlatform {
  fetch_step : Request -> World -> FetchResult * World;
  clock : World -> Z;
  readFileSync : World -> string -> JSError + string;
  matter : string -> JSError + (gmap string JSValue * string);
  dirname : string -> string;
  rewriteImageLinksInMarkdown : World -> string -> string -> string;
  mdToHtml : string -> JSError + string;
  git_fetch : string -> World -> World;
  git_diff : World -> JSError + string;
  posts_dir : World -> option (JSError + list Dirent);
}.
Arguments fetch_step {World}.
Arguments clock {World}.
Arguments readFileSync {World}.
Arguments matter {World}.
Arguments dirname {World}.
Arguments rewriteImageLinksInMarkdown {World}.
Arguments mdToHtml {World}.
Arguments git_fetch {World}.
Arguments git_diff {World}.
Arguments posts_dir {World}.

(** ** The monad of the script *)

Record St (World : Type) : Type := MkSt {
  world : World;
  trace : list Event;
  exitCode : Z;
}.
Arguments MkSt {World}.
Arguments world {World}.
Arguments trace {World}.
Arguments exitCode {World}.

Definition M (World A : Type) : Type := St World -> (JSError + A) * St World.

Definition ret {World A} (a : A) : M World A := fun s => (inr a, s).

Definition throw {World A} (e : JSError) : M World A := fun s => (inl e, s).

Definition bind {World A B} (m : M World A) (k : A -> M World B) : M World B :=
  fun s => match m s with
           | (inr a, s') => k a s'
           | (inl e, s') => (inl e, s')
           end.

(** [try { m } catch (e) { handler e }]. *)
Definition try_catch {World A} (m : M World A) (handler : JSError -> M World A)
    : M World A :=
  fun s => match m s with
           | (inr a, s') => (inr a, s')
           | (inl e, s') => handler e s'
           end.

(** A synchronous call that may throw. *)
Definition lift {World A} (r : JSError + A) : M World A :=
  match r with inr a => ret a | inl e => throw e end.

Definition get_world {World} : M World World := fun s => (inr (world s), s).

Definition emit {World} (ev : Event) : M World unit :=
  fun s => (inr tt, MkSt (world s) (trace s ++ [ev]) (exitCode s)).

Declare Scope js_scope.
Delimit Scope js_scope with js.
Notation "x <- m ;; k" := (bind m (fun x => k))
  (at level 100, m at next level, right associativity) : js_scope.
Notation "m ;;; k" := (bind m (fun _ => k))
  (at level 100, right associativity) : js_scope.

(** ** Configuration *)

Definition POSTS_DIR : string := "posts".

(** Field slugs of the Webflow collection ([FIELD_IDS]). *)
Record FieldIds : Type := MkFieldIds {
  f_name : string;
  f_slug : string;
  f_body : string;
  f_mainImage : string;
  f_publishDate : string;
  f_authorText : string;
  f_externalLink : string;
  f_isPublished : string;
  f_pushToWebflow : string;
  f_postId : string;
  f_excerpt : string;
  f_seoTitle : string;
  f_seoDescription : string;
  f_tags : string;
}.

Definition FIELD_IDS : FieldIds := {|
  f_name := "name";
  f_slug := "slug";
  f_body := "post-body";
  f_mainImage := "main-image";
  f_publishDate := "publish-date";
  f_authorText := "author";
  f_externalLink := "link";
  f_isPublished := "is-published";
  f_pushToWebflow := "push-to-webflow";
  f_postId := "post-id";
  f_excerpt := "post-summary";
  f_seoTitle := "seo-title";
  f_seoDescription := "seo-description";
  f_tags := "tags";
|}.

(** [if (id && cond) fieldData[id] = v]. *)
Definition set_if (id : string) (cond : bool) (v : JSValue)
    (fd : gmap string JSValue) : gmap string JSValue :=
  if truthy (JStr id) && cond then <[id := v]> fd else fd.

(** [fm.push_to_webflow !== false]: true if the key is omitted. *)
Definition pushFlag (fm : gmap string JSValue) : bool :=
  match prop fm "push_to_webflow" with
  | JBool false => false
  | _ => true
  end.

(** [xs.join(sep)]. *)
Definition array_join (h : Host) (sep : string) (xs : list JSValue) : string :=
  join sep (map (fun x => match x with
                          | JUndefined | JNull => EmptyString
                          | _ => ToString h x
                          end) xs).

(** [/^https?:\/\//i.test(s)]. *)
Definition is_http_url (s : string) : bool :=
  starts_with true (chars "http://") (chars s)
  || starts_with true (chars "https://") (chars s).

(** [s.replace(/^\.?\//, EmptyString)]. *)
Definition strip_dot_slash (s : string) : string :=
  let l := chars s in
  if starts_with false (chars "./") l then str (drop 2 l)
  else if starts_with false (chars "/") l then str (drop 1 l)
  else s.

(** [/^(true|yes|1)$/i.test(v)]. *)
Definition matches_true (v : string) : bool :=
  let l := toLowerCase v in
  String.eqb l "true" || String.eqb l "yes" || String.eqb l "1".

(** The body of the [forEach] in [processFile], for one key. *)
Definition normalize_key (k : string) (data : gmap string JSValue)
    : gmap string JSValue :=
  if has_key data k then
    match prop data k with
    | JStr v => <[k := JBool (matches_true v)]> data
    | _ => data
    end
  else data.

Definition normalize_booleans (data : gmap string JSValue)
    : gmap string JSValue :=
  foldl (fun d k => normalize_key k d) data ["published"; "push_to_webflow"].

Definition path_join (dir name : string) : string := dir +:+ "/" +:+ name.

Definition ends_with (suffix s : string) : bool :=
  starts_with false (rev (chars suffix)) (rev (chars s)).

(** [walk] of [getAllMarkdown], entry by entry: the first directory that
    cannot be read throws. *)
Fixpoint walk_ent (dir : string) (ent : Dirent) {struct ent}
    : JSError + list string :=
  match ent with
  | DFile name =>
      let p := path_join dir name in
      inr (if ends_with ".md" p then [p] else [])
  | DDir name listing =>
      match listing with
      | inl e => inl e
      | inr ents =>
          (fix go (ents : list Dirent) : JSError + list string :=
             match ents with
             | [] => inr []
             | ent' :: rest =>
                 match walk_ent (path_join dir name) ent' with
                 | inl e => inl e
                 | inr out1 =>
                     match go rest with
                     | inl e => inl e
                     | inr out2 => inr (out1 ++ out2)
                     end
                 end
             end) ents
      end
  | DOther _ => inr []
  end.

Definition walk (dir : string) (listing : JSError + list Dirent)
    : JSError + list string :=
  match listing with
  | inl e => inl e
  | inr ents =>
      (fix go (ents : list Dirent) : JSError + list string :=
         match ents with
         | [] => inr []
         | ent :: rest =>
             match walk_ent dir ent with
             | inl e => inl e
             | inr out1 =>
                 match go rest with
                 | inl e => inl e
                 | inr out2 => inr (out1 ++ out2)
                 end
             end
         end) ents
  end.

(** [s.split(sep)] for a one-character separator. *)
Fixpoint split_on (sep : ascii) (l : list ascii) : list (list ascii) :=
  match l with
  | [] => [[]]
  | c :: l' =>
      if Ascii.eqb c sep then [] :: split_on sep l'
      else match split_on sep l' with
           | cur :: rest => (c :: cur) :: rest
           | [] => [[c]]
           end
  end.

(** [diff.split(newline).map((s) => s.trim()).filter(Boolean)]. *)
Definition diff_lines (diff : string) : list string :=
  filter (fun s => s <> EmptyString)
         (map (fun l => str (trim_chars l))
              (split_on (ascii_of_N 10) (chars diff))).

(** ** The sync script *)

Section Sync.
Context {World : Type} (P : Platform World) (h : Host).
Context (penv : gmap string string).

Local Open Scope js_scope.

Local Abbreviation M := (M World).

(** [process.env[name]]. *)
Definition getenv (name : string) : JSValue :=
  match penv !! name with
  | Some v => JStr v
  | None => JUndefined
  end.

Definition COLLECTION_ID : JSValue := getenv "WEBFLOW_COLLECTION_ID".
Definition WEBFLOW_TOKEN : JSValue := getenv "WEBFLOW_TOKEN".
Definition REPO : JSValue :=
  js_or (getenv "GITHUB_REPOSITORY") (getenv "GH_REPOSITORY").
Definition COMMIT_SHA : JSValue := js_or (getenv "GITHUB_SHA") (JStr "main").
Definition BRANCH : JSValue := js_or (getenv "GITHUB_REF_NAME") (JStr "main").

Definition log (l : Line) : M unit := emit (EvConsole l).
Definition warn (l : Line) : M unit := emit (EvConsole l).

Definition fail (msg : string) (e : option JSError) : M unit :=
  fun s => (inr tt, MkSt (world s) (trace s ++ [EvConsole (EFail msg e)]) 1).

Definition requireEnv (name : string) : M JSValue :=
  let v := getenv name in
  if negb (truthy v) then throw (Error ("Missing required env: " +:+ name))
  else ret v.

Definition getAllMarkdown : M (list string) :=
  w <- get_world ;;
  match posts_dir P w with
  | Some listing => lift (walk POSTS_DIR listing)
  | None => ret []
  end.

Definition getChangedMarkdown : M (list string) :=
  (fun s => (inr tt, MkSt (git_fetch P (ToString h (js_or BRANCH (JStr "HEAD")))
                                     (world s))
                          (trace s) (exitCode s))) ;;;
  try_catch
    (w <- get_world ;;
     diff <- lift (git_diff P w) ;;
     ret (diff_lines diff))
    (fun e =>
       warn (WDiffFailed (err_message e)) ;;;
       getAllMarkdown).

Definition resolveToRawUrl (filePathOrUrl : string) : string :=
  if negb (truthy (JStr filePathOrUrl)) then filePathOrUrl
  else if is_http_url filePathOrUrl then filePathOrUrl
  else if negb (truthy REPO) then filePathOrUrl
  else
    let rel := strip_dot_slash filePathOrUrl in
    "https://raw.githubusercontent.com/" +:+ ToString h REPO +:+ "/"
    +:+ ToString h COMMIT_SHA +:+ "/" +:+ rel.

(** [await fetch(req)]: the request goes out, the world moves, and the
    call either rejects or gives the response. *)
Definition fetch (req : Request) : M (Z * string * (JSError + JSValue)) :=
  fun s =>
    let '(res, w') := fetch_step P req (world s) in
    let s' := MkSt w' (trace s ++ [EvFetch req]) (exitCode s) in
    match res with
    | Rejected e => (inl e, s')
    | Response status text json => (inr (status, text, json), s')
    end.

(** The mapping part of [upsertWebflowItem]: from [const bodyHtml] to
    [const payload].  [now] is the time [new Date()] reads. *)
Definition buildPayload (now : Z) (fm : gmap string JSValue) (html : string)
    : JSError + (string * Payload) :=
  let published := truthy (prop fm "published") in
  let bodyHtml := html in
  let name := ToString h (prop fm "title") in
  let slug := if truthy (prop fm "slug") then ToString h (prop fm "slug")
              else kebab h (prop fm "title") in
  let mainImage :=
    if truthy (prop fm "image")
    then JStr (resolveToRawUrl (ToString h (prop fm "image")))
    else JUndefined in
  match (if truthy (prop fm "date")
         then toISOString (Date_new h (prop fm "date"))
         else toISOString (Some now)) with
  | inl e => inl e
  | inr publishDate =>
      let author := if truthy (prop fm "author")
                    then JStr (ToString h (prop fm "author")) else JUndefined in
      let externalLink := if truthy (prop fm "link")
                          then JStr (ToString h (prop fm "link"))
                          else JUndefined in
      let tags :=
        match prop fm "tags" with
        | JArr xs => JStr (array_join h ", " xs)
        | t => if truthy t then JStr (ToString h t) else JUndefined
        end in
      let excerpt := if truthy (prop fm "excerpt")
                     then ToString h (prop fm "excerpt")
                     else trimToExcerpt bodyHtml 160 in
      let seoTitle := opt_member (prop fm "seo") "title" in
      let seoDescription := opt_member (prop fm "seo") "description" in
      let fieldData : gmap string JSValue := ∅ in
      let fieldData := set_if (f_name FIELD_IDS) true (JStr name) fieldData in
      let fieldData := set_if (f_slug FIELD_IDS) true (JStr slug) fieldData in
      let fieldData := set_if (f_body FIELD_IDS) true (JStr bodyHtml) fieldData in
      let fieldData :=
        set_if (f_mainImage FIELD_IDS) (truthy mainImage) mainImage fieldData in
      let fieldData :=
        set_if (f_publishDate FIELD_IDS) true (JStr publishDate) fieldData in
      let fieldData :=
        set_if (f_authorText FIELD_IDS) (truthy author) author fieldData in
      let fieldData :=
        set_if (f_externalLink FIELD_IDS) (truthy externalLink) externalLink
               fieldData in
      let fieldData :=
        set_if (f_isPublished FIELD_IDS) true (JBool published) fieldData in
      let fieldData :=
        set_if (f_pushToWebflow FIELD_IDS) true (JBool true) fieldData in
      let fieldData :=
        set_if (f_postId FIELD_IDS) (truthy (prop fm "post_id"))
               (JStr (ToString h (prop fm "post_id"))) fieldData in
      let fieldData := set_if (f_tags FIELD_IDS) (truthy tags) tags fieldData in
      let fieldData :=
        set_if (f_excerpt FIELD_IDS) (truthy (JStr excerpt)) (JStr excerpt)
               fieldData in
      let fieldData :=
        set_if (f_seoTitle FIELD_IDS) (truthy seoTitle) seoTitle fieldData in
      let fieldData :=
        set_if (f_seoDescription FIELD_IDS) (truthy seoDescription)
               seoDescription fieldData in
      inr (slug, {| isArchived := false;
                    isDraft := negb published;
                    fieldData := fieldData |})
  end.

Definition dispatchWriteback (filePath : string) (itemId : JSValue) : M unit :=
  let token := js_or (getenv "GITHUB_TOKEN") (getenv "GH_TOKEN_WITH_WRITE") in
  if negb (truthy token) || negb (truthy REPO) || negb (truthy itemId)
  then ret tt
  else
    res <- fetch (PostDispatch (ToString h token) (ToString h REPO)
                               filePath itemId) ;;
    let '(status, text, _) := res in
    if negb (res_ok status)
    then throw (Error ("repository_dispatch failed (" +:+ pretty status
                       +:+ "): " +:+ text))
    else log (LDispatchSent filePath itemId).

Definition upsertWebflowItem (fm : gmap string JSValue)
    (html filePath : string) (dryRun : bool) : M JSValue :=
  if negb (pushFlag fm) then
    log (LSkipping filePath) ;;;
    ret JUndefined
  else if negb (truthy (prop fm "title")) then
    throw (Error ("Missing required 'title' in " +:+ filePath))
  else
    w <- get_world ;;
    mapped <- lift (buildPayload (clock P w) fm html) ;;
    let '(slug, payload) := mapped in
    if dryRun then
      log (LDryRunUpsert slug (truthy (prop fm "post_id"))) ;;;
      ret JUndefined
    else if truthy (prop fm "post_id") then
      res <- fetch (PatchItem (ToString h WEBFLOW_TOKEN)
                              (ToString h COLLECTION_ID)
                              (ToString h (prop fm "post_id")) payload) ;;
      let '(status, text, json) := res in
      if negb (res_ok status) then
        throw (Error ("Webflow update failed (" +:+ pretty status +:+ "): "
                      +:+ text))
      else
        data <- lift json ;;
        log (LUpdated (prop fm "post_id") filePath) ;;;
        lastUpdated <- lift (member data "lastUpdated") ;;
        log (LLastUpdated (js_or lastUpdated (JStr "N/A"))) ;;;
        ret data
    else
      res <- fetch (PostItem (ToString h WEBFLOW_TOKEN)
                             (ToString h COLLECTION_ID) payload) ;;
      let '(status, text, json) := res in
      if negb (res_ok status) then
        throw (Error ("Webflow create failed (" +:+ pretty status +:+ "): "
                      +:+ text))
      else
        data <- lift json ;;
        let itemId := js_or (opt_member data "id")
                            (opt_member (opt_member data "item") "id") in
        log (LCreated (js_or itemId (JStr "(unknown)")) filePath) ;;;
        createdOn <- lift (member data "createdOn") ;;
        log (LCreatedOn (js_or createdOn (JStr "N/A"))) ;;;
        lastUpdated <- lift (member data "lastUpdated") ;;
        log (LLastUpdated (js_or lastUpdated (JStr "N/A"))) ;;;
        try_catch (dispatchWriteback filePath itemId)
                  (fun e => warn (WWritebackFailed (err_message e))) ;;;
        ret data.

Definition processFile (filePath : string) (dryRun : bool) : M unit :=
  w <- get_world ;;
  src <- lift (readFileSync P w filePath) ;;
  fm <- lift (matter P src) ;;
  let '(data, content) := fm in
  let fileDir := dirname P filePath in
  let data := normalize_booleans data in
  let mdWithRaw := rewriteImageLinksInMarkdown P w content fileDir in
  html <- lift (mdToHtml P mdWithRaw) ;;
  upsertWebflowItem data html filePath dryRun ;;;
  ret tt.

(** The body of the loop of [main]:
    [try { await processFile(f, ...) } catch (e) { fail(..., e) }]. *)
Definition attempt (f : string) (dryRun : bool) : M unit :=
  try_catch (processFile f dryRun)
            (fun e => fail ("Failed processing " +:+ f) (Some e)).

(** [for (const f of files) { ... }]. *)
Fixpoint process_all (files : list string) (dryRun : bool) : M unit :=
  match files with
  | [] => ret tt
  | f :: rest =>
      attempt f dryRun ;;;
      process_all rest dryRun
  end.

(** [argv] is [process.argv.slice(2)]. *)
Definition main (argv : list string) : M unit :=
  envOk <- try_catch
             (requireEnv "WEBFLOW_TOKEN" ;;;
              requireEnv "WEBFLOW_COLLECTION_ID" ;;;
              ret true)
             (fun e => fail (err_message e) None ;;; ret false) ;;
  if negb envOk then ret tt
  else
    let all := bool_decide ("--all" ∈ argv) in
    let dryRun := bool_decide ("--dry-run" ∈ argv) in
    files <- (if all then getAllMarkdown else getChangedMarkdown) ;;
    if bool_decide (length files = 0%nat) then
      log (LNoFiles all)
    else
      log (LFound (length files)) ;;;
      process_all files dryRun.

(** [main().catch((e) => fail(..., e))]. *)
Definition run (argv : list string) : M unit :=
  try_catch (main argv) (fun e => fail "Unhandled error" (Some e)).

End Sync.

(** ** The frontmatter linter ([tools/validate-frontmatter.js]) *)

Module Lint.

Definition REQUIRED_FIELDS : list string :=
  ["title"; "date"; "push_to_webflow"].
Definition OPTIONAL_FIELDS : list string :=
  ["slug"; "image"; "author"; "link"; "published"; "post_id"; "last_update";
   "tags"; "excerpt"; "seo"].
Definition ALLOWED_FIELDS : list string := REQUIRED_FIELDS ++ OPTIONAL_FIELDS.
Definition ALLOWED_SEO_FIELDS : list string := ["title"; "description"].

(** The messages of [fail] and [warn], by their template. *)
Inductive Problem : Type :=
| InvalidFrontmatter (msg : string)
| MissingRequired (f : string)
| UnknownField (k : string)
| TitleNotString
| DateNotIso (dateStr : string)
| PublishedNotBoolean
| PushNotBoolean
| LinkNotUrl
| ImageNotFound
| TagsNotArray
| TagNotString (i : nat)
| SeoNotObject
| SeoFieldNotAllowed (k : string)
| SeoTitleNotString
| SeoDescriptionNotString
| PostIdNotString
| LastUpdateNotIso.

(** One console line: [fail] also sets [hasErrors]. *)
Inductive Report : Type :=
| Fail (file : string) (p : Problem)
| Warn (file : string) (p : Problem).

Definition is_fail (r : Report) : bool :=
  match r with Fail _ _ => true | Warn _ _ => false end.

(** [k in data] and [data.k] on the parsed frontmatter, an object whose
    keys are listed in the order of the file. *)
Definition has (data : list (string * JSValue)) (k : string) : bool :=
  existsb (fun kv => String.eqb k (fst kv)) data.

Definition keys (data : list (string * JSValue)) : list string := map fst data.

Definition mem (k : string) (l : list string) : bool :=
  existsb (String.eqb k) l.

(** Exactly [n] digits at the head of [l]; what follows them. *)
Fixpoint digits (n : nat) (l : list ascii) : option (list ascii) :=
  match n with
  | O => Some l
  | S n' => match l with
            | c :: l' => if is_digit c then digits n' l' else None
            | [] => None
            end
  end.

Definition lit (c : ascii) (l : list ascii) : option (list ascii) :=
  match l with
  | c' :: l' => if Ascii.eqb c c' then Some l' else None
  | [] => None
  end.

(** An optional group [( ... )?]. *)
Definition opt (p : list ascii -> option (list ascii)) (l : list ascii)
    : list ascii :=
  match p l with Some r => r | None => l end.

Definition iso_seconds (l : list ascii) : option (list ascii) :=
  lit ":"%char l ≫= digits 2.
Definition iso_millis (l : list ascii) : option (list ascii) :=
  lit "."%char l ≫= digits 3.
Definition iso_zone (l : list ascii) : option (list ascii) :=
  match l with
  | c :: l' =>
      if Ascii.eqb c "Z" then Some l'
      else if Ascii.eqb c "+" || Ascii.eqb c "-"
           then (r1 ← digits 2 l'; r2 ← lit ":"%char r1; digits 2 r2)
           else None
  | [] => None
  end.
Definition iso_time (l : list ascii) : option (list ascii) :=
  match l with
  | c :: l' =>
      if Ascii.eqb c "T" || Ascii.eqb c " "
      then r1 ← digits 2 l'; r2 ← lit ":"%char r1; r ← digits 2 r2;
           Some (opt iso_zone (opt iso_millis (opt iso_seconds r)))
      else None
  | [] => None
  end.

(** [isIsoDate]: YYYY-MM-DD, or with a time part. *)
Definition isIsoDate (s : string) : bool :=
  match (r1 ← digits 4 (chars s); r2 ← lit "-"%char r1; r3 ← digits 2 r2;
         r4 ← lit "-"%char r3; digits 2 r4) with
  | Some r => match opt iso_time r with [] => true | _ => false end
  | None => false
  end.

Section Validate.
Context (h : Host).
(** [fs.existsSync(path.join(process.cwd(), img))]. *)
Context (image_exists : string -> bool).

Definition when (c : bool) (r : list Report) : list Report :=
  if c then r else [].

(** The checks after the date check; none of them throws. *)
Definition check_rest (filePath : string) (data : list (string * JSValue))
    : list Report :=
  let published := assoc "published" data in
  let push := assoc "push_to_webflow" data in
  let link := assoc "link" data in
  let image := assoc "image" data in
  let tags := assoc "tags" data in
  let seo := assoc "seo" data in
  let post_id := assoc "post_id" data in
  let last_update := assoc "last_update" data in
  when (has data "published" && negb (is_boolean published))
       [Fail filePath PublishedNotBoolean]
  ++ when (has data "push_to_webflow" && negb (is_boolean push))
       [Fail filePath PushNotBoolean]
  ++ match link with
     | JStr l => when (truthy link && negb (is_http_url l))
                      [Warn filePath LinkNotUrl]
     | _ => []
     end
  ++ match image with
     | JStr i =>
         let img := trim i in
         when (truthy image && negb (is_http_url img)
               && negb (image_exists img))
              [Warn filePath ImageNotFound]
     | _ => []
     end
  ++ (if truthy tags then
        match tags with
        | JArr ts =>
            omap (fun it => if is_string (snd it) then None
                            else Some (Fail filePath (TagNotString (fst it))))
                 (imap (fun i t => (i, t)) ts)
        | _ => [Fail filePath TagsNotArray]
        end
      else [])
  ++ (if truthy seo then
        match seo with
        | JObj sprops =>
            omap (fun k => if mem k ALLOWED_SEO_FIELDS then None
                           else Some (Fail filePath (SeoFieldNotAllowed k)))
                 (keys sprops)
            ++ when (truthy (assoc "title" sprops)
                     && negb (is_string (assoc "title" sprops)))
                    [Fail filePath SeoTitleNotString]
            ++ when (truthy (assoc "description" sprops)
                     && negb (is_string (assoc "description" sprops)))
                    [Fail filePath SeoDescriptionNotString]
        | JDate _ => []
        | _ => [Fail filePath SeoNotObject]
        end
      else [])
  ++ when (truthy post_id && negb (is_string post_id))
          [Fail filePath PostIdNotString]
  ++ when (truthy last_update
           && (negb (isIsoDate (ToString h last_update))
               || negb (is_string last_update)))
          [Fail filePath LastUpdateNotIso].

(** [validateFile], after [readFileSync]: [parsed] is what
    [matter(raw)] gives or throws.  The result is the console lines in
    order and the exception that ended the function, if any. *)
Definition validateFile (filePath : string)
    (parsed : JSError + list (string * JSValue))
    : list Report * option JSError :=
  match parsed with
  | inl e => ([Fail filePath (InvalidFrontmatter (err_message e))], None)
  | inr data =>
      let missing :=
        omap (fun f => if has data f then None
                       else Some (Fail filePath (MissingRequired f)))
             REQUIRED_FIELDS in
      let unknown :=
        omap (fun k => if mem k ALLOWED_FIELDS then None
                       else Some (Fail filePath (UnknownField k)))
             (keys data) in
      let title := assoc "title" data in
      let title_check :=
        when (truthy title && negb (is_string title))
             [Fail filePath TitleNotString] in
      let date := assoc "date" data in
      let date_check : JSError + list Report :=
        if truthy date then
          match (match date with
                 | JDate t =>
                     match toISOString t with
                     | inr iso =>
                         inr (str (default [] (head (split_on "T"%char (chars iso)))))
                     | inl e => inl e
                     end
                 | JStr s => inr s
                 | _ => inr (ToString h date)
                 end) with
          | inr dateStr =>
              inr (when (negb (isIsoDate dateStr))
                        [Fail filePath (DateNotIso dateStr)])
          | inl e => inl e
          end
        else inr [] in
      match date_check with
      | inl e => (missing ++ unknown ++ title_check, Some e)
      | inr date_reports =>
          (missing ++ unknown ++ title_check ++ date_reports
           ++ check_rest filePath data, None)
      end
  end.

End Validate.

End Lint.

(** ** Reading a run *)

(** The requests of a trace, and those addressed to the Webflow store. *)
Definition requests (evs : list Event) : list Request :=
  omap (fun ev => match ev with EvFetch r => Some r | EvConsole _ => None end) evs.

Definition is_webflow (r : Request) : bool :=
  match r with
  | PatchItem _ _ _ _ | PostItem _ _ _ => true
  | PostDispatch _ _ _ _ => false
  end.

Definition webflow_calls (evs : list Event) : list Request :=
  filter (fun r => is_webflow r = true) (requests evs).

Definition request_body (r : Request) : option Payload :=
  match r with
  | PatchItem _ _ _ body | PostItem _ _ body => Some body
  | PostDispatch _ _ _ _ => None
  end.

(** The [date] of a document can be turned into a publish date: it is
    absent (falsy) or denotes a valid time. *)
Definition date_ok (h : Host) (fm : gmap string JSValue) : bool :=
  negb (truthy (prop fm "date")) || bool_decide (is_Some (Date_new h (prop fm "date"))).

(** The one store call [upsertWebflowItem] makes for a mapped record: an
    update of the item named by the record, or a create. *)
Definition store_call (h : Host) (token collection : string) (p : Payload)
    : Request :=
  match fieldData p !! f_postId FIELD_IDS with
  | Some id => PatchItem token collection (ToString h id) p
  | None => PostItem token collection p
  end.

(** The two flags as [upsertWebflowItem] reads them from the frontmatter
    that [processFile] has normalised. *)
Definition coerced_published (data : gmap string JSValue) : bool :=
  truthy (prop (normalize_booleans data) "published").

Definition coerced_push (data : gmap string JSValue) : bool :=
  pushFlag (normalize_booleans data).

(** What every request to the store carries. *)
Definition forced_fields (r : Request) : Prop :=
  ∃ body, request_body r = Some body
          ∧ isArchived body = false
          ∧ fieldData body !! f_pushToWebflow FIELD_IDS = Some (JBool true).

(** [needle] occurs in [hay]. *)
Fixpoint occurs_in (needle hay : list ascii) : bool :=
  starts_with false needle hay
  || match hay with
     | [] => false
     | _ :: hay' => occurs_in needle hay'
     end.

Definition mentions (msg word : string) : bool := occurs_in (chars word) (chars msg).

(** What the normalisation makes of the value of one of its two keys. *)
Definition normalized_value (o : option JSValue) : option JSValue :=
  match o with
  | Some (JStr v) => Some (JBool (matches_true v))
  | _ => o
  end.

(** A path that [walk] may return for [dir]: a markdown file below it. *)
Definition markdown_under (dir p : string) : Prop :=
  ends_with ".md" p = true ∧ chars (dir +:+ "/") `prefix_of` chars p.

(** [p] is the path, below [dir], of a regular file of the tree under the
    entry [ent]: the entry itself when it is a file, or a file entry of a
    readable directory reached from it, every step appending the name of
    the entry to the path as [path.join] does. *)
Inductive file_entry : string -> Dirent -> string -> Prop :=
| file_entry_here dir name :
    file_entry dir (DFile name) (path_join dir name)
| file_entry_below dir name ents ent p :
    ent ∈ ents ->
    file_entry (path_join dir name) ent p ->
    file_entry dir (DDir name (inr ents)) p.

(** The slugs of [FIELD_IDS], and those the mapper writes under the test
    that the value to write is truthy (the post id is written under a
    test of the frontmatter value instead). *)
Definition field_slugs : list string :=
  [f_name FIELD_IDS; f_slug FIELD_IDS; f_body FIELD_IDS; f_mainImage FIELD_IDS;
   f_publishDate FIELD_IDS; f_authorText FIELD_IDS; f_externalLink FIELD_IDS;
   f_isPublished FIELD_IDS; f_pushToWebflow FIELD_IDS; f_postId FIELD_IDS;
   f_tags FIELD_IDS; f_excerpt FIELD_IDS; f_seoTitle FIELD_IDS;
   f_seoDescription FIELD_IDS].

Definition optional_slugs : list string :=
  [f_mainImage FIELD_IDS; f_authorText FIELD_IDS; f_externalLink FIELD_IDS;
   f_tags FIELD_IDS; f_excerpt FIELD_IDS; f_seoTitle FIELD_IDS;
   f_seoDescription FIELD_IDS].

(** The two reports of the linter about which keys are there. *)
Definition presence_report (r : Lint.Report) : bool :=
  match r with
  | Lint.Fail _ (Lint.MissingRequired _) | Lint.Fail _ (Lint.UnknownField _) => true
  | _ => false
  end.

(** The year of a time value in UTC, as [toISOString] prints it. *)
Definition utc_year (t : Z) : Z := (civil_from_days (t / 86400000)).1.1.

(** [width] decimal digits. *)
Definition is_digits (width : nat) (l : list ascii) : bool :=
  (length l =? width)%nat && forallb is_digit l.

(** [f] holds of [start], [start + 1], ... ([count] numbers). *)
Fixpoint holds_from (f : Z -> bool) (count : nat) (start : Z) : bool :=
  match count with
  | O => true
  | S k => f start && holds_from f k (start + 1)
  end.

(** The report of the linter about the format of [date]. *)
Definition date_report (r : Lint.Report) : bool :=
  match r with
  | Lint.Fail _ (Lint.DateNotIso _) => true
  | _ => false
  end.

(** ** Relations between the states of a run *)

(** Every run of [m] takes a state to one related to it by [R]. *)
Definition keeps {World A : Type} (R : St World -> St World -> Prop)
    (m : M World A) : Prop :=
  ∀ s, R s (snd (m s)).

(** A line printed by [fail]. *)
Definition is_failure (ev : Event) : bool :=
  match ev with
  | EvConsole (EFail _ _) => true
  | _ => false
  end.

(** Nothing was sent between the two states. *)
Definition same_requests {World : Type} (s s' : St World) : Prop :=
  requests (trace s') = requests (trace s).

(** The outside world is the same in the two states. *)
Definition same_world {World : Type} (s s' : St World) : Prop :=
  world s' = world s.

(** The trace grew, and the exit code became 1 if a failure was printed
    and stayed what it was otherwise. *)
Definition exit_tracks_failures {World : Type} (s s' : St World) : Prop :=
  ∃ evs, trace s' = trace s ++ evs
         ∧ exitCode s' = if existsb is_failure evs then 1 else exitCode s.

(** The trace grew by at most [n] requests to the store. *)
Definition at_most_calls {World : Type} (n : nat) (s s' : St World) : Prop :=
  ∃ evs, trace s' = trace s ++ evs ∧ (length (webflow_calls evs) <= n)%nat.

(** ** Shapes of strings *)

(** [P] holds of the first character, if there is one. *)
Definition head_is (P : ascii -> bool) (l : list ascii) : bool :=
  match l with
  | c :: _ => P c
  | [] => false
  end.

(** No two neighbours of [l] are both in the class [P]. *)
Fixpoint no_adjacent (P : ascii -> bool) (l : list ascii) : bool :=
  match l with
  | a :: l' => negb (P a && head_is P l') && no_adjacent P l'
  | [] => true
  end.

Definition is_hyphen (c : ascii) : bool := Ascii.eqb c "-".

Definition slug_char (c : ascii) : bool := is_alnum_lower c || is_hyphen c.

(** A slug, possibly empty: lower-case letters, digits and single hyphens,
    with no hyphen at either end. *)
Definition is_slug (s : string) : bool :=
  let l := chars s in
  forallb slug_char l
  && negb (head_is is_hyphen l)
  && negb (head_is is_hyphen (rev l))
  && no_adjacent is_hyphen l.

(** Text whose white space is collapsed: the only white-space character is
    the space, never two in a row, and none in front. *)
Definition plain_or_space (c : ascii) : bool :=
  negb (is_ws c) || Ascii.eqb c " ".

Definition is_collapsed (s : string) : bool :=
  let l := chars s in
  forallb plain_or_space l
  && negb (head_is is_ws l)
  && no_adjacent is_ws l.

(** The longest suffix that does not start in the class [P], and the
    segment left when both ends are cut that way. *)
Fixpoint drop_while (P : ascii -> bool) (l : list ascii) : list ascii :=
  match l with
  | c :: l' => if P c then drop_while P l' else l
  | [] => []
  end.

Definition trim_by (P : ascii -> bool) (l : list ascii) : list ascii :=
  rev (drop_while P (rev (drop_while P l))).

(** ** A store and a corpus to run the script on *)

Module Fixture.

(** The remote collection: items by id. *)
Definition Store : Type := list (string * Payload).

Definition item_json (id : string) : JSValue :=
  JObj [("id", JStr id);
        ("createdOn", JStr "2025-01-01T00:00:00.000Z");
        ("lastUpdated", JStr "2025-01-01T00:00:00.000Z")].

Definition no_json : JSError + JSValue :=
  inl (SyntaxError "Unexpected end of JSON input").

(** A store that accepts every create, and every update of an item it
    has; an unknown item is 404. *)
Definition accepting (r : Request) (st : Store) : FetchResult * Store :=
  match r with
  | PostItem _ _ body =>
      let id := "item-" +:+ pretty (N.of_nat (length st)) in
      (Response 200 "ok" (inr (item_json id)), st ++ [(id, body)])
  | PatchItem _ _ id body =>
      if existsb (fun kv => String.eqb id (fst kv)) st
      then (Response 200 "ok" (inr (item_json id)),
            map (fun kv => if String.eqb id (fst kv) then (id, body) else kv) st)
      else (Response 404 "not found" no_json, st)
  | PostDispatch _ _ _ _ => (Response 204 EmptyString no_json, st)
  end.

(** A store that answers every request with the same failure. *)
Definition refusing (status : Z) (text : string) (r : Request) (st : Store)
    : FetchResult * Store :=
  (Response status text no_json, st).

Definition find_doc {A} (k : string) (docs : list (string * A)) : option A :=
  snd <$> find (fun kv => String.eqb k (fst kv)) docs.

(** A platform over that store: the files of [docs] parse to the given
    frontmatter and content, and the markdown is rendered to a single
    paragraph. *)
Definition platform (respond : Request -> Store -> FetchResult * Store)
    (now : Z) (docs : list (string * (gmap string JSValue * string)))
    (diff : JSError + string) (tree : option (JSError + list Dirent))
    : Platform Store :=
  {| fetch_step := respond;
     clock := fun _ => now;
     readFileSync := fun _ path =>
       if existsb (fun kv => String.eqb path (fst kv)) docs then inr path
       else inl (Error ("ENOENT: no such file or directory, open " +:+ path));
     matter := fun src =>
       match find_doc src docs with
       | Some d => inr d
       | None => inl (Error "cannot parse")
       end;
     dirname := fun path => path;
     rewriteImageLinksInMarkdown := fun _ content _ => content;
     mdToHtml := fun md => inr ("<p>" +:+ md +:+ "</p>");
     git_fetch := fun _ w => w;
     git_diff := fun _ => diff;
     posts_dir := fun _ => tree |}.

Definition host : Host :=
  {| Date_parse := fun _ => None;
     Date_toString := fun t => iso_of_time t;
     Number_toString := fun n => pretty n |}.

Definition penv : gmap string string :=
  {[ "WEBFLOW_TOKEN" := "secret"; "WEBFLOW_COLLECTION_ID" := "col1" ]}.

Definition start (st : Store) : St Store :=
  {| world := st; trace := []; exitCode := 0 |}.

(** Two documents whose titles differ and whose derived slugs are equal,
    neither carrying a [post_id]. *)
Definition doc_hello1 : gmap string JSValue :=
  {[ "title" := JStr "Hello, World"; "date" := JDate (Some 1735689600000) ]}.
Definition doc_hello2 : gmap string JSValue :=
  {[ "title" := JStr "Hello World!"; "date" := JDate (Some 1735689600000) ]}.

(** A document bound to the remote item [abc123]. *)
Definition doc_bound : gmap string JSValue :=
  {[ "title" := JStr "Bound"; "date" := JDate (Some 1735689600000);
     "post_id" := JStr "abc123" ]}.

(** A document with neither [title] nor [date]. *)
Definition doc_bare : gmap string JSValue := {[ "author" := JStr "Ann" ]}.

(** A document with a title and no [date]. *)
Definition doc_undated : gmap string JSValue := {[ "title" := JStr "Undated" ]}.

(** A document that opts out of the sync. *)
Definition doc_optout : gmap string JSValue :=
  {[ "title" := JStr "Private"; "push_to_webflow" := JBool false ]}.

(** A document whose [date] is a string no host reads as a date. *)
Definition doc_baddate : gmap string JSValue :=
  {[ "title" := JStr "Soon"; "date" := JStr "soon" ]}.

(** A store that accepts, with a GitHub that refuses the dispatch. *)
Definition accepting_without_dispatch (r : Request) (st : Store)
    : FetchResult * Store :=
  match r with
  | PostDispatch _ _ _ _ => (Response 500 "no dispatch" no_json, st)
  | _ => accepting r st
  end.

Definition penv_github : gmap string string :=
  {[ "WEBFLOW_TOKEN" := "secret"; "WEBFLOW_COLLECTION_ID" := "col1";
     "GITHUB_TOKEN" := "ghs"; "GITHUB_REPOSITORY" := "acme/blog" ]}.

(** The record the mapper makes of a document at time 0, when it makes
    one. *)
Definition payload_of (fm : gmap string JSValue) (html : string) : Payload :=
  match buildPayload host penv 0 fm html with
  | inr (_, p) => p
  | inl _ => MkPayload false false ∅
  end.

Definition corpus : list (string * (gmap string JSValue * string)) :=
  [("posts/a.md", (doc_hello1, "one")); ("posts/b.md", (doc_hello2, "two"))].

Definition tree : option (JSError + list Dirent) :=
  Some (inr [DFile "a.md"; DFile "b.md"; DFile "notes.txt"]).

End Fixture.

(** * Properties *)

(** ** The embedding on the examples of the specification *)

Example kebab_modern_web_performance :
  kebab Fixture.host (JStr "Modern Web Performance!") = "modern-web-performance".
Proof. reflexivity. Qed.

Example kebab_multi_space_title :
  kebab Fixture.host (JStr "  Multi   Space -- Title  ") = "multi-space-title".
Proof. reflexivity. Qed.

Example kebab_collision :
  kebab Fixture.host (JStr "Hello, World") = kebab Fixture.host (JStr "Hello World!").
Proof. reflexivity. Qed.

Example excerpt_strips_markup :
  trimToExcerpt "<p>Hello <b>world</b></p> <style>p{}</style><script>x()</script> a<b" 160
  = "Hello world a<b".
Proof. reflexivity. Qed.

Example excerpt_cuts_at_160 :
  String.length
    (trimToExcerpt ("<p>" +:+ str (replicate 200 "a"%char) +:+ "</p>") 160)
  = 160%nat.
Proof. reflexivity. Qed.

Example iso_of_new_year_2025 :
  iso_of_time 1735689600000 = "2025-01-01T00:00:00.000Z".
Proof. reflexivity. Qed.

Example iso_before_epoch :
  iso_of_time (-1) = "1969-12-31T23:59:59.999Z".
Proof. reflexivity. Qed.

Example isIsoDate_table :
  map Lint.isIsoDate
      ["2025-01-01"; "2025-01-01T10:00"; "2025-01-01 10:00:05.123Z";
       "2025-01-01T10:00:05+01:00"; "2025-1-01"; "2025-01-01T"; "Jan 1, 2025"]
  = [true; true; true; true; false; false; false].
Proof. reflexivity. Qed.

Example diff_lines_skips_blanks :
  diff_lines (str (chars "posts/a.md" ++ [ascii_of_N 10] ++ chars " posts/b.md "
                   ++ [ascii_of_N 10]))
  = ["posts/a.md"; "posts/b.md"].
Proof. reflexivity. Qed.

Example create_on_accepting_store :
  let r := upsertWebflowItem
             (Fixture.platform Fixture.accepting 0 [] (inr EmptyString) None)
             Fixture.host Fixture.penv Fixture.doc_undated "<p>x</p>"
             "posts/u.md" false (Fixture.start []) in
  fst r = inr (Fixture.item_json "item-0")
  ∧ omap (λ ev, match ev with EvConsole l => Some l | EvFetch _ => None end)
         (trace (snd r))
    = [LCreated (JStr "item-0") "posts/u.md";
       LCreatedOn (JStr "2025-01-01T00:00:00.000Z");
       LLastUpdated (JStr "2025-01-01T00:00:00.000Z")]
  ∧ length (requests (trace (snd r))) = 1%nat.
Proof. vm_compute. repeat split. Qed.

Example update_on_accepting_store :
  let r := upsertWebflowItem
             (Fixture.platform Fixture.accepting 0 [] (inr EmptyString) None)
             Fixture.host Fixture.penv Fixture.doc_bound "<p>b</p>"
             "posts/c.md" false
             (Fixture.start [("abc123", MkPayload false true ∅)]) in
  fst r = inr (Fixture.item_json "abc123")
  ∧ omap (λ ev, match ev with EvConsole l => Some l | EvFetch _ => None end)
         (trace (snd r))
    = [LUpdated (JStr "abc123") "posts/c.md";
       LLastUpdated (JStr "2025-01-01T00:00:00.000Z")]
  ∧ length (world (snd r)) = 1%nat.
Proof. vm_compute. repeat split. Qed.

(** ** Field data *)

Lemma lookup_set_if_ne (id k : string) (c : bool) (v : JSValue)
    (fd : gmap string JSValue) :
  id ≠ k → set_if id c v fd !! k = fd !! k.
Proof.
  intros Hne. unfold set_if.
  destruct (truthy (JStr id) && c); [by rewrite lookup_insert_ne | done].
Qed.

Lemma lookup_set_if_eq (id : string) (c : bool) (v : JSValue)
    (fd : gmap string JSValue) :
  id ≠ EmptyString →
  set_if id c v fd !! id = if c then Some v else fd !! id.
Proof.
  intros Hne. unfold set_if. cbn [truthy].
  destruct (String.eqb_spec id EmptyString) as [->|_]; [done|].
  destruct c; cbn; [by rewrite lookup_insert_eq | done].
Qed.

Section MapperFacts.
Context (h : Host) (penv : gmap string string).

(** What the mapper writes whatever the document says. *)
Lemma buildPayload_fields now fm html slug p :
  buildPayload h penv now fm html = inr (slug, p) →
  isArchived p = false
  ∧ fieldData p !! f_pushToWebflow FIELD_IDS = Some (JBool true)
  ∧ fieldData p !! f_postId FIELD_IDS =
      (if truthy (prop fm "post_id")
       then Some (JStr (ToString h (prop fm "post_id"))) else None)
  ∧ fieldData p !! f_slug FIELD_IDS = Some (JStr slug).
Proof.
  unfold buildPayload.
  destruct (if truthy (prop fm "date") then _ else _) as [e|publishDate];
    [discriminate|].
  intros [= <- <-]. cbn [isArchived fieldData].
  cbn [FIELD_IDS f_name f_slug f_body f_mainImage f_publishDate f_authorText
       f_externalLink f_isPublished f_pushToWebflow f_postId f_excerpt
       f_seoTitle f_seoDescription f_tags].
  repeat split.
  - rewrite !lookup_set_if_ne by done. by rewrite lookup_set_if_eq.
  - rewrite !lookup_set_if_ne by done. rewrite lookup_set_if_eq by done.
    destruct (truthy (prop fm "post_id")); [done|].
    rewrite !lookup_set_if_ne by done. apply lookup_empty.
  - rewrite !lookup_set_if_ne by done. by rewrite lookup_set_if_eq.
Qed.

(** The mapper throws only on a [date] that is not a valid time. *)
Lemma buildPayload_ok now fm html :
  date_ok h fm = true →
  ∃ slug p, buildPayload h penv now fm html = inr (slug, p).
Proof.
  unfold date_ok, buildPayload. intros Hd.
  destruct (truthy (prop fm "date")); cbn in Hd.
  - apply bool_decide_eq_true in Hd as [t ->]. cbn [toISOString]. eauto.
  - cbn [toISOString]. eauto.
Qed.

End MapperFacts.


(** ** Traces *)

Lemma requests_app (a b : list Event) :
  requests (a ++ b) = requests a ++ requests b.
Proof. apply omap_app. Qed.

Lemma webflow_calls_app (a b : list Event) :
  webflow_calls (a ++ b) = webflow_calls a ++ webflow_calls b.
Proof. unfold webflow_calls. by rewrite requests_app, filter_app. Qed.

Lemma webflow_calls_store_call h token collection p :
  webflow_calls [EvFetch (store_call h token collection p)]
  = [store_call h token collection p].
Proof. unfold store_call. by destruct (fieldData p !! _). Qed.

(** ** The reconciliation step *)

Section EngineFacts.
Context {World : Type} (P : Platform World) (h : Host).
Context (penv : gmap string string).

Local Abbreviation upsert := (upsertWebflowItem P h penv).
Local Abbreviation token := (ToString h (WEBFLOW_TOKEN penv)).
Local Abbreviation collection := (ToString h (COLLECTION_ID penv)).

Ltac run_script :=
  unfold upsertWebflowItem, fetch, log, warn, emit,
    get_world, lift, try_catch, bind, ret, throw.

(** The writeback sends nothing to the store. *)
Lemma dispatchWriteback_trace filePath itemId s :
  ∃ evs,
    trace (snd (dispatchWriteback P h penv filePath itemId s)) = trace s ++ evs
    ∧ webflow_calls evs = [].
Proof.
  unfold dispatchWriteback. run_script.
  destruct (negb _ || negb _ || negb _); cbn.
  { exists []. by rewrite app_nil_r. }
  destruct (fetch_step P _ (world s)) as [[e|status text json] w']; cbn.
  { eexists [_]. split; [reflexivity|done]. }
  destruct (negb (res_ok status)); cbn.
  - eexists [_]. split; [reflexivity|done].
  - eexists [_; _]. split; [by rewrite <- app_assoc|done].
Qed.

Lemma upsert_skipped fm html filePath dryRun s :
  pushFlag fm = false →
  upsert fm html filePath dryRun s
  = (inr JUndefined,
     MkSt (world s) (trace s ++ [EvConsole (LSkipping filePath)]) (exitCode s)).
Proof. run_script. by intros ->. Qed.

Lemma upsert_untitled fm html filePath dryRun s :
  pushFlag fm = true →
  truthy (prop fm "title") = false →
  upsert fm html filePath dryRun s
  = (inl (Error ("Missing required 'title' in " +:+ filePath)), s).
Proof. run_script. by intros -> ->. Qed.

Lemma upsert_unmapped fm html filePath dryRun s e :
  pushFlag fm = true →
  truthy (prop fm "title") = true →
  buildPayload h penv (clock P (world s)) fm html = inl e →
  upsert fm html filePath dryRun s = (inl e, s).
Proof.
  intros Hpush Htitle Hmap. run_script.
  rewrite Hpush, Htitle. cbn. by rewrite Hmap.
Qed.

Lemma upsert_dry_run fm html filePath s slug p :
  pushFlag fm = true →
  truthy (prop fm "title") = true →
  buildPayload h penv (clock P (world s)) fm html = inr (slug, p) →
  upsert fm html filePath true s
  = (inr JUndefined,
     MkSt (world s)
          (trace s ++ [EvConsole (LDryRunUpsert slug (truthy (prop fm "post_id")))])
          (exitCode s)).
Proof.
  intros Hpush Htitle Hmap. run_script.
  rewrite Hpush, Htitle. cbn. by rewrite Hmap.
Qed.

(** A mapped record that is neither skipped nor a dry run costs exactly
    one store call, the first thing sent. *)
Lemma upsert_store fm html filePath s slug p :
  pushFlag fm = true →
  truthy (prop fm "title") = true →
  buildPayload h penv (clock P (world s)) fm html = inr (slug, p) →
  ∃ evs,
    trace (snd (upsert fm html filePath false s))
    = trace s ++ EvFetch (store_call h token collection p) :: evs
    ∧ webflow_calls evs = [].
Proof.
  intros Hpush Htitle Hmap.
  destruct (buildPayload_fields _ _ _ _ _ _ _ Hmap) as (_ & _ & Hid & _).
  unfold store_call. rewrite Hid.
  run_script. rewrite Hpush, Htitle. cbn. rewrite Hmap. cbn.
  destruct (truthy (prop fm "post_id")); cbn.
  - destruct (fetch_step P _ (world s)) as [[e|status text json] w']; cbn.
    { by exists []. }
    destruct (negb (res_ok status)); cbn; [by exists []|].
    destruct json as [e|data]; cbn; [by exists []|].
    destruct (member data "lastUpdated") as [e|lu]; cbn.
    + eexists [_]. split; [by rewrite <- app_assoc|done].
    + eexists [_; _]. split; [by rewrite <- !app_assoc|done].
  - destruct (fetch_step P _ (world s)) as [[e|status text json] w']; cbn.
    { by exists []. }
    destruct (negb (res_ok status)); cbn; [by exists []|].
    destruct json as [e|data]; cbn; [by exists []|].
    destruct (member data "createdOn") as [e|co]; cbn.
    { eexists [_]. split; [by rewrite <- app_assoc|done]. }
    destruct (member data "lastUpdated") as [e|lu]; cbn.
    { eexists [_; _]. split; [by rewrite <- !app_assoc|done]. }
    match goal with
    | |- context [dispatchWriteback P h penv ?f ?i ?st] =>
        destruct (dispatchWriteback_trace f i st) as (evs & Htr & Hcalls);
        destruct (dispatchWriteback P h penv f i st) as [[e|[]] s'] eqn:Hd
    end; cbn in *.
    + exists ([EvConsole (LCreated (js_or (js_or (opt_member data "id")
                 (opt_member (opt_member data "item") "id")) (JStr "(unknown)"))
                 filePath);
               EvConsole (LCreatedOn (js_or co (JStr "N/A")));
               EvConsole (LLastUpdated (js_or lu (JStr "N/A")))]
              ++ evs ++ [EvConsole (WWritebackFailed (err_message e))]).
      split.
      * rewrite Htr. by rewrite <- !app_assoc.
      * rewrite !webflow_calls_app, Hcalls. done.
    + exists ([EvConsole (LCreated (js_or (js_or (opt_member data "id")
                 (opt_member (opt_member data "item") "id")) (JStr "(unknown)"))
                 filePath);
               EvConsole (LCreatedOn (js_or co (JStr "N/A")));
               EvConsole (LLastUpdated (js_or lu (JStr "N/A")))]
              ++ evs).
      split.
      * rewrite Htr. by rewrite <- !app_assoc.
      * rewrite !webflow_calls_app, Hcalls. done.
Qed.

(** A response outside 200-299 is thrown at once, with its status and
    text, after that single call. *)
Lemma upsert_refused fm html filePath s slug p status text json w' :
  pushFlag fm = true →
  truthy (prop fm "title") = true →
  buildPayload h penv (clock P (world s)) fm html = inr (slug, p) →
  fetch_step P (store_call h token collection p) (world s)
    = (Response status text json, w') →
  res_ok status = false →
  upsert fm html filePath false s
  = (inl (Error ((if truthy (prop fm "post_id")
                  then "Webflow update failed ("
                  else "Webflow create failed (")
                 +:+ pretty status +:+ "): " +:+ text)),
     MkSt w' (trace s ++ [EvFetch (store_call h token collection p)])
          (exitCode s)).
Proof.
  intros Hpush Htitle Hmap.
  destruct (buildPayload_fields _ _ _ _ _ _ _ Hmap) as (_ & _ & Hid & _).
  unfold store_call. rewrite Hid.
  intros Hfetch Hrefused.
  run_script. rewrite Hpush, Htitle. cbn. rewrite Hmap. cbn.
  destruct (truthy (prop fm "post_id")); cbn in *;
    rewrite Hfetch; cbn; by rewrite Hrefused.
Qed.

(** Whatever the document, [upsertWebflowItem] extends the trace, and
    sends to the store either nothing or the one call of the record it
    mapped. *)
Lemma upsert_trace fm html filePath dryRun s :
  ∃ evs,
    trace (snd (upsert fm html filePath dryRun s)) = trace s ++ evs
    ∧ (webflow_calls evs = []
       ∨ ∃ slug p,
           buildPayload h penv (clock P (world s)) fm html = inr (slug, p)
           ∧ webflow_calls evs = [store_call h token collection p]).
Proof.
  destruct (pushFlag fm) eqn:Hpush.
  2: { rewrite upsert_skipped by done. eexists [_]. split; [done|by left]. }
  destruct (truthy (prop fm "title")) eqn:Htitle.
  2: { rewrite upsert_untitled by done. exists []. cbn.
       split; [by rewrite app_nil_r|by left]. }
  destruct (buildPayload h penv (clock P (world s)) fm html)
    as [e|[slug p]] eqn:Hmap.
  { rewrite (upsert_unmapped _ _ _ _ _ e) by done. exists []. cbn.
    split; [by rewrite app_nil_r|by left]. }
  destruct dryRun.
  { rewrite (upsert_dry_run _ _ _ _ slug p) by done.
    eexists [_]. split; [done|by left]. }
  destruct (upsert_store fm html filePath s slug p) as (evs & Htr & Hcalls);
    [done..|].
  eexists. split; [exact Htr|]. right. exists slug, p. split; [done|].
  change (EvFetch ?r :: evs) with ([EvFetch r] ++ evs).
  rewrite webflow_calls_app, Hcalls, app_nil_r.
  apply webflow_calls_store_call.
Qed.

End EngineFacts.

(** ** Boolean normalisation *)

Lemma lookup_normalize_key_ne (k k' : string) (data : gmap string JSValue) :
  k ≠ k' → normalize_key k data !! k' = data !! k'.
Proof.
  intros Hne. unfold normalize_key.
  destruct (has_key data k); [|done].
  destruct (prop data k); try done. by rewrite lookup_insert_ne.
Qed.

Lemma lookup_normalize_key_eq (k : string) (data : gmap string JSValue) :
  normalize_key k data !! k
  = match data !! k with
    | Some (JStr v) => Some (JBool (matches_true v))
    | o => o
    end.
Proof.
  unfold normalize_key, has_key, prop.
  destruct (data !! k) as [v|] eqn:Hk.
  - rewrite bool_decide_eq_true_2 by eauto. cbn.
    destruct v; try done. by rewrite lookup_insert_eq.
  - rewrite bool_decide_eq_false_2 by (intros [? ?]; done). done.
Qed.

Lemma prop_normalize_published (data : gmap string JSValue) :
  prop (normalize_booleans data) "published"
  = match data !! "published" with
    | Some (JStr v) => JBool (matches_true v)
    | Some v => v
    | None => JUndefined
    end.
Proof.
  unfold normalize_booleans, prop. cbn [foldl].
  rewrite lookup_normalize_key_ne by done.
  rewrite lookup_normalize_key_eq.
  by destruct (data !! "published") as [[]|].
Qed.

Lemma prop_normalize_push (data : gmap string JSValue) :
  prop (normalize_booleans data) "push_to_webflow"
  = match data !! "push_to_webflow" with
    | Some (JStr v) => JBool (matches_true v)
    | Some v => v
    | None => JUndefined
    end.
Proof.
  unfold normalize_booleans, prop. cbn [foldl].
  rewrite lookup_normalize_key_eq.
  rewrite lookup_normalize_key_ne by done.
  by destruct (data !! "push_to_webflow") as [[]|].
Qed.

(** ** The loop of [main] *)

Section LoopFacts.
Context {World : Type} (P : Platform World) (h : Host).
Context (penv : gmap string string).

Lemma attempt_returns f dryRun s :
  fst (attempt P h penv f dryRun s) = inr tt.
Proof.
  unfold attempt, try_catch, fail.
  by destruct (processFile P h penv f dryRun s) as [[e|[]] s1].
Qed.

Lemma process_all_app before after dryRun s :
  process_all P h penv (before ++ after) dryRun s
  = process_all P h penv after dryRun
      (snd (process_all P h penv before dryRun s)).
Proof.
  revert s. induction before as [|f before IH]; intros s; [done|].
  cbn [app process_all]. unfold bind.
  pose proof (attempt_returns f dryRun s) as Hret.
  destruct (attempt P h penv f dryRun s) as [[e|[]] s1]; [done|].
  apply IH.
Qed.

Lemma process_all_returns files dryRun s :
  fst (process_all P h penv files dryRun s) = inr tt.
Proof.
  revert s. induction files as [|f files IH]; intros s; [done|].
  cbn [process_all]. unfold bind.
  pose proof (attempt_returns f dryRun s) as Hret.
  destruct (attempt P h penv f dryRun s) as [[e|[]] s1]; [done|].
  apply IH.
Qed.

End LoopFacts.

(** ** Composing the steps of a run *)

Section Keeps.
Context {World : Type} (R : St World -> St World -> Prop).
Context (R_refl : ∀ s, R s s) (R_trans : ∀ s1 s2 s3, R s1 s2 → R s2 s3 → R s1 s3).

Lemma keeps_ret {A} (a : A) : keeps R (ret a).
Proof. intros s. apply R_refl. Qed.

Lemma keeps_throw {A} (e : JSError) : keeps R (@throw World A e).
Proof. intros s. apply R_refl. Qed.

Lemma keeps_lift {A} (r : JSError + A) : keeps R (lift r).
Proof. destruct r; [apply keeps_throw|apply keeps_ret]. Qed.

Lemma keeps_get_world : keeps R get_world.
Proof. intros s. apply R_refl. Qed.

Lemma keeps_bind {A B} (m : M World A) (k : A -> M World B) :
  keeps R m → (∀ a, keeps R (k a)) → keeps R (bind m k).
Proof.
  intros Hm Hk s. unfold bind. specialize (Hm s).
  destruct (m s) as [[e|a] s1]; [exact Hm|].
  eapply R_trans; [exact Hm|apply Hk].
Qed.

Lemma keeps_try_catch {A} (m : M World A) (handler : JSError -> M World A) :
  keeps R m → (∀ e, keeps R (handler e)) → keeps R (try_catch m handler).
Proof.
  intros Hm Hh s. unfold try_catch. specialize (Hm s).
  destruct (m s) as [[e|a] s1]; [|exact Hm].
  eapply R_trans; [exact Hm|apply Hh].
Qed.

End Keeps.

Ltac keeps_steps Hrefl Htrans prim :=
  repeat first
    [ progress cbv beta iota
    | prim
    | apply (keeps_ret _ Hrefl)
    | apply (keeps_throw _ Hrefl)
    | apply (keeps_lift _ Hrefl)
    | apply (keeps_get_world _ Hrefl)
    | apply (keeps_bind _ Htrans); [|intros ?]
    | apply (keeps_try_catch _ Htrans); [|intros ?]
    | match goal with
      | |- keeps _ (if ?c then _ else _) => destruct c
      | |- keeps _ (match ?x with _ => _ end) => destruct x
      end ].

(** ** The exit code *)

Section ExitCode.
Context {World : Type} (P : Platform World) (h : Host).
Context (penv : gmap string string).

Lemma exit_refl (s : St World) : exit_tracks_failures s s.
Proof. exists []. by rewrite app_nil_r. Qed.

Lemma exit_trans (s1 s2 s3 : St World) :
  exit_tracks_failures s1 s2 → exit_tracks_failures s2 s3 →
  exit_tracks_failures s1 s3.
Proof.
  intros (evs1 & Htr1 & Hex1) (evs2 & Htr2 & Hex2).
  exists (evs1 ++ evs2). split.
  - by rewrite Htr2, Htr1, app_assoc.
  - rewrite existsb_app, Hex2, Hex1.
    by destruct (existsb is_failure evs1), (existsb is_failure evs2).
Qed.

Lemma exit_emit (ev : Event) :
  is_failure ev = false → keeps exit_tracks_failures (emit (World := World) ev).
Proof. intros Hev s. exists [ev]. cbn. by rewrite Hev. Qed.

Lemma exit_fail msg e : keeps exit_tracks_failures (fail (World := World) msg e).
Proof. intros s. by exists [EvConsole (EFail msg e)]. Qed.

Lemma exit_fetch req : keeps exit_tracks_failures (fetch P req).
Proof.
  intros s. unfold fetch.
  destruct (fetch_step P req (world s)) as [[e|status text json] w'];
    by exists [EvFetch req].
Qed.

Lemma exit_git_fetch branch :
  keeps exit_tracks_failures
    (λ s : St World,
       (inr tt, MkSt (git_fetch P branch (world s)) (trace s) (exitCode s))).
Proof. intros s. exists []. cbn. by rewrite app_nil_r. Qed.

Ltac exits lemmas :=
  keeps_steps exit_refl exit_trans
    ltac:(first [ apply exit_emit; reflexivity | apply exit_fail
                | apply exit_fetch | apply exit_git_fetch | lemmas ]).

Lemma exit_dispatchWriteback filePath itemId :
  keeps exit_tracks_failures (dispatchWriteback P h penv filePath itemId).
Proof. unfold dispatchWriteback, log. exits ltac:(fail). Qed.

Lemma exit_upsert fm html filePath dryRun :
  keeps exit_tracks_failures (upsertWebflowItem P h penv fm html filePath dryRun).
Proof.
  unfold upsertWebflowItem, log, warn.
  exits ltac:(apply exit_dispatchWriteback).
Qed.

Lemma exit_processFile filePath dryRun :
  keeps exit_tracks_failures (processFile P h penv filePath dryRun).
Proof. unfold processFile. exits ltac:(apply exit_upsert). Qed.

Lemma exit_process_all files dryRun :
  keeps exit_tracks_failures (process_all P h penv files dryRun).
Proof.
  induction files as [|f files IH]; cbn [process_all]; [exits ltac:(fail)|].
  unfold attempt. exits ltac:(first [ apply exit_processFile | exact IH ]).
Qed.

Lemma exit_getAllMarkdown : keeps exit_tracks_failures (getAllMarkdown P).
Proof. unfold getAllMarkdown. exits ltac:(fail). Qed.

Lemma exit_getChangedMarkdown :
  keeps exit_tracks_failures (getChangedMarkdown P h penv).
Proof.
  unfold getChangedMarkdown, warn. exits ltac:(apply exit_getAllMarkdown).
Qed.

Lemma exit_run argv : keeps exit_tracks_failures (run P h penv argv).
Proof.
  unfold run, main, requireEnv, log.
  exits ltac:(first [ apply exit_getAllMarkdown | apply exit_getChangedMarkdown
                    | apply exit_process_all ]).
Qed.

End ExitCode.

(** ** A whole run *)

Section RunFacts.
Context {World : Type} (P : Platform World) (h : Host).
Context (penv : gmap string string).

(** Once the exit code is 1 the loop leaves it there, and it only adds to
    the trace. *)
Lemma process_all_after_failure files dryRun s :
  exitCode s = 1 →
  exitCode (snd (process_all P h penv files dryRun s)) = 1
  ∧ ∃ evs, trace (snd (process_all P h penv files dryRun s)) = trace s ++ evs.
Proof.
  intros Hexit.
  destruct (exit_process_all P h penv files dryRun s) as (evs & Htrace & Hcode).
  split; [|by exists evs].
  rewrite Hcode, Hexit. by destruct (existsb is_failure evs).
Qed.

(** A run whose variables are set and whose list of files is not empty is
    the loop over them, after the line that counts them. *)
Lemma run_is_the_loop argv s0 s1 f rest :
  truthy (getenv penv "WEBFLOW_TOKEN") = true →
  truthy (getenv penv "WEBFLOW_COLLECTION_ID") = true →
  (if bool_decide ("--all" ∈ argv)
   then getAllMarkdown P else getChangedMarkdown P h penv) s0
  = (inr (f :: rest), s1) →
  run P h penv argv s0
  = process_all P h penv (f :: rest) (bool_decide ("--dry-run" ∈ argv))
      (MkSt (world s1)
            (trace s1 ++ [EvConsole (LFound (length (f :: rest)))])
            (exitCode s1)).
Proof.
  intros Htoken Hcollection Hfiles.
  unfold run, main, requireEnv, log, emit, try_catch, bind, throw, ret, fail.
  rewrite Htoken, Hcollection. cbn [negb].
  rewrite Hfiles. cbn [length bool_decide].
  rewrite bool_decide_eq_false_2 by done.
  match goal with
  | |- context [process_all P h penv ?fs ?d ?s] =>
      pose proof (process_all_returns P h penv fs d s) as Hret;
      destruct (process_all P h penv fs d s) as [[e|[]] s2]
  end; [done|reflexivity].
Qed.

(** Files that cannot be read are failed one after the other, and nothing
    else happens. *)
Lemma process_all_unreadable (err : string → JSError) files dryRun s :
  (∀ f, f ∈ files → readFileSync P (world s) f = inl (err f)) →
  process_all P h penv files dryRun s
  = (inr tt,
     MkSt (world s)
          (trace s
           ++ map (λ f, EvConsole (EFail ("Failed processing " +:+ f)
                                         (Some (err f)))) files)
          (if bool_decide (files = []) then exitCode s else 1)).
Proof.
  revert s. induction files as [|f files IH]; intros s Hread.
  - cbn. rewrite app_nil_r. by destruct s.
  - cbn [process_all map]. unfold bind at 1.
    assert (Hone : attempt P h penv f dryRun s
                   = (inr tt,
                      MkSt (world s)
                           (trace s ++ [EvConsole
                                          (EFail ("Failed processing " +:+ f)
                                                 (Some (err f)))])
                           1)).
    { unfold attempt, processFile, get_world, lift, try_catch, bind, ret, throw,
        fail.
      rewrite (Hread f) by left. reflexivity. }
    rewrite Hone, IH.
    + cbn [world trace exitCode]. rewrite <- app_assoc. cbn [app].
      rewrite (bool_decide_eq_false_2 (f :: files = [])) by done.
      by destruct (bool_decide (files = [])).
    + intros f' Hin. cbn [world]. apply Hread. by right.
Qed.

(** The default mode of [main], once the variables are there: the files
    are those of [getChangedMarkdown]. *)
Lemma main_default argv s :
  truthy (getenv penv "WEBFLOW_TOKEN") = true →
  truthy (getenv penv "WEBFLOW_COLLECTION_ID") = true →
  "--all" ∉ argv →
  main P h penv argv s
  = match getChangedMarkdown P h penv s with
    | (inl e, s1) => (inl e, s1)
    | (inr files, s1) =>
        if bool_decide (length files = 0%nat)
        then (inr tt,
              MkSt (world s1) (trace s1 ++ [EvConsole (LNoFiles false)])
                   (exitCode s1))
        else process_all P h penv files (bool_decide ("--dry-run" ∈ argv))
               (MkSt (world s1)
                     (trace s1 ++ [EvConsole (LFound (length files))])
                     (exitCode s1))
    end.
Proof.
  intros Htoken Hcollection Hdefault.
  unfold main, requireEnv, log, emit, try_catch, bind, throw, ret, fail.
  rewrite Htoken, Hcollection. cbn [negb].
  rewrite (bool_decide_eq_false_2 _ Hdefault).
  destruct (getChangedMarkdown P h penv s) as [[e|files] s1]; [done|].
  by destruct (bool_decide (length files = 0%nat)).
Qed.

Lemma getChangedMarkdown_diff s diff :
  git_diff P (git_fetch P (ToString h (js_or (BRANCH penv) (JStr "HEAD")))
                (world s)) = inr diff →
  getChangedMarkdown P h penv s
  = (inr (diff_lines diff),
     MkSt (git_fetch P (ToString h (js_or (BRANCH penv) (JStr "HEAD"))) (world s))
          (trace s) (exitCode s)).
Proof.
  intros Hdiff.
  unfold getChangedMarkdown, get_world, lift, try_catch, bind, ret, throw.
  cbn [world]. by rewrite Hdiff.
Qed.

Lemma getChangedMarkdown_no_diff_no_dir s e :
  git_diff P (git_fetch P (ToString h (js_or (BRANCH penv) (JStr "HEAD")))
                (world s)) = inl e →
  posts_dir P (git_fetch P (ToString h (js_or (BRANCH penv) (JStr "HEAD")))
                 (world s)) = None →
  getChangedMarkdown P h penv s
  = (inr [],
     MkSt (git_fetch P (ToString h (js_or (BRANCH penv) (JStr "HEAD"))) (world s))
          (trace s ++ [EvConsole (WDiffFailed (err_message e))])
          (exitCode s)).
Proof.
  intros Hdiff Hmissing.
  unfold getChangedMarkdown, getAllMarkdown, warn, emit, get_world, lift,
    try_catch, bind, ret, throw.
  cbn [world]. rewrite Hdiff. cbn [world]. by rewrite Hmissing.
Qed.

End RunFacts.

(** * The claims *)

(** C1. Reconciliation of a mapped record is decided by its identifier
    alone.  For a record that is mapped (not opted out, titled, payload
    built) and not a dry run: when [post_id] is absent (falsy, as the
    script tests it) the record has no [post-id] field and the script
    sends exactly one create ([PostItem]) and no other store request; when
    it is present the record carries it and the script sends exactly one
    update ([PatchItem]) of that item.
    No request looks a record up by its slug: for two distinct documents
    without identifier whose slugs collide, upserting both sends two
    creates. *)
Theorem C1_reconcile_by_identifier {World : Type} (P : Platform World)
    (h : Host) (penv : gmap string string) :
  (∀ fm html filePath s slug p,
     pushFlag fm = true →
     truthy (prop fm "title") = true →
     buildPayload h penv (clock P (world s)) fm html = inr (slug, p) →
     let s' := snd (upsertWebflowItem P h penv fm html filePath false s) in
     (truthy (prop fm "post_id") = false →
      fieldData p !! f_postId FIELD_IDS = None
      ∧ webflow_calls (trace s')
        = webflow_calls (trace s)
          ++ [PostItem (ToString h (WEBFLOW_TOKEN penv))
                       (ToString h (COLLECTION_ID penv)) p])
     ∧ (truthy (prop fm "post_id") = true →
        fieldData p !! f_postId FIELD_IDS
        = Some (JStr (ToString h (prop fm "post_id")))
        ∧ webflow_calls (trace s')
          = webflow_calls (trace s)
            ++ [PatchItem (ToString h (WEBFLOW_TOKEN penv))
                          (ToString h (COLLECTION_ID penv))
                          (ToString h (prop fm "post_id")) p]))
  ∧ (∀ fm1 html1 path1 fm2 html2 path2 s slug1 p1 slug2 p2,
       fm1 ≠ fm2 →
       pushFlag fm1 = true → truthy (prop fm1 "title") = true →
       truthy (prop fm1 "post_id") = false →
       pushFlag fm2 = true → truthy (prop fm2 "title") = true →
       truthy (prop fm2 "post_id") = false →
       let s1 := snd (upsertWebflowItem P h penv fm1 html1 path1 false s) in
       let s2 := snd (upsertWebflowItem P h penv fm2 html2 path2 false s1) in
       buildPayload h penv (clock P (world s)) fm1 html1 = inr (slug1, p1) →
       buildPayload h penv (clock P (world s1)) fm2 html2 = inr (slug2, p2) →
       slug1 = slug2 →
       webflow_calls (trace s2)
       = webflow_calls (trace s)
         ++ [PostItem (ToString h (WEBFLOW_TOKEN penv))
                      (ToString h (COLLECTION_ID penv)) p1;
             PostItem (ToString h (WEBFLOW_TOKEN penv))
                      (ToString h (COLLECTION_ID penv)) p2]).
Proof.
  assert (Hone : ∀ fm html filePath s slug p,
     pushFlag fm = true →
     truthy (prop fm "title") = true →
     buildPayload h penv (clock P (world s)) fm html = inr (slug, p) →
     fieldData p !! f_postId FIELD_IDS
     = (if truthy (prop fm "post_id")
        then Some (JStr (ToString h (prop fm "post_id"))) else None)
     ∧ webflow_calls
         (trace (snd (upsertWebflowItem P h penv fm html filePath false s)))
       = webflow_calls (trace s)
         ++ [store_call h (ToString h (WEBFLOW_TOKEN penv))
                        (ToString h (COLLECTION_ID penv)) p]).
  { intros fm html filePath s slug p Hpush Htitle Hmap.
    destruct (buildPayload_fields _ _ _ _ _ _ _ Hmap) as (_ & _ & Hid & _).
    split; [exact Hid|].
    destruct (upsert_store P h penv fm html filePath s slug p)
      as (evs & Htr & Hcalls); [done..|].
    rewrite Htr.
    change (EvFetch ?r :: evs) with ([EvFetch r] ++ evs).
    by rewrite !webflow_calls_app, Hcalls, app_nil_r, webflow_calls_store_call. }
  split.
  - intros fm html filePath s slug p Hpush Htitle Hmap s'.
    destruct (Hone fm html filePath s slug p) as [Hid Hcalls]; [done..|].
    fold s' in Hcalls. unfold store_call in Hcalls. rewrite Hid in Hcalls.
    split; intros Hpid; rewrite Hpid in *; done.
  - intros fm1 html1 path1 fm2 html2 path2 s slug1 p1 slug2 p2 _
      Hpush1 Htitle1 Hid1 Hpush2 Htitle2 Hid2 s1 s2 Hmap1 Hmap2 _.
    destruct (Hone fm1 html1 path1 s slug1 p1) as [Hf1 Hc1]; [done..|].
    destruct (Hone fm2 html2 path2 s1 slug2 p2) as [Hf2 Hc2]; [done..|].
    fold s1 in Hc1. fold s1 s2 in Hc2.
    unfold store_call in Hc1, Hc2.
    rewrite Hid1 in Hf1. rewrite Hid2 in Hf2. rewrite Hf1 in Hc1.
    rewrite Hf2 in Hc2.
    rewrite Hc2, Hc1. by rewrite <- app_assoc.
Qed.

(** The two hello documents against the accepting store: their slugs are
    both [hello-world], two creates go out, and the store ends with two
    items. *)
Lemma C1_reconcile_by_identifier_witness :
  let P := Fixture.platform Fixture.accepting 0 [] (inr EmptyString) None in
  let s1 := snd (upsertWebflowItem P Fixture.host Fixture.penv Fixture.doc_hello1
                   "<p>one</p>" "posts/a.md" false (Fixture.start [])) in
  let s2 := snd (upsertWebflowItem P Fixture.host Fixture.penv Fixture.doc_hello2
                   "<p>two</p>" "posts/b.md" false s1) in
  ∃ p1 p2,
    fieldData p1 !! "slug" = Some (JStr "hello-world")
    ∧ fieldData p2 !! "slug" = Some (JStr "hello-world")
    ∧ webflow_calls (trace s2)
      = [PostItem "secret" "col1" p1; PostItem "secret" "col1" p2]
    ∧ length (world s2) = 2%nat.
Proof.
  intros P s1 s2. eexists _, _.
  split; [|split; [|split]]; cycle 2.
  - refine (proj2 (C1_reconcile_by_identifier P Fixture.host Fixture.penv)
              Fixture.doc_hello1 "<p>one</p>" "posts/a.md"
              Fixture.doc_hello2 "<p>two</p>" "posts/b.md"
              (Fixture.start []) "hello-world" _ "hello-world" _
              _ _ _ _ _ _ _ _ _ _).
    + intros Heq. apply (f_equal (λ m, m !! "title")) in Heq.
      vm_compute in Heq. discriminate.
    + reflexivity.
    + reflexivity.
    + reflexivity.
    + reflexivity.
    + reflexivity.
    + reflexivity.
    + vm_compute. reflexivity.
    + vm_compute. reflexivity.
    + reflexivity.
  - vm_compute. reflexivity.
  - vm_compute. reflexivity.
  - vm_compute. reflexivity.
Defined.

(** C2 (as the code has it). A refused store call is not retried: whatever
    the status outside 200-299 (429 and 5xx included), the one call that
    was sent is the only one, and the failure is thrown at once as an
    [Error] whose message keeps the status and the response text.  The run
    records it as the failure of that document: when the file at hand is
    read to this document, the loop of [main] catches the error, prints
    the failure line with the file name and the error right after the one
    request, sets the exit code to 1 and goes on with the files that are
    left; the whole run returns with exit code 1 and with that record in
    its trace. *)
Theorem C2_store_failure_surfaces_at_once {World : Type} (P : Platform World)
    (h : Host) (penv : gmap string string)
    fm html filePath s slug p status text json w' :
  pushFlag fm = true →
  truthy (prop fm "title") = true →
  buildPayload h penv (clock P (world s)) fm html = inr (slug, p) →
  fetch_step P (store_call h (ToString h (WEBFLOW_TOKEN penv))
                           (ToString h (COLLECTION_ID penv)) p) (world s)
    = (Response status text json, w') →
  res_ok status = false →
  let call := store_call h (ToString h (WEBFLOW_TOKEN penv))
                         (ToString h (COLLECTION_ID penv)) p in
  let err := Error ((if truthy (prop fm "post_id")
                     then "Webflow update failed ("
                     else "Webflow create failed (")
                    +:+ pretty status +:+ "): " +:+ text) in
  let r := upsertWebflowItem P h penv fm html filePath false s in
  let failed :=
    MkSt w'
         (trace s ++ [EvFetch call;
                      EvConsole (EFail ("Failed processing " +:+ filePath)
                                       (Some err))])
         1 in
  fst r = inl err
  ∧ world (snd r) = w'
  ∧ trace (snd r) = trace s ++ [EvFetch call]
  ∧ length (webflow_calls (trace (snd r)))
    = S (length (webflow_calls (trace s)))
  ∧ ∀ src data content,
      readFileSync P (world s) filePath = inr src →
      matter P src = inr (data, content) →
      normalize_booleans data = fm →
      mdToHtml P (rewriteImageLinksInMarkdown P (world s) content
                    (dirname P filePath)) = inr html →
      attempt P h penv filePath false s = (inr tt, failed)
      ∧ (∀ rest,
           let loop := process_all P h penv (filePath :: rest) false s in
           loop = process_all P h penv rest false failed
           ∧ fst loop = inr tt
           ∧ exitCode (snd loop) = 1
           ∧ ∃ evs, trace (snd loop) = trace failed ++ evs)
      ∧ (∀ argv s0 s1 rest,
           "--dry-run" ∉ argv →
           truthy (getenv penv "WEBFLOW_TOKEN") = true →
           truthy (getenv penv "WEBFLOW_COLLECTION_ID") = true →
           (if bool_decide ("--all" ∈ argv)
            then getAllMarkdown P else getChangedMarkdown P h penv) s0
           = (inr (filePath :: rest), s1) →
           s = MkSt (world s1)
                    (trace s1 ++ [EvConsole (LFound (length (filePath :: rest)))])
                    (exitCode s1) →
           let whole := run P h penv argv s0 in
           whole = process_all P h penv rest false failed
           ∧ fst whole = inr tt
           ∧ exitCode (snd whole) = 1
           ∧ ∃ evs, trace (snd whole) = trace failed ++ evs).
Proof.
  intros Hpush Htitle Hmap Hfetch Hrefused call err r failed.
  assert (Hupsert : r = (inl err, MkSt w' (trace s ++ [EvFetch call]) (exitCode s))).
  { subst r call err.
    by rewrite (upsert_refused P h penv fm html filePath s slug p status text
                  json w'). }
  rewrite Hupsert. cbn [fst snd world trace].
  split; [done|]. split; [done|]. split; [done|]. split.
  { subst call. rewrite webflow_calls_app, webflow_calls_store_call, length_app.
    cbn. lia. }
  intros src data content Hread Hparse Hfm Hrender.
  assert (Hattempt : attempt P h penv filePath false s = (inr tt, failed)).
  { unfold attempt, processFile, get_world, lift, try_catch, bind, ret, throw,
      fail.
    rewrite Hread, Hparse, Hfm, Hrender. fold r. rewrite Hupsert.
    cbn [world trace]. subst failed. by rewrite <- app_assoc. }
  assert (Hloop : ∀ rest,
            process_all P h penv (filePath :: rest) false s
            = process_all P h penv rest false failed).
  { intros rest. cbn [process_all]. unfold bind at 1. by rewrite Hattempt. }
  split; [exact Hattempt|]. split.
  - intros rest. rewrite Hloop.
    split; [done|]. split; [apply process_all_returns|].
    by apply process_all_after_failure.
  - intros argv s0 s1 rest Hwet Htoken Hcollection Hfiles Hs.
    rewrite (run_is_the_loop P h penv argv s0 s1 filePath rest)
      by done.
    rewrite (bool_decide_eq_false_2 _ Hwet), <- Hs, Hloop.
    split; [done|]. split; [apply process_all_returns|].
    by apply process_all_after_failure.
Qed.

(** A rate-limited create, the first of two files of a run over the whole
    corpus: one call, then the failure, recorded with the file. *)
Lemma C2_store_failure_surfaces_at_once_witness :
  let P := Fixture.platform (Fixture.refusing 429 "rate limited") 0
             Fixture.corpus (inl (Error "bad revision")) Fixture.tree in
  let s := MkSt [] [EvConsole (LFound 2)] 0 in
  let r := upsertWebflowItem P Fixture.host Fixture.penv Fixture.doc_hello1
             "<p>one</p>" "posts/a.md" false s in
  let err := Error "Webflow create failed (429): rate limited" in
  fst r = inl err
  ∧ length (webflow_calls (trace (snd r))) = 1%nat
  ∧ attempt P Fixture.host Fixture.penv "posts/a.md" false s
    = (inr tt,
       MkSt []
            [EvConsole (LFound 2);
             EvFetch (PostItem "secret" "col1"
                        (Fixture.payload_of Fixture.doc_hello1 "<p>one</p>"));
             EvConsole (EFail "Failed processing posts/a.md" (Some err))]
            1)
  ∧ exitCode (snd (run P Fixture.host Fixture.penv ["--all"] (Fixture.start [])))
    = 1.
Proof.
  intros P s r err.
  destruct (C2_store_failure_surfaces_at_once P Fixture.host Fixture.penv
              Fixture.doc_hello1 "<p>one</p>" "posts/a.md" s
              "hello-world"
              (Fixture.payload_of Fixture.doc_hello1 "<p>one</p>")
              429 "rate limited" Fixture.no_json [])
    as (Hres & _ & _ & Hlen & Hrun).
  - reflexivity.
  - reflexivity.
  - vm_compute. reflexivity.
  - reflexivity.
  - reflexivity.
  - destruct (Hrun "posts/a.md" Fixture.doc_hello1 "one")
      as (Hattempt & _ & Hwhole).
    + reflexivity.
    + reflexivity.
    + vm_compute. reflexivity.
    + reflexivity.
    + destruct (Hwhole ["--all"] (Fixture.start []) (Fixture.start [])
                  ["posts/b.md"]) as (_ & _ & Hexit & _).
      * intros Hin. apply list_elem_of_In in Hin. cbn in Hin.
        destruct Hin as [Hin|[]]. discriminate Hin.
      * reflexivity.
      * reflexivity.
      * vm_compute. reflexivity.
      * reflexivity.
      * split; [exact Hres|]. split; [exact Hlen|].
        split; [exact Hattempt|exact Hexit].
Defined.

(** C2, as stated, fails: a store answering 429 sees a single attempt, and
    the failure surfaces after it. *)
Lemma C2_no_retry_counterexample :
  let P := Fixture.platform (Fixture.refusing 429 "rate limited") 0 []
             (inr EmptyString) None in
  let r := upsertWebflowItem P Fixture.host Fixture.penv Fixture.doc_hello1
             "<p>one</p>" "posts/a.md" false (Fixture.start []) in
  ¬ (1 < length (requests (trace (snd r))))%nat
  ∧ fst r = inl (Error "Webflow create failed (429): rate limited").
Proof. vm_compute. split; [lia|reflexivity]. Qed.

(** C3 (as the code has it). When the update of a record carrying a
    [post_id] is answered 404, the upsert fails with the generic [Error]
    of a refused update, whose message carries the status 404 and the
    response text; the update is the only store call, and no create
    follows it. *)
Theorem C3_stale_identifier_fails_without_create {World : Type}
    (P : Platform World) (h : Host) (penv : gmap string string)
    fm html filePath s slug p text json w' :
  pushFlag fm = true →
  truthy (prop fm "title") = true →
  truthy (prop fm "post_id") = true →
  buildPayload h penv (clock P (world s)) fm html = inr (slug, p) →
  fetch_step P (PatchItem (ToString h (WEBFLOW_TOKEN penv))
                          (ToString h (COLLECTION_ID penv))
                          (ToString h (prop fm "post_id")) p) (world s)
    = (Response 404 text json, w') →
  let r := upsertWebflowItem P h penv fm html filePath false s in
  fst r = inl (MkError "Error" ("Webflow update failed (404): " +:+ text))
  ∧ webflow_calls (trace (snd r))
    = webflow_calls (trace s)
      ++ [PatchItem (ToString h (WEBFLOW_TOKEN penv))
                    (ToString h (COLLECTION_ID penv))
                    (ToString h (prop fm "post_id")) p]
  ∧ world (snd r) = w'.
Proof.
  intros Hpush Htitle Hid Hmap Hfetch r. subst r.
  destruct (buildPayload_fields _ _ _ _ _ _ _ Hmap) as (_ & _ & Hfield & _).
  rewrite Hid in Hfield.
  assert (Hcall : store_call h (ToString h (WEBFLOW_TOKEN penv))
                    (ToString h (COLLECTION_ID penv)) p
                  = PatchItem (ToString h (WEBFLOW_TOKEN penv))
                      (ToString h (COLLECTION_ID penv))
                      (ToString h (prop fm "post_id")) p).
  { unfold store_call. by rewrite Hfield. }
  rewrite (upsert_refused P h penv fm html filePath s slug p 404 text json w')
    by (try rewrite Hcall; done).
  rewrite Hid, Hcall. cbn [fst snd world trace]. repeat split.
  by rewrite webflow_calls_app.
Qed.

(** The bound document against a store that does not have [abc123]. *)
Lemma C3_stale_identifier_fails_without_create_witness :
  let P := Fixture.platform Fixture.accepting 0 [] (inr EmptyString) None in
  let r := upsertWebflowItem P Fixture.host Fixture.penv Fixture.doc_bound
             "<p>b</p>" "posts/c.md" false (Fixture.start []) in
  fst r = inl (MkError "Error" "Webflow update failed (404): not found")
  ∧ world (snd r) = [].
Proof.
  intros P r.
  destruct (C3_stale_identifier_fails_without_create P Fixture.host Fixture.penv
              Fixture.doc_bound "<p>b</p>" "posts/c.md" (Fixture.start [])
              "bound"
              (match buildPayload Fixture.host Fixture.penv 0 Fixture.doc_bound
                       "<p>b</p>" with
               | inr (_, p) => p
               | inl _ => MkPayload false false ∅
               end)
              "not found" Fixture.no_json [])
    as (Hres & _ & Hworld).
  - reflexivity.
  - reflexivity.
  - reflexivity.
  - vm_compute. reflexivity.
  - reflexivity.
  - split; [exact Hres|exact Hworld].
Defined.

(** C3, as stated, fails: the error of the stale update is of the same
    kind, [Error], as that of any other refused update (here a 500), and
    not of a kind [StaleIdentifier]. *)
Lemma C3_no_stale_kind_counterexample :
  let run_with respond :=
    fst (upsertWebflowItem
           (Fixture.platform respond 0 [] (inr EmptyString) None)
           Fixture.host Fixture.penv Fixture.doc_bound "<p>b</p>" "posts/c.md"
           false (Fixture.start [])) in
  run_with Fixture.accepting
    = inl (MkError "Error" "Webflow update failed (404): not found")
  ∧ run_with (Fixture.refusing 500 "oops")
    = inl (MkError "Error" "Webflow update failed (500): oops")
  ∧ ¬ (∃ msg, run_with Fixture.accepting = inl (MkError "StaleIdentifier" msg)).
Proof.
  vm_compute. repeat split. intros [msg Hmsg]. discriminate.
Qed.

(** C4 (as the code has it). The sync script requires one field, [title]:
    a document that is not opted out and has no title fails with the single
    error naming [title] and the file, before anything is sent; a missing
    [date] is no error there, the publish date being the current time.
    The linter, [validateFile], is the one that reports every missing
    required field ([title], [date], [push_to_webflow]) in one pass, one
    line per field. *)
Theorem C4_required_fields {World : Type} (P : Platform World)
    (h : Host) (penv : gmap string string) :
  (∀ fm html filePath dryRun s,
     pushFlag fm = true →
     truthy (prop fm "title") = false →
     upsertWebflowItem P h penv fm html filePath dryRun s
     = (inl (Error ("Missing required 'title' in " +:+ filePath)), s))
  ∧ (∀ now fm html,
       truthy (prop fm "date") = false →
       ∃ slug p,
         buildPayload h penv now fm html = inr (slug, p)
         ∧ fieldData p !! f_publishDate FIELD_IDS = Some (JStr (iso_of_time now)))
  ∧ (∀ image_exists filePath data f,
       f ∈ Lint.REQUIRED_FIELDS →
       Lint.has data f = false →
       Lint.Fail filePath (Lint.MissingRequired f)
       ∈ fst (Lint.validateFile h image_exists filePath (inr data))).
Proof.
  split; [|split].
  - intros. by apply upsert_untitled.
  - intros now fm html Hdate. unfold buildPayload. rewrite Hdate.
    cbn [toISOString]. eexists _, _. split; [reflexivity|].
    cbn [fieldData FIELD_IDS f_name f_slug f_body f_mainImage f_publishDate
         f_authorText f_externalLink f_isPublished f_pushToWebflow f_postId
         f_excerpt f_seoTitle f_seoDescription f_tags].
    rewrite !lookup_set_if_ne by done. by rewrite lookup_set_if_eq.
  - intros image_exists filePath data f Hf Hmissing.
    assert (Hin : Lint.Fail filePath (Lint.MissingRequired f)
                  ∈ omap (λ f, if Lint.has data f then None
                               else Some (Lint.Fail filePath (Lint.MissingRequired f)))
                         Lint.REQUIRED_FIELDS).
    { apply list_elem_of_omap. exists f. by rewrite Hmissing. }
    unfold Lint.validateFile.
    match goal with
    | |- context [match ?d with inl e => _ | inr r => _ end] =>
        destruct d as [e|date_reports]
    end; cbn [fst]; apply elem_of_app; by left.
Qed.

(** A linted document with only an [author]: all three required fields
    are reported. *)
Lemma C4_required_fields_witness :
  let reports :=
    fst (Lint.validateFile Fixture.host (λ _, false) "posts/a.md"
           (inr [("author", JStr "Ann")])) in
  Lint.Fail "posts/a.md" (Lint.MissingRequired "title") ∈ reports
  ∧ Lint.Fail "posts/a.md" (Lint.MissingRequired "date") ∈ reports
  ∧ Lint.Fail "posts/a.md" (Lint.MissingRequired "push_to_webflow") ∈ reports
  ∧ fst (upsertWebflowItem
           (Fixture.platform Fixture.accepting 0 [] (inr EmptyString) None)
           Fixture.host Fixture.penv Fixture.doc_bare "<p>x</p>" "posts/a.md"
           false (Fixture.start []))
    = inl (Error "Missing required 'title' in posts/a.md").
Proof.
  intros reports.
  pose proof (C4_required_fields
                (Fixture.platform Fixture.accepting 0 [] (inr EmptyString) None)
                Fixture.host Fixture.penv) as (Hsync & _ & Hlint).
  split; [|split; [|split]].
  - apply Hlint; [|reflexivity]. unfold Lint.REQUIRED_FIELDS.
    apply list_elem_of_In. cbn. tauto.
  - apply Hlint; [|reflexivity]. unfold Lint.REQUIRED_FIELDS.
    apply list_elem_of_In. cbn. tauto.
  - apply Hlint; [|reflexivity]. unfold Lint.REQUIRED_FIELDS.
    apply list_elem_of_In. cbn. tauto.
  - rewrite Hsync; reflexivity.
Defined.

(** C4, as stated, fails: mapping a document that has neither [title] nor
    [date] fails with an error that names [title] and does not mention
    [date]; and a document missing only its [date] is mapped and sent. *)
Lemma C4_only_title_counterexample :
  let P := Fixture.platform Fixture.accepting 0 [] (inr EmptyString) None in
  let bare := upsertWebflowItem P Fixture.host Fixture.penv Fixture.doc_bare
                "<p>x</p>" "posts/a.md" false (Fixture.start []) in
  let undated := upsertWebflowItem P Fixture.host Fixture.penv
                   Fixture.doc_undated "<p>x</p>" "posts/u.md" false
                   (Fixture.start []) in
  Fixture.doc_bare !! "title" = None
  ∧ Fixture.doc_bare !! "date" = None
  ∧ (∃ e, fst bare = inl e
          ∧ mentions (err_message e) "title" = true
          ∧ mentions (err_message e) "date" = false)
  ∧ Fixture.doc_undated !! "date" = None
  ∧ fst undated = inr (Fixture.item_json "item-0")
  ∧ length (world (snd undated)) = 1%nat.
Proof.
  cbv zeta. split; [reflexivity|]. split; [reflexivity|].
  split; [eexists; vm_compute; repeat split|].
  vm_compute. repeat split.
Qed.

(** C5. A document whose [push_to_webflow] is the boolean [false] is
    skipped before anything is sent: the upsert returns after the one
    [Skipping] line, with the outside world as it was; and processing a
    file whose frontmatter says so sends no request at all and leaves the
    world, the remote store included, unchanged. *)
Theorem C5_opt_out_makes_no_store_call {World : Type} (P : Platform World)
    (h : Host) (penv : gmap string string) :
  (∀ fm html filePath dryRun s,
     prop fm "push_to_webflow" = JBool false →
     upsertWebflowItem P h penv fm html filePath dryRun s
     = (inr JUndefined,
        MkSt (world s) (trace s ++ [EvConsole (LSkipping filePath)])
             (exitCode s)))
  ∧ (∀ filePath dryRun s src data content,
       readFileSync P (world s) filePath = inr src →
       matter P src = inr (data, content) →
       data !! "push_to_webflow" = Some (JBool false) →
       let s' := snd (processFile P h penv filePath dryRun s) in
       world s' = world s ∧ requests (trace s') = requests (trace s)).
Proof.
  split.
  - intros fm html filePath dryRun s Hflag.
    apply upsert_skipped. unfold pushFlag. by rewrite Hflag.
  - intros filePath dryRun s src data content Hread Hparse Hflag s'.
    subst s'. unfold processFile, get_world, lift, bind, ret, throw.
    rewrite Hread, Hparse.
    destruct (mdToHtml P _) as [e|html]; [done|].
    rewrite upsert_skipped.
    + cbn [snd world trace]. split; [done|].
      by rewrite requests_app, app_nil_r.
    + unfold pushFlag. by rewrite prop_normalize_push, Hflag.
Qed.

(** The opted-out document, alone and as a file of a one-file corpus. *)
Lemma C5_opt_out_makes_no_store_call_witness :
  let P := Fixture.platform Fixture.accepting 0
             [("posts/p.md", (Fixture.doc_optout, "secret notes"))]
             (inr EmptyString) None in
  upsertWebflowItem P Fixture.host Fixture.penv Fixture.doc_optout
    "<p>secret notes</p>" "posts/p.md" false (Fixture.start [])
  = (inr JUndefined,
     MkSt [] [EvConsole (LSkipping "posts/p.md")] 0)
  ∧ world (snd (processFile P Fixture.host Fixture.penv "posts/p.md" false
                  (Fixture.start []))) = []
  ∧ requests (trace (snd (processFile P Fixture.host Fixture.penv "posts/p.md"
                            false (Fixture.start [])))) = [].
Proof.
  intros P.
  pose proof (C5_opt_out_makes_no_store_call P Fixture.host Fixture.penv)
    as [Hupsert Hfile].
  split.
  - apply (Hupsert Fixture.doc_optout "<p>secret notes</p>" "posts/p.md" false
             (Fixture.start [])).
    reflexivity.
  - apply (Hfile "posts/p.md" false (Fixture.start []) "posts/p.md"
             Fixture.doc_optout "secret notes"); reflexivity.
Defined.

(** C6 (as the code has it). The loop catches every error of a document,
    whatever its class, an authorisation failure of the store included: the
    error is printed with the file, the exit code becomes 1, and the loop
    goes on, so the document at every position is attempted in the state
    its predecessors left.  Nothing a document does ends the run; the run
    stops before its first document, with exit code 1, when
    [WEBFLOW_TOKEN] or [WEBFLOW_COLLECTION_ID] is missing.  With [--all], a
    posts directory that does not exist is no error: the run reports that
    there are no markdown files and leaves the exit code alone.  In the
    default mode the directory is looked at only when [git diff] fails:
    then, with the directory missing, and also when the diff names no
    file, the run ends with the line about no changed files and the exit
    code as it was.  When the diff names files, the run attempts exactly
    these, directory or not, and each one that cannot be read is a
    failure of that document, so that the run ends with exit code 1. *)
Theorem C6_errors_do_not_halt_the_run {World : Type} (P : Platform World)
    (h : Host) (penv : gmap string string) :
  (∀ f dryRun s e s1,
     processFile P h penv f dryRun s = (inl e, s1) →
     attempt P h penv f dryRun s
     = (inr tt,
        MkSt (world s1)
             (trace s1 ++ [EvConsole (EFail ("Failed processing " +:+ f) (Some e))])
             1))
  ∧ (∀ before f after dryRun s,
       process_all P h penv (before ++ f :: after) dryRun s
       = process_all P h penv after dryRun
           (snd (attempt P h penv f dryRun
                   (snd (process_all P h penv before dryRun s))))
       ∧ fst (process_all P h penv (before ++ f :: after) dryRun s) = inr tt)
  ∧ (∀ argv s,
       truthy (getenv penv "WEBFLOW_TOKEN") = false →
       main P h penv argv s
       = (inr tt,
          MkSt (world s)
               (trace s ++ [EvConsole
                              (EFail "Missing required env: WEBFLOW_TOKEN" None)])
               1))
  ∧ (∀ argv s,
       truthy (getenv penv "WEBFLOW_TOKEN") = true →
       truthy (getenv penv "WEBFLOW_COLLECTION_ID") = false →
       main P h penv argv s
       = (inr tt,
          MkSt (world s)
               (trace s ++ [EvConsole
                              (EFail "Missing required env: WEBFLOW_COLLECTION_ID"
                                     None)])
               1))
  ∧ (∀ argv s,
       truthy (getenv penv "WEBFLOW_TOKEN") = true →
       truthy (getenv penv "WEBFLOW_COLLECTION_ID") = true →
       "--all" ∈ argv →
       posts_dir P (world s) = None →
       main P h penv argv s
       = (inr tt,
          MkSt (world s) (trace s ++ [EvConsole (LNoFiles true)]) (exitCode s)))
  ∧ (∀ argv s,
       truthy (getenv penv "WEBFLOW_TOKEN") = true →
       truthy (getenv penv "WEBFLOW_COLLECTION_ID") = true →
       "--all" ∉ argv →
       let fetched := git_fetch P (ToString h (js_or (BRANCH penv) (JStr "HEAD")))
                                (world s) in
       (∀ e,
          git_diff P fetched = inl e →
          posts_dir P fetched = None →
          main P h penv argv s
          = (inr tt,
             MkSt fetched
                  (trace s ++ [EvConsole (WDiffFailed (err_message e));
                               EvConsole (LNoFiles false)])
                  (exitCode s)))
       ∧ (∀ diff,
            git_diff P fetched = inr diff →
            diff_lines diff = [] →
            main P h penv argv s
            = (inr tt,
               MkSt fetched (trace s ++ [EvConsole (LNoFiles false)])
                    (exitCode s)))
       ∧ (∀ diff f rest,
            git_diff P fetched = inr diff →
            diff_lines diff = f :: rest →
            let found := MkSt fetched
                              (trace s ++ [EvConsole (LFound (S (length rest)))])
                              (exitCode s) in
            main P h penv argv s
            = process_all P h penv (f :: rest)
                (bool_decide ("--dry-run" ∈ argv)) found
            ∧ ∀ err : string → JSError,
                (∀ f', f' ∈ f :: rest →
                       readFileSync P fetched f' = inl (err f')) →
                main P h penv argv s
                = (inr tt,
                   MkSt fetched
                        (trace found
                         ++ map (λ f', EvConsole
                                         (EFail ("Failed processing " +:+ f')
                                                (Some (err f'))))
                                (f :: rest))
                        1))).
Proof.
  split; [|split; [|split; [|split; [|split]]]].
  - intros f dryRun s e s1 Hfile. unfold attempt, try_catch. by rewrite Hfile.
  - intros before f after dryRun s. split; [|apply process_all_returns].
    rewrite process_all_app. cbn [process_all]. unfold bind at 1.
    pose proof (attempt_returns P h penv f dryRun
                  (snd (process_all P h penv before dryRun s))) as Hret.
    by destruct (attempt P h penv f dryRun _) as [[e|[]] s1].
  - intros argv s Htoken.
    unfold main, requireEnv, try_catch, bind, throw, ret, fail.
    rewrite Htoken. reflexivity.
  - intros argv s Htoken Hcollection.
    unfold main, requireEnv, try_catch, bind, throw, ret, fail.
    rewrite Htoken, Hcollection. reflexivity.
  - intros argv s Htoken Hcollection Hall Hmissing.
    unfold main, requireEnv, getAllMarkdown, get_world, log, emit, try_catch,
      bind, throw, ret, fail.
    rewrite Htoken, Hcollection. cbn.
    rewrite bool_decide_eq_true_2 by done. by rewrite Hmissing.
  - intros argv s Htoken Hcollection Hdefault fetched.
    rewrite (main_default P h penv argv s Htoken Hcollection Hdefault).
    split; [|split].
    + intros e Hdiff Hmissing.
      rewrite (getChangedMarkdown_no_diff_no_dir P h penv s e Hdiff Hmissing).
      cbn [length world trace exitCode]. rewrite bool_decide_eq_true_2 by done.
      by rewrite <- app_assoc.
    + intros diff Hdiff Hlines.
      rewrite (getChangedMarkdown_diff P h penv s diff Hdiff), Hlines.
      cbn [length world trace exitCode]. by rewrite bool_decide_eq_true_2.
    + intros diff f rest Hdiff Hlines found.
      rewrite (getChangedMarkdown_diff P h penv s diff Hdiff), Hlines.
      cbn [length world trace exitCode].
      rewrite bool_decide_eq_false_2 by done.
      split; [done|]. intros err Hread.
      rewrite (process_all_unreadable P h penv err); [|exact Hread].
      by rewrite bool_decide_eq_false_2.
Qed.

(** Two documents against a store that answers 401: the first fails, the
    second is attempted all the same.  And a checkout without posts
    directory: no error with [--all], one failed document in the default
    mode when the diff names a file that is gone. *)
Lemma C6_errors_do_not_halt_the_run_witness :
  let P := Fixture.platform (Fixture.refusing 401 "unauthorized") 0
             Fixture.corpus (inl (Error "bad revision")) Fixture.tree in
  let gone := Fixture.platform Fixture.accepting 0 [] (inr "posts/gone.md") None in
  let s1 := snd (attempt P Fixture.host Fixture.penv "posts/a.md" false
                   (Fixture.start [])) in
  exitCode s1 = 1
  ∧ process_all P Fixture.host Fixture.penv ["posts/a.md"; "posts/b.md"] false
      (Fixture.start [])
    = process_all P Fixture.host Fixture.penv [] false
        (snd (attempt P Fixture.host Fixture.penv "posts/b.md" false s1))
  ∧ main P Fixture.host ∅ [] (Fixture.start [])
    = (inr tt,
       MkSt [] [EvConsole (EFail "Missing required env: WEBFLOW_TOKEN" None)] 1)
  ∧ main gone Fixture.host Fixture.penv ["--all"] (Fixture.start [])
    = (inr tt, MkSt [] [EvConsole (LNoFiles true)] 0)
  ∧ main gone Fixture.host Fixture.penv [] (Fixture.start [])
    = (inr tt,
       MkSt []
            [EvConsole (LFound 1);
             EvConsole
               (EFail "Failed processing posts/gone.md"
                  (Some (Error "ENOENT: no such file or directory, open posts/gone.md")))]
            1).
Proof.
  intros P gone s1.
  pose proof (C6_errors_do_not_halt_the_run P Fixture.host Fixture.penv)
    as (Hfail & Hloop & _).
  pose proof (C6_errors_do_not_halt_the_run P Fixture.host ∅)
    as (_ & _ & Henv & _).
  pose proof (C6_errors_do_not_halt_the_run gone Fixture.host Fixture.penv)
    as (_ & _ & _ & _ & Hall & Hdefault).
  split; [|split; [|split; [|split]]].
  - subst s1.
    erewrite (Hfail "posts/a.md" false (Fixture.start []));
      [reflexivity|vm_compute; reflexivity].
  - apply (Hloop ["posts/a.md"] "posts/b.md" [] false (Fixture.start [])).
  - apply (Henv [] (Fixture.start [])). reflexivity.
  - apply (Hall ["--all"] (Fixture.start [])); [reflexivity|reflexivity| |reflexivity].
    apply list_elem_of_In. cbn. tauto.
  - destruct (Hdefault [] (Fixture.start [])) as (_ & _ & Hfiles);
      [reflexivity|reflexivity| |].
    + intros Hin. apply list_elem_of_In in Hin. destruct Hin.
    + destruct (Hfiles "posts/gone.md" "posts/gone.md" [])
        as (_ & Hunreadable); [reflexivity|vm_compute; reflexivity|].
      apply (Hunreadable
               (λ f, Error ("ENOENT: no such file or directory, open " +:+ f))).
      intros f' Hin. apply list_elem_of_singleton in Hin. subst f'.
      reflexivity.
Defined.

(** C6, as stated, fails: with a store that answers 401 to everything, the
    run does not stop at the first document; both documents are sent, and
    both failures are printed. *)
Lemma C6_auth_error_not_fatal_counterexample :
  let P := Fixture.platform (Fixture.refusing 401 "unauthorized") 0
             Fixture.corpus (inl (Error "bad revision")) Fixture.tree in
  let r := run P Fixture.host Fixture.penv ["--all"] (Fixture.start []) in
  length (webflow_calls (trace (snd r))) = 2%nat
  ∧ omap (λ ev, match ev with
                | EvConsole (EFail msg (Some e)) => Some (msg, err_message e)
                | _ => None
                end) (trace (snd r))
    = [("Failed processing posts/a.md", "Webflow create failed (401): unauthorized");
       ("Failed processing posts/b.md", "Webflow create failed (401): unauthorized")].
Proof. vm_compute. split; reflexivity. Qed.

(** C7 (as the code has it). A string value of [published] or
    [push_to_webflow] becomes [true] exactly when it is [true], [yes] or
    [1] in any letter case, and [false] otherwise.  A value that is not a
    string is not normalised: [published] is then read by truthiness (an
    absent field, [null] and 0 are false; a non-zero number or a list is
    true), and [push_to_webflow] counts as true unless it is the boolean
    [false], so an absent field or the number 0 means true. *)
Theorem C7_boolean_coercion (data : gmap string JSValue) :
  coerced_published data
  = match data !! "published" with
    | Some (JStr v) => matches_true v
    | Some v => truthy v
    | None => false
    end
  ∧ coerced_push data
    = match data !! "push_to_webflow" with
      | Some (JStr v) => matches_true v
      | Some (JBool b) => b
      | Some _ | None => true
      end
  ∧ matches_true "true" = true ∧ matches_true "TRUE" = true
  ∧ matches_true "1" = true ∧ matches_true "yes" = true
  ∧ matches_true "false" = false ∧ matches_true EmptyString = false
  ∧ matches_true "no" = false.
Proof.
  split; [|split; [|by vm_compute]].
  - unfold coerced_published. rewrite prop_normalize_published.
    by destruct (data !! "published") as [[]|].
  - unfold coerced_push, pushFlag. rewrite prop_normalize_push.
    destruct (data !! "push_to_webflow") as [[| |[]| | | | |]|]; try done.
    by destruct (matches_true s).
Qed.

(** C7, as stated, fails: an absent [push_to_webflow] and the number 0
    both coerce to true, and so does the number 1 for [published]. *)
Lemma C7_not_uniform_counterexample :
  coerced_push ∅ = true
  ∧ coerced_push {[ "push_to_webflow" := JNum 0 ]} = true
  ∧ coerced_published {[ "published" := JNum 1 ]} = true.
Proof. by vm_compute. Qed.

(** C8. When [git diff] fails, as it does with no previous revision to
    compare with, [getChangedMarkdown] gives the files [getAllMarkdown]
    gives for the same corpus: the same list, or the same exception. *)
Theorem C8_delta_falls_back_to_all {World : Type} (P : Platform World)
    (h : Host) (penv : gmap string string) (s : St World) (e : JSError) :
  (∀ branch w, posts_dir P (git_fetch P branch w) = posts_dir P w) →
  git_diff P (git_fetch P (ToString h (js_or (BRANCH penv) (JStr "HEAD")))
                        (world s)) = inl e →
  fst (getChangedMarkdown P h penv s) = fst (getAllMarkdown P s).
Proof.
  intros Hcorpus Hdiff.
  unfold getChangedMarkdown, getAllMarkdown, warn, emit, get_world, lift,
    try_catch, bind, ret, throw.
  cbn. rewrite Hdiff. cbn. rewrite Hcorpus.
  destruct (posts_dir P (world s)) as [listing|]; [|done].
  by destruct (walk POSTS_DIR listing).
Qed.

(** A first run: no previous revision, three files on disk, two of them
    markdown. *)
Lemma C8_delta_falls_back_to_all_witness :
  let P := Fixture.platform Fixture.accepting 0 Fixture.corpus
             (inl (Error "fatal: bad revision HEAD~1")) Fixture.tree in
  fst (getChangedMarkdown P Fixture.host Fixture.penv (Fixture.start []))
  = fst (getAllMarkdown P (Fixture.start []))
  ∧ fst (getAllMarkdown P (Fixture.start []))
    = inr ["posts/a.md"; "posts/b.md"].
Proof.
  intros P. split; [|reflexivity].
  apply (C8_delta_falls_back_to_all P Fixture.host Fixture.penv
           (Fixture.start []) (Error "fatal: bad revision HEAD~1")).
  - reflexivity.
  - reflexivity.
Defined.

(** C9 (as the code has it). Given the host and the environment, the
    mapper is a function of the frontmatter, the rendered body and the
    clock, and it reads the clock only for a document without a [date]:
    a dated document maps to the same record at any two times, and an
    undated one gets the current time as its publish date. *)
Theorem C9_mapper_reads_clock_only_when_undated (h : Host)
    (penv : gmap string string) fm html :
  (truthy (prop fm "date") = true →
   ∀ now1 now2,
     buildPayload h penv now1 fm html = buildPayload h penv now2 fm html)
  ∧ (truthy (prop fm "date") = false →
     ∀ now, ∃ slug p,
       buildPayload h penv now fm html = inr (slug, p)
       ∧ fieldData p !! f_publishDate FIELD_IDS = Some (JStr (iso_of_time now))).
Proof.
  split.
  - intros Hdate now1 now2. unfold buildPayload. by rewrite Hdate.
  - intros Hdate now. unfold buildPayload. rewrite Hdate.
    cbn [toISOString]. eexists _, _. split; [reflexivity|].
    cbn [fieldData FIELD_IDS f_name f_slug f_body f_mainImage f_publishDate
         f_authorText f_externalLink f_isPublished f_pushToWebflow f_postId
         f_excerpt f_seoTitle f_seoDescription f_tags].
    rewrite !lookup_set_if_ne by done. by rewrite lookup_set_if_eq.
Qed.

(** A dated document at two times, and an undated one at the epoch. *)
Lemma C9_mapper_reads_clock_only_when_undated_witness :
  buildPayload Fixture.host Fixture.penv 0 Fixture.doc_hello1 "<p>one</p>"
  = buildPayload Fixture.host Fixture.penv 86400000 Fixture.doc_hello1 "<p>one</p>"
  ∧ ∃ slug p,
      buildPayload Fixture.host Fixture.penv 0 Fixture.doc_undated "<p>x</p>"
      = inr (slug, p)
      ∧ fieldData p !! "publish-date" = Some (JStr "1970-01-01T00:00:00.000Z").
Proof.
  split.
  - apply (proj1 (C9_mapper_reads_clock_only_when_undated Fixture.host
                    Fixture.penv Fixture.doc_hello1 "<p>one</p>")).
    reflexivity.
  - apply (proj2 (C9_mapper_reads_clock_only_when_undated Fixture.host
                    Fixture.penv Fixture.doc_undated "<p>x</p>")).
    reflexivity.
Defined.

(** C9, as stated, fails: the same undated document and the same body,
    mapped one day apart, give two different publish dates. *)
Lemma C9_clock_dependence_counterexample :
  let publish now :=
    match buildPayload Fixture.host Fixture.penv now Fixture.doc_undated
            "<p>x</p>" with
    | inr (_, p) => fieldData p !! "publish-date"
    | inl _ => None
    end in
  publish 0 = Some (JStr "1970-01-01T00:00:00.000Z")
  ∧ publish 86400000 = Some (JStr "1970-01-02T00:00:00.000Z")
  ∧ buildPayload Fixture.host Fixture.penv 0 Fixture.doc_undated "<p>x</p>"
    ≠ buildPayload Fixture.host Fixture.penv 86400000 Fixture.doc_undated
        "<p>x</p>".
Proof.
  cbv zeta. split; [by vm_compute|]. split; [by vm_compute|].
  intros Heq.
  apply (f_equal (λ r, match r with
                       | inr (_, p) => fieldData p !! "publish-date"
                       | inl _ => None
                       end)) in Heq.
  vm_compute in Heq. discriminate.
Qed.

(** C10. Every payload [upsertWebflowItem] sends to the store has
    [isArchived] false and the [push-to-webflow] field true, whatever the
    frontmatter says; and a document that omits [push_to_webflow] (titled,
    with a usable date, not a dry run) is sent, with that field true. *)
Theorem C10_payload_forces_archive_and_push {World : Type} (P : Platform World)
    (h : Host) (penv : gmap string string) :
  (∀ fm html filePath dryRun s,
     ∃ evs,
       trace (snd (upsertWebflowItem P h penv fm html filePath dryRun s))
       = trace s ++ evs
       ∧ Forall forced_fields (webflow_calls evs))
  ∧ (∀ fm html filePath s,
       fm !! "push_to_webflow" = None →
       truthy (prop fm "title") = true →
       date_ok h fm = true →
       ∃ evs call,
         trace (snd (upsertWebflowItem P h penv fm html filePath false s))
         = trace s ++ evs
         ∧ webflow_calls evs = [call]
         ∧ forced_fields call).
Proof.
  assert (Hforced : ∀ now fm html slug p,
            buildPayload h penv now fm html = inr (slug, p) →
            forced_fields (store_call h (ToString h (WEBFLOW_TOKEN penv))
                                      (ToString h (COLLECTION_ID penv)) p)).
  { intros now fm html slug p Hmap.
    destruct (buildPayload_fields _ _ _ _ _ _ _ Hmap) as (Harch & Hpush & _).
    exists p. split; [|done].
    unfold store_call. by destruct (fieldData p !! f_postId FIELD_IDS). }
  split.
  - intros fm html filePath dryRun s.
    destruct (upsert_trace P h penv fm html filePath dryRun s)
      as (evs & Htr & [Hnone|(slug & p & Hmap & Hone)]).
    + exists evs. split; [done|]. rewrite Hnone. constructor.
    + exists evs. split; [done|]. rewrite Hone.
      constructor; [by eapply Hforced|constructor].
  - intros fm html filePath s Habsent Htitle Hdate.
    destruct (buildPayload_ok h penv (clock P (world s)) fm html Hdate)
      as (slug & p & Hmap).
    assert (Hpush : pushFlag fm = true).
    { unfold pushFlag, prop. by rewrite Habsent. }
    destruct (upsert_store P h penv fm html filePath s slug p)
      as (evs & Htr & Hcalls); [done..|].
    eexists _, _. split; [exact Htr|]. split; [|by eapply Hforced].
    change (EvFetch ?r :: evs) with ([EvFetch r] ++ evs).
    by rewrite webflow_calls_app, Hcalls, app_nil_r, webflow_calls_store_call.
Qed.

(** The undated document, which has no [push_to_webflow], is created. *)
Lemma C10_payload_forces_archive_and_push_witness :
  let P := Fixture.platform Fixture.accepting 0 [] (inr EmptyString) None in
  Fixture.doc_undated !! "push_to_webflow" = None
  ∧ ∃ evs call,
      trace (snd (upsertWebflowItem P Fixture.host Fixture.penv
                    Fixture.doc_undated "<p>x</p>" "posts/u.md" false
                    (Fixture.start [])))
      = [] ++ evs
      ∧ webflow_calls evs = [call]
      ∧ forced_fields call.
Proof.
  intros P. split; [reflexivity|].
  apply (proj2 (C10_payload_forces_archive_and_push P Fixture.host Fixture.penv)
           Fixture.doc_undated "<p>x</p>" "posts/u.md" (Fixture.start []));
    reflexivity.
Defined.

(** * Further properties of the code *)

(** ** Strings *)

Lemma chars_str (l : list ascii) : chars (str l) = l.
Proof. apply list_ascii_of_string_of_list_ascii. Qed.

Lemma str_chars (s : string) : str (chars s) = s.
Proof. apply string_of_list_ascii_of_string. Qed.

Lemma chars_app (a b : string) : chars (a +:+ b) = chars a ++ chars b.
Proof.
  unfold chars. induction a as [|c a IH]; [done|]. simpl. f_equal. exact IH.
Qed.

Lemma length_str (l : list ascii) : String.length (str l) = length l.
Proof.
  unfold str. induction l as [|c l IH]; [done|]. simpl. f_equal. exact IH.
Qed.

Lemma drop_ws_drop_while (l : list ascii) : drop_ws l = drop_while is_ws l.
Proof. induction l as [|c l IH]; [done|]. cbn. by rewrite IH. Qed.

Lemma drop_hyphens_drop_while (l : list ascii) :
  drop_hyphens l = drop_while is_hyphen l.
Proof.
  induction l as [|c l IH]; [done|]. cbn. unfold is_hyphen. by rewrite IH.
Qed.

Lemma trim_chars_trim_by (l : list ascii) : trim_chars l = trim_by is_ws l.
Proof. unfold trim_chars, trim_by. by rewrite !drop_ws_drop_while. Qed.

Section Classes.
Context (P : ascii -> bool).

Lemma drop_while_suffix (l : list ascii) :
  ∃ pre, l = pre ++ drop_while P l.
Proof.
  induction l as [|c l [pre IH]]; [by exists []|]. cbn.
  destruct (P c); [|by exists []].
  exists (c :: pre). cbn. by rewrite <- IH.
Qed.

Lemma drop_while_head (l : list ascii) : head_is P (drop_while P l) = false.
Proof.
  induction l as [|c l IH]; [done|]. cbn.
  destruct (P c) eqn:Hc; [done|]. cbn. done.
Qed.

Lemma drop_while_id (l : list ascii) :
  head_is P l = false → drop_while P l = l.
Proof. destruct l as [|c l]; [done|]. cbn. by intros ->. Qed.

Lemma head_is_app_l (a b : list ascii) :
  a ≠ [] → head_is P (a ++ b) = head_is P a.
Proof. by destruct a. Qed.

(** The head of a non-empty suffix read backwards is the head of the whole
    read backwards. *)
Lemma head_is_rev_suffix (pre l : list ascii) :
  l ≠ [] → head_is P (rev (pre ++ l)) = head_is P (rev l).
Proof.
  intros Hl. rewrite rev_app_distr. apply head_is_app_l.
  intros Hrev. apply Hl. apply (f_equal (@rev ascii)) in Hrev.
  by rewrite rev_involutive in Hrev.
Qed.

Lemma trim_by_segment (l : list ascii) :
  ∃ pre post, l = pre ++ trim_by P l ++ post.
Proof.
  unfold trim_by.
  destruct (drop_while_suffix l) as [pre Hpre].
  destruct (drop_while_suffix (rev (drop_while P l))) as [post Hpost].
  exists pre, (rev post).
  rewrite <- rev_app_distr, <- Hpost, rev_involutive. done.
Qed.

Lemma trim_by_last (l : list ascii) : head_is P (rev (trim_by P l)) = false.
Proof. unfold trim_by. rewrite rev_involutive. apply drop_while_head. Qed.

Lemma trim_by_head (l : list ascii) : head_is P (trim_by P l) = false.
Proof.
  unfold trim_by. set (X := drop_while P l).
  destruct (drop_while_suffix (rev X)) as [pre Hpre].
  destruct (drop_while P (rev X)) as [|c d] eqn:Hd; [done|].
  rewrite <- (head_is_rev_suffix pre) by done.
  rewrite <- Hpre, rev_involutive. apply drop_while_head.
Qed.

Lemma trim_by_id (l : list ascii) :
  head_is P l = false → head_is P (rev l) = false → trim_by P l = l.
Proof.
  intros Hhead Hlast. unfold trim_by.
  rewrite (drop_while_id l) by done.
  rewrite (drop_while_id (rev l)) by done.
  apply rev_involutive.
Qed.

Lemma no_adjacent_app (a b : list ascii) :
  no_adjacent P (a ++ b) = true →
  no_adjacent P a = true ∧ no_adjacent P b = true.
Proof.
  induction a as [|c a IH]; [done|]. cbn.
  intros [Hc Hrest]%andb_prop. destruct (IH Hrest) as [Ha Hb].
  split; [|done]. rewrite Ha, andb_true_r.
  destruct (P c); [|done]. cbn in *.
  destruct a as [|c' a]; [done|]. exact Hc.
Qed.

Lemma no_adjacent_segment (pre l post : list ascii) :
  no_adjacent P (pre ++ l ++ post) = true → no_adjacent P l = true.
Proof.
  intros H. apply no_adjacent_app in H as [_ H].
  by apply no_adjacent_app in H as [H _].
Qed.

(** A class [Q] replaced by one [r]: if [P] lies inside [Q], no two
    [P] neighbours are left, and after a replaced run the text goes on
    outside [P]. *)
Lemma replace_runs_no_adjacent (Q : ascii -> bool) (r : ascii) b l :
  (∀ c, P c = true → Q c = true) →
  no_adjacent P (replace_runs Q r b l) = true
  ∧ (b = true → head_is P (replace_runs Q r b l) = false).
Proof.
  intros HPQ. revert b. induction l as [|c l IH]; intros b; [done|].
  cbn. destruct (Q c) eqn:Hc.
  - destruct b.
    + apply IH.
    + destruct (IH true) as [Hno Hhead]. split; [|done].
      cbn. rewrite Hhead by done. by rewrite andb_false_r.
  - destruct (IH false) as [Hno _]. cbn.
    assert (P c = false) as ->.
    { destruct (P c) eqn:HP; [|done]. apply HPQ in HP. congruence. }
    done.
Qed.

End Classes.

Lemma forallb_segment (f : ascii -> bool) (pre l post : list ascii) :
  forallb f (pre ++ l ++ post) = true → forallb f l = true.
Proof.
  rewrite !forallb_app. intros [_ [H _]%andb_prop]%andb_prop. exact H.
Qed.

Lemma forallb_head_is (f g : ascii -> bool) (l : list ascii) :
  (∀ c, f c = true → g c = false) →
  forallb f l = true → head_is g l = false.
Proof.
  intros Hfg. destruct l as [|c l]; [done|]. cbn.
  intros [Hc _]%andb_prop. by apply Hfg.
Qed.

Lemma forallb_rev (f : ascii -> bool) (l : list ascii) :
  forallb f (rev l) = forallb f l.
Proof.
  induction l as [|c l IH]; [done|]. cbn.
  rewrite forallb_app, IH. cbn. rewrite andb_true_r. apply andb_comm.
Qed.

(** ** [kebab] *)

Lemma slug_char_plain (c : ascii) :
  slug_char c = true →
  is_ws c = false ∧ is_upper c = false ∧ is_kebab_punct c = false.
Proof.
  destruct c as [[] [] [] [] [] [] [] []]; vm_compute;
    (discriminate || (intros _; repeat split)).
Qed.

Lemma replace_runs_slug_chars b l :
  forallb slug_char
    (replace_runs (fun c => negb (is_alnum_lower c)) "-" b l) = true.
Proof.
  revert b. induction l as [|c l IH]; intros b; [done|]. cbn.
  destruct (is_alnum_lower c) eqn:Hc; cbn.
  - unfold slug_char at 1. rewrite Hc. cbn. apply IH.
  - destruct b; [apply IH|]. cbn. apply IH.
Qed.

(** On text that already has the shape, replacing runs changes nothing. *)
Lemma replace_runs_slug_id b l :
  forallb slug_char l = true →
  no_adjacent is_hyphen l = true →
  (b = true → head_is is_hyphen l = false) →
  replace_runs (fun c => negb (is_alnum_lower c)) "-" b l = l.
Proof.
  revert b. induction l as [|c l IH]; intros b Hall Hadj Hhead; [done|].
  cbn in Hall, Hadj. apply andb_prop in Hall as [Hc Hall].
  apply andb_prop in Hadj as [Hcadj Hadj].
  cbn. destruct (is_alnum_lower c) eqn:Halnum; cbn.
  - f_equal. apply IH; [done..|discriminate].
  - unfold slug_char in Hc. rewrite Halnum in Hc. cbn in Hc.
    assert (c = "-"%char) as -> by (by apply Ascii.eqb_eq).
    destruct b.
    + specialize (Hhead eq_refl). cbn in Hhead. discriminate.
    + f_equal. apply IH; [done..|]. intros _.
      cbn in Hcadj. by destruct (head_is is_hyphen l).
Qed.

Lemma kebab_trim_by h v :
  ∃ l, forallb slug_char l = true
       ∧ no_adjacent is_hyphen l = true
       ∧ chars (kebab h v) = trim_by is_hyphen l.
Proof.
  unfold kebab. eexists. split; [apply replace_runs_slug_chars with (b := false)|].
  split.
  - apply (replace_runs_no_adjacent is_hyphen). intros c Hc.
    apply Ascii.eqb_eq in Hc as ->. reflexivity.
  - rewrite chars_str. unfold trim_by. by rewrite !drop_hyphens_drop_while.
Qed.

Lemma kebab_shape h v : is_slug (kebab h v) = true.
Proof.
  destruct (kebab_trim_by h v) as (l & Hall & Hadj & Hchars).
  destruct (trim_by_segment is_hyphen l) as (pre & post & Hseg).
  unfold is_slug. cbv zeta. rewrite Hchars, !andb_true_iff. repeat split.
  - rewrite Hseg in Hall. by apply forallb_segment in Hall.
  - by rewrite trim_by_head.
  - by rewrite trim_by_last.
  - rewrite Hseg in Hadj. by apply no_adjacent_segment in Hadj.
Qed.

Lemma kebab_of_slug h s : is_slug s = true → kebab h (JStr s) = s.
Proof.
  unfold is_slug. cbv zeta. rewrite !andb_true_iff.
  intros [[[Hall Hhead] Hlast] Hadj].
  apply negb_true_iff in Hhead, Hlast.
  assert (Hs0 : ToString h (js_or (JStr s) (JStr EmptyString)) = s).
  { unfold js_or. cbn. destruct (String.eqb_spec s EmptyString) as [->|]; done. }
  assert (Hplain : ∀ c, slug_char c = true →
            is_ws c = false ∧ is_upper c = false ∧ is_kebab_punct c = false)
    by apply slug_char_plain.
  unfold kebab. rewrite Hs0.
  assert (Htrim : trim s = s).
  { unfold trim. rewrite trim_chars_trim_by, trim_by_id, str_chars; [done|..].
    - eapply forallb_head_is; [|exact Hall]. intros c Hc. by apply Hplain.
    - eapply forallb_head_is; [|by rewrite forallb_rev].
      intros c Hc. by apply Hplain. }
  rewrite Htrim.
  assert (Hlower : chars (toLowerCase s) = chars s).
  { unfold toLowerCase. rewrite chars_str.
    clear -Hall Hplain. induction (chars s) as [|c l IH]; [done|].
    cbn in Hall. apply andb_prop in Hall as [Hc Hall]. cbn.
    rewrite IH by done. unfold lower_char.
    destruct (Hplain c Hc) as (_ & -> & _). done. }
  rewrite Hlower.
  assert (Hfilter : filter (λ c, is_kebab_punct c = false) (chars s) = chars s).
  { clear -Hall Hplain. induction (chars s) as [|c l IH]; [done|].
    cbn in Hall. apply andb_prop in Hall as [Hc Hall].
    rewrite filter_cons_True by (by apply Hplain). by rewrite IH. }
  rewrite Hfilter.
  rewrite replace_runs_slug_id by done.
  rewrite !drop_hyphens_drop_while.
  fold (trim_by is_hyphen (chars s)).
  rewrite trim_by_id by done. apply str_chars.
Qed.

(** X1. Whatever the title, the slug [kebab] derives is made of lower-case
    letters, digits and hyphens only, has no hyphen at either end and no
    two hyphens in a row. *)
Theorem X1_kebab_gives_a_slug (h : Host) (v : JSValue) :
  is_slug (kebab h v) = true.
Proof. apply kebab_shape. Qed.

(** X2. [kebab] leaves a string that already is such a slug as it is, so
    deriving a slug from a derived slug changes nothing. *)
Theorem X2_kebab_idempotent (h : Host) :
  (∀ s, is_slug s = true → kebab h (JStr s) = s)
  ∧ (∀ v, kebab h (JStr (kebab h v)) = kebab h v).
Proof.
  split; [apply kebab_of_slug|].
  intros v. apply kebab_of_slug, kebab_shape.
Qed.

Lemma X2_kebab_idempotent_witness :
  is_slug "modern-web-performance" = true
  ∧ kebab Fixture.host (JStr "modern-web-performance") = "modern-web-performance".
Proof.
  split; [reflexivity|].
  apply (proj1 (X2_kebab_idempotent Fixture.host)). reflexivity.
Defined.

(** ** [trimToExcerpt] *)

Lemma replace_runs_ws_class b l :
  forallb plain_or_space (replace_runs is_ws " " b l) = true.
Proof.
  revert b. induction l as [|c l IH]; intros b; [done|]. cbn.
  destruct (is_ws c) eqn:Hc.
  - destruct b; [apply IH|]. cbn. apply IH.
  - cbn. unfold plain_or_space at 1. rewrite Hc. cbn. apply IH.
Qed.

Lemma head_is_take (P : ascii -> bool) (n : nat) (l : list ascii) :
  head_is P l = false → head_is P (take n l) = false.
Proof. destruct n, l; done. Qed.

Lemma trimToExcerpt_take html max :
  ∃ l, forallb plain_or_space l = true
       ∧ no_adjacent is_ws l = true
       ∧ head_is is_ws l = false
       ∧ chars (trimToExcerpt html max) = take max l.
Proof.
  unfold trimToExcerpt, slice0.
  set (t4 := replace_runs is_ws " " false _).
  exists (trim_by is_ws t4).
  destruct (trim_by_segment is_ws t4) as (pre & post & Hseg).
  pose proof (replace_runs_ws_class false
                (strip_tags 0
                   (remove_blocks (chars "<script") (chars "</script>") 0
                      (remove_blocks (chars "<style") (chars "</style>") 0
                         (chars html))))) as Hall.
  pose proof (proj1 (replace_runs_no_adjacent is_ws is_ws " " false
                (strip_tags 0
                   (remove_blocks (chars "<script") (chars "</script>") 0
                      (remove_blocks (chars "<style") (chars "</style>") 0
                         (chars html)))) (λ c Hc, Hc))) as Hadj.
  fold t4 in Hall, Hadj.
  split; [|split; [|split]].
  - rewrite Hseg in Hall. by apply forallb_segment in Hall.
  - rewrite Hseg in Hadj. by apply no_adjacent_segment in Hadj.
  - apply trim_by_head.
  - by rewrite !chars_str, trim_chars_trim_by.
Qed.

Lemma trimToExcerpt_shape (html : string) (max : nat) :
  (String.length (trimToExcerpt html max) <= max)%nat
  ∧ is_collapsed (trimToExcerpt html max) = true.
Proof.
  destruct (trimToExcerpt_take html max) as (l & Hall & Hadj & Hhead & Hchars).
  split.
  - rewrite <- (str_chars (trimToExcerpt html max)), Hchars, length_str.
    rewrite length_take. lia.
  - unfold is_collapsed. cbv zeta. rewrite Hchars, !andb_true_iff.
    rewrite <- (take_drop max l) in Hall, Hadj.
    repeat split.
    + change (forallb plain_or_space (take max l) = true).
      apply (forallb_segment _ [] _ (drop max l)). exact Hall.
    + by rewrite head_is_take.
    + apply (no_adjacent_segment _ [] _ (drop max l)). exact Hadj.
Qed.

(** X3. An excerpt is never longer than [max] characters (160 for the
    payload), and its white space is collapsed: spaces only, never two in
    a row, none in front. *)
Theorem X3_excerpt_is_short_and_collapsed (html : string) (max : nat) :
  (String.length (trimToExcerpt html max) <= max)%nat
  ∧ is_collapsed (trimToExcerpt html max) = true.
Proof. apply trimToExcerpt_shape. Qed.

(** ** [resolveToRawUrl] *)


(** ** The boolean normalisation of [processFile] *)

Lemma lookup_normalize_booleans (data : gmap string JSValue) (k : string) :
  normalize_booleans data !! k
  = if bool_decide (k = "published" ∨ k = "push_to_webflow")
    then normalized_value (data !! k) else data !! k.
Proof.
  unfold normalize_booleans. cbn [foldl].
  destruct (decide (k = "push_to_webflow")) as [->|Hpush].
  { rewrite lookup_normalize_key_eq, lookup_normalize_key_ne by done.
    rewrite bool_decide_eq_true_2 by (by right).
    unfold normalized_value. by destruct (data !! _) as [[]|]. }
  rewrite lookup_normalize_key_ne by done.
  destruct (decide (k = "published")) as [->|Hpub].
  { rewrite lookup_normalize_key_eq.
    rewrite bool_decide_eq_true_2 by (by left).
    unfold normalized_value. by destruct (data !! _) as [[]|]. }
  rewrite lookup_normalize_key_ne by done.
  rewrite bool_decide_eq_false_2 by (intros [?|?]; done). done.
Qed.

(** X5. The normalisation touches nothing but [published] and
    [push_to_webflow], adds and removes no key, leaves neither of the two
    a string, and applied twice is the same as applied once. *)
Theorem X5_normalize_booleans_idempotent (data : gmap string JSValue) :
  normalize_booleans (normalize_booleans data) = normalize_booleans data
  ∧ dom (normalize_booleans data) = dom data
  ∧ (∀ k, k ≠ "published" → k ≠ "push_to_webflow" →
          normalize_booleans data !! k = data !! k)
  ∧ is_string (prop (normalize_booleans data) "published") = false
  ∧ is_string (prop (normalize_booleans data) "push_to_webflow") = false.
Proof.
  split; [|split; [|split; [|split]]].
  - apply map_eq. intros k. rewrite !lookup_normalize_booleans.
    case_bool_decide; [|done].
    by destruct (data !! k) as [[]|].
  - apply set_eq. intros k. rewrite !elem_of_dom, lookup_normalize_booleans.
    case_bool_decide; [|done].
    destruct (data !! k) as [[]|]; cbn; split; intros [? ?]; eauto; done.
  - intros k Hpub Hpush. rewrite lookup_normalize_booleans.
    rewrite bool_decide_eq_false_2 by (intros [?|?]; done). done.
  - rewrite prop_normalize_published.
    by destruct (data !! "published") as [[]|].
  - rewrite prop_normalize_push.
    by destruct (data !! "push_to_webflow") as [[]|].
Qed.

(** ** [walk] *)

Lemma markdown_under_subdir (dir name p : string) :
  markdown_under (path_join dir name) p → markdown_under dir p.
Proof.
  intros [Hmd [k Hk]]. split; [done|].
  exists (chars name ++ "/"%char :: k).
  rewrite Hk. unfold path_join. rewrite !chars_app. cbn.
  by rewrite <- !app_assoc.
Qed.

Lemma walk_ent_paths (ent : Dirent) :
  ∀ dir out, walk_ent dir ent = inr out → Forall (markdown_under dir) out.
Proof.
  revert ent. fix IH 1. intros [name|name [e|ents]|name] dir out;
    cbn [walk_ent].
  - intros [= <-].
    destruct (ends_with ".md" (path_join dir name)) eqn:Hmd; [|constructor].
    constructor; [|constructor]. split; [done|].
    exists (chars name). unfold path_join. rewrite !chars_app. cbn.
    by rewrite <- app_assoc.
  - discriminate.
  - revert out. induction ents as [|ent' rest IHrest]; intros out.
    + intros [= <-]. constructor.
    + destruct (walk_ent (path_join dir name) ent') as [e|out1] eqn:Hent;
        [discriminate|].
      match goal with
      | |- context [match ?g rest with _ => _ end] =>
          destruct (g rest) as [e|out2] eqn:Hrest
      end; [discriminate|].
      intros [= <-]. apply Forall_app. split.
      * eapply Forall_impl; [exact (IH ent' _ _ Hent)|].
        intros p. apply markdown_under_subdir.
      * by apply IHrest.
  - intros [= <-]. constructor.
Qed.

(** The paths [walk_ent] returns for an entry are the file entries of
    its tree whose path ends in [.md], no more and no less. *)
Lemma walk_ent_files (ent : Dirent) :
  ∀ dir out, walk_ent dir ent = inr out →
    ∀ p, p ∈ out ↔ file_entry dir ent p ∧ ends_with ".md" p = true.
Proof.
  revert ent. fix IH 1. intros [name|name [e|ents]|name] dir out;
    cbn [walk_ent].
  - intros [= <-] p.
    destruct (ends_with ".md" (path_join dir name)) eqn:Hmd.
    + rewrite list_elem_of_singleton. split.
      * intros ->. split; [constructor|done].
      * intros [Hp _]. by inversion Hp.
    + split; [by intros ?%elem_of_nil|].
      intros [Hp Hmd']. inversion Hp; subst. congruence.
  - discriminate.
  - assert (Hgo : ∀ out,
      (fix go (ents0 : list Dirent) : JSError + list string :=
         match ents0 with
         | [] => inr []
         | ent' :: rest =>
             match walk_ent (path_join dir name) ent' with
             | inl e => inl e
             | inr out1 =>
                 match go rest with
                 | inl e => inl e
                 | inr out2 => inr (out1 ++ out2)
                 end
             end
         end) ents = inr out →
      ∀ p, p ∈ out ↔ ∃ ent, ent ∈ ents
                        ∧ file_entry (path_join dir name) ent p
                        ∧ ends_with ".md" p = true).
    { clear out. induction ents as [|ent' rest IHrest]; intros out.
      - intros [= <-] p. split; [by intros ?%elem_of_nil|].
        by intros (ent & ?%elem_of_nil & _).
      - destruct (walk_ent (path_join dir name) ent') as [e|out1] eqn:Hent;
          [discriminate|].
        match goal with
        | |- context [match ?g rest with _ => _ end] =>
            destruct (g rest) as [e|out2] eqn:Hrest
        end; [discriminate|].
        intros [= <-] p. rewrite elem_of_app, (IH ent' _ _ Hent p),
          (IHrest _ eq_refl p).
        split.
        + intros [[Hp Hmd]|(ent & Hin & Hp & Hmd)].
          * exists ent'. split; [left|done].
          * exists ent. split; [by right|done].
        + intros (ent & Hin & Hp & Hmd).
          apply elem_of_cons in Hin as [->|Hin]; [by left|].
          right. by exists ent. }
    intros Hout p. rewrite (Hgo out Hout p). split.
    + intros (ent & Hin & Hp & Hmd). split; [|done].
      by apply (file_entry_below dir name ents ent p).
    + intros [Hp Hmd]. inversion Hp; subst. by eexists.
  - intros [= <-] p. split; [by intros ?%elem_of_nil|].
    intros [Hp _]. inversion Hp.
Qed.

(** X6. Every path [walk] returns ends in [.md] and lies below the
    directory it was asked to walk.  When the walk does not throw, the
    paths it returns are exactly those of the regular files of the tree
    whose path ends in [.md]: a directory, whatever its name, and an entry
    that is neither a file nor a directory are never returned, and no
    markdown file of a directory below is left out. *)
Theorem X6_walk_returns_markdown_below_dir (dir : string)
    (listing : JSError + list Dirent) (out : list string) :
  walk dir listing = inr out →
  Forall (markdown_under dir) out
  ∧ ∃ ents, listing = inr ents
            ∧ ∀ p, p ∈ out ↔ ∃ ent, ent ∈ ents ∧ file_entry dir ent p
                                     ∧ ends_with ".md" p = true.
Proof.
  destruct listing as [e|ents]; [discriminate|]. unfold walk.
  intros Hout. split.
  - revert out Hout. induction ents as [|ent rest IH]; intros out.
    + intros [= <-]. constructor.
    + destruct (walk_ent dir ent) as [e|out1] eqn:Hent; [discriminate|].
      match goal with
      | |- context [match ?g rest with _ => _ end] =>
          destruct (g rest) as [e|out2] eqn:Hrest
      end; [discriminate|].
      intros [= <-]. apply Forall_app. split.
      * by eapply walk_ent_paths.
      * by apply IH.
  - exists ents. split; [done|].
    revert out Hout. induction ents as [|ent rest IH]; intros out.
    + intros [= <-] p. split; [by intros ?%elem_of_nil|].
      by intros (ent & ?%elem_of_nil & _).
    + destruct (walk_ent dir ent) as [e|out1] eqn:Hent; [discriminate|].
      match goal with
      | |- context [match ?g rest with _ => _ end] =>
          destruct (g rest) as [e|out2] eqn:Hrest
      end; [discriminate|].
      intros [= <-] p.
      rewrite elem_of_app, (walk_ent_files ent _ _ Hent p), (IH _ eq_refl p).
      split.
      * intros [[Hp Hmd]|(ent' & Hin & Hp & Hmd)].
        -- exists ent. split; [left|done].
        -- exists ent'. split; [by right|done].
      * intros (ent' & Hin & Hp & Hmd).
        apply elem_of_cons in Hin as [->|Hin]; [by left|].
        right. by exists ent'.
Qed.

(** A tree with a directory named [old.md] and a socket named [z.md]:
    neither is returned. *)
Lemma X6_walk_returns_markdown_below_dir_witness :
  let ents := [DFile "a.md";
               DDir "_archive" (inr [DFile "x.md"; DFile "y.txt"]);
               DDir "old.md" (inr []);
               DOther "z.md"] in
  Forall (markdown_under "posts") ["posts/a.md"; "posts/_archive/x.md"]
  ∧ ∀ p, p ∈ ["posts/a.md"; "posts/_archive/x.md"]
         ↔ ∃ ent, ent ∈ ents ∧ file_entry "posts" ent p
                  ∧ ends_with ".md" p = true.
Proof.
  intros ents.
  destruct (X6_walk_returns_markdown_below_dir "posts" (inr ents)
              ["posts/a.md"; "posts/_archive/x.md"])
    as (Hunder & ents' & Heq & Hfiles).
  - reflexivity.
  - injection Heq as <-. split; [exact Hunder|exact Hfiles].
Defined.

(** ** [getChangedMarkdown]: the lines of the diff *)

Lemma split_on_pieces (sep : ascii) (l : list ascii) :
  Forall (λ piece, forallb (λ c, negb (Ascii.eqb c sep)) piece = true)
         (split_on sep l).
Proof.
  induction l as [|c l IH]; [by repeat constructor|]. cbn.
  destruct (Ascii.eqb c sep) eqn:Hc; [by constructor|].
  destruct (split_on sep l) as [|cur rest]; [by repeat constructor; cbn; rewrite Hc|].
  inversion IH as [|? ? Hcur Hrest]; subst.
  constructor; [|done]. cbn. by rewrite Hc.
Qed.

Lemma trim_by_idempotent (P : ascii -> bool) (l : list ascii) :
  trim_by P (trim_by P l) = trim_by P l.
Proof. apply trim_by_id; [apply trim_by_head|apply trim_by_last]. Qed.

(** X7. Every file name taken from the output of [git diff] is non-empty,
    has no white space at either end and holds no line break; blank lines
    of the output give no name. *)
Theorem X7_diff_lines_are_trimmed_names (diff s : string) :
  s ∈ diff_lines diff →
  s ≠ EmptyString
  ∧ trim s = s
  ∧ forallb (λ c, negb (Ascii.eqb c (ascii_of_N 10))) (chars s) = true.
Proof.
  unfold diff_lines. intros [Hne Hin]%list_elem_of_filter.
  apply list_elem_of_In, in_map_iff in Hin as (piece & <- & Hpiece).
  split; [done|]. split.
  - unfold trim. rewrite chars_str, !trim_chars_trim_by.
    by rewrite trim_by_idempotent.
  - rewrite chars_str, trim_chars_trim_by.
    destruct (trim_by_segment is_ws piece) as (pre & post & Hseg).
    pose proof (split_on_pieces (ascii_of_N 10) (chars diff)) as Hall.
    rewrite Forall_forall in Hall. apply list_elem_of_In in Hpiece.
    specialize (Hall piece Hpiece). rewrite Hseg in Hall.
    by apply forallb_segment in Hall.
Qed.

Lemma X7_diff_lines_are_trimmed_names_witness :
  let diff := str (chars "posts/a.md" ++ [ascii_of_N 10] ++ chars "  posts/b.md "
                   ++ [ascii_of_N 10; ascii_of_N 10]) in
  "posts/b.md" ∈ diff_lines diff
  ∧ trim "posts/b.md" = "posts/b.md".
Proof.
  intros diff.
  assert (Hin : "posts/b.md" ∈ diff_lines diff).
  { apply list_elem_of_In. vm_compute. tauto. }
  split; [exact Hin|].
  apply (X7_diff_lines_are_trimmed_names diff "posts/b.md" Hin).
Defined.

(** ** The mapper *)

Ltac reduce_slugs :=
  cbn [fieldData isDraft isArchived FIELD_IDS f_name f_slug f_body f_mainImage
       f_publishDate f_authorText f_externalLink f_isPublished f_pushToWebflow
       f_postId f_excerpt f_seoTitle f_seoDescription f_tags].

Ltac read_slug :=
  rewrite ?lookup_set_if_ne by done;
  rewrite ?lookup_set_if_eq by done;
  rewrite ?lookup_set_if_ne by done;
  rewrite ?lookup_empty.

(** X8. A mapped record always has its name (the title as a string), its
    slug, the rendered body unchanged, a publish date and the published
    flag, and it is a draft exactly when it is not published. *)
Theorem X8_payload_has_the_required_fields (h : Host)
    (penv : gmap string string) now fm html slug p :
  buildPayload h penv now fm html = inr (slug, p) →
  fieldData p !! "name" = Some (JStr (ToString h (prop fm "title")))
  ∧ fieldData p !! "slug" = Some (JStr slug)
  ∧ fieldData p !! "post-body" = Some (JStr html)
  ∧ (∃ d, fieldData p !! "publish-date" = Some (JStr d))
  ∧ fieldData p !! "is-published" = Some (JBool (truthy (prop fm "published")))
  ∧ isDraft p = negb (truthy (prop fm "published")).
Proof.
  unfold buildPayload.
  destruct (if truthy (prop fm "date") then _ else _) as [e|publishDate];
    [discriminate|].
  intros [= <- <-]. reduce_slugs.
  split; [by read_slug|]. split; [by read_slug|].
  split; [by read_slug|]. split; [exists publishDate; by read_slug|].
  split; [by read_slug|done].
Qed.

Lemma X8_payload_has_the_required_fields_witness :
  let p := Fixture.payload_of Fixture.doc_hello1 "<p>one</p>" in
  fieldData p !! "name" = Some (JStr "Hello, World")
  ∧ fieldData p !! "post-body" = Some (JStr "<p>one</p>")
  ∧ isDraft p = true.
Proof.
  intros p.
  destruct (X8_payload_has_the_required_fields Fixture.host Fixture.penv 0
              Fixture.doc_hello1 "<p>one</p>" "hello-world" p)
    as (Hname & _ & Hbody & _ & _ & Hdraft); [vm_compute; reflexivity|].
  split; [exact Hname|]. split; [exact Hbody|exact Hdraft].
Defined.

(** X9. A mapped record has no field outside the slugs of [FIELD_IDS],
    and its optional fields (image, author, link, tags, summary, SEO title
    and description) are present only with a truthy value: never an empty
    string, never [null]. *)
Theorem X9_payload_fields_are_known_and_filled (h : Host)
    (penv : gmap string string) now fm html slug p :
  buildPayload h penv now fm html = inr (slug, p) →
  (∀ k v, fieldData p !! k = Some v → k ∈ field_slugs)
  ∧ (∀ k v, k ∈ optional_slugs → fieldData p !! k = Some v → truthy v = true).
Proof.
  unfold buildPayload.
  destruct (if truthy (prop fm "date") then _ else _) as [e|publishDate];
    [discriminate|].
  intros [= <- <-]. reduce_slugs. split.
  - intros k v Hk. destruct (decide (k ∈ field_slugs)) as [|Hout]; [done|].
    exfalso. unfold field_slugs in Hout. reduce_slugs.
    rewrite !not_elem_of_cons in Hout.
    destruct Hout as (?&?&?&?&?&?&?&?&?&?&?&?&?&?&_).
    rewrite !lookup_set_if_ne, lookup_empty in Hk by done. discriminate.
  - intros k v Hk. unfold optional_slugs in Hk. reduce_slugs.
    rewrite !elem_of_cons, elem_of_nil in Hk.
    destruct Hk as [->|[->|[->|[->|[->|[->|[->|[]]]]]]]]; read_slug;
      match goal with
      | |- (if ?c then _ else _) = _ → _ =>
          destruct c eqn:Hc; [intros [= <-]; exact Hc|discriminate]
      end.
Qed.

Lemma X9_payload_fields_are_known_and_filled_witness :
  let p := Fixture.payload_of Fixture.doc_bound "<p>b</p>" in
  fieldData p !! "post-summary" = Some (JStr "b")
  ∧ truthy (JStr "b") = true
  ∧ "post-summary" ∈ field_slugs.
Proof.
  intros p.
  pose proof (X9_payload_fields_are_known_and_filled Fixture.host Fixture.penv 0
                Fixture.doc_bound "<p>b</p>" "bound" p
                ltac:(vm_compute; reflexivity)) as [Hknown Hfilled].
  assert (Hsummary : fieldData p !! "post-summary" = Some (JStr "b"))
    by (vm_compute; reflexivity).
  split; [exact Hsummary|]. split.
  - apply (Hfilled "post-summary" (JStr "b")); [|exact Hsummary].
    unfold optional_slugs. apply list_elem_of_In. cbn. tauto.
  - apply (Hknown "post-summary" (JStr "b") Hsummary).
Defined.

(** X10. What the mapper derives is well formed: without a [slug] in the
    frontmatter the slug of the record is a slug in the sense of X1, and
    without an [excerpt] the summary of the record, when there is one, is
    at most 160 characters of collapsed text. *)
Theorem X10_derived_slug_and_summary (h : Host) (penv : gmap string string)
    now fm html slug p :
  buildPayload h penv now fm html = inr (slug, p) →
  (truthy (prop fm "slug") = false → is_slug slug = true)
  ∧ (truthy (prop fm "excerpt") = false →
     ∀ v, fieldData p !! "post-summary" = Some v →
          ∃ e, v = JStr e ∧ (String.length e <= 160)%nat ∧ is_collapsed e = true).
Proof.
  unfold buildPayload.
  destruct (if truthy (prop fm "date") then _ else _) as [e|publishDate];
    [discriminate|].
  intros [= <- <-]. reduce_slugs. split.
  - intros ->. apply kebab_shape.
  - intros -> v. read_slug.
    destruct (negb _); [|discriminate].
    intros [= <-]. eexists. split; [reflexivity|]. apply trimToExcerpt_shape.
Qed.

Lemma X10_derived_slug_and_summary_witness :
  let p := Fixture.payload_of Fixture.doc_hello1 "<p>Hello   there</p>" in
  is_slug "hello-world" = true
  ∧ fieldData p !! "post-summary" = Some (JStr "Hello there").
Proof.
  intros p.
  pose proof (proj1 (X10_derived_slug_and_summary Fixture.host Fixture.penv 0
                       Fixture.doc_hello1 "<p>Hello   there</p>"
                       "hello-world" p ltac:(vm_compute; reflexivity)))
    as Hslug.
  split; [apply Hslug; reflexivity|vm_compute; reflexivity].
Defined.

(** ** Errors before the store *)

(** X11. A [date] that is there and is no valid time fails the document
    with the RangeError of [toISOString] before anything is sent or
    printed, dry run or not. *)
Theorem X11_invalid_date_fails_before_sending {World : Type}
    (P : Platform World) (h : Host) (penv : gmap string string)
    fm html filePath dryRun s :
  pushFlag fm = true →
  truthy (prop fm "title") = true →
  truthy (prop fm "date") = true →
  Date_new h (prop fm "date") = None →
  upsertWebflowItem P h penv fm html filePath dryRun s
  = (inl (RangeError "Invalid time value"), s).
Proof.
  intros Hpush Htitle Hdate Hinvalid.
  apply upsert_unmapped; [done..|].
  unfold buildPayload. by rewrite Hdate, Hinvalid.
Qed.

Lemma X11_invalid_date_fails_before_sending_witness :
  upsertWebflowItem
    (Fixture.platform Fixture.accepting 0 [] (inr EmptyString) None)
    Fixture.host Fixture.penv Fixture.doc_baddate "<p>x</p>" "posts/s.md" false
    (Fixture.start [])
  = (inl (RangeError "Invalid time value"), Fixture.start []).
Proof.
  apply (X11_invalid_date_fails_before_sending
           (Fixture.platform Fixture.accepting 0 [] (inr EmptyString) None)
           Fixture.host Fixture.penv Fixture.doc_baddate "<p>x</p>" "posts/s.md"
           false (Fixture.start [])); reflexivity.
Defined.

(** ** Nothing is sent in a dry run *)

Section DryRun.
Context {World : Type} (P : Platform World) (h : Host).
Context (penv : gmap string string).

Lemma same_requests_refl (s : St World) : same_requests s s.
Proof. reflexivity. Qed.

Lemma same_requests_trans (s1 s2 s3 : St World) :
  same_requests s1 s2 → same_requests s2 s3 → same_requests s1 s3.
Proof. unfold same_requests. congruence. Qed.

Lemma same_requests_console (l : Line) :
  keeps same_requests (emit (World := World) (EvConsole l)).
Proof.
  intros s. unfold same_requests. cbn.
  by rewrite requests_app, app_nil_r.
Qed.

Lemma same_requests_fail msg e :
  keeps same_requests (fail (World := World) msg e).
Proof.
  intros s. unfold same_requests. cbn.
  by rewrite requests_app, app_nil_r.
Qed.

Ltac quiet lemmas :=
  keeps_steps same_requests_refl same_requests_trans
    ltac:(first [ apply same_requests_console | apply same_requests_fail
                | lemmas ]).

Lemma upsert_dry_quiet fm html filePath :
  keeps same_requests (upsertWebflowItem P h penv fm html filePath true).
Proof. unfold upsertWebflowItem, log. quiet ltac:(fail). Qed.

Lemma processFile_dry_quiet filePath :
  keeps same_requests (processFile P h penv filePath true).
Proof. unfold processFile. quiet ltac:(apply upsert_dry_quiet). Qed.

Lemma process_all_dry_quiet files :
  keeps same_requests (process_all P h penv files true).
Proof.
  induction files as [|f files IH]; cbn [process_all]; [quiet ltac:(fail)|].
  unfold attempt.
  quiet ltac:(first [ apply processFile_dry_quiet | exact IH ]).
Qed.

Lemma getAllMarkdown_quiet : keeps same_requests (getAllMarkdown P).
Proof. unfold getAllMarkdown. quiet ltac:(fail). Qed.

Lemma git_fetch_quiet branch :
  keeps same_requests
    (λ s : St World,
       (inr tt, MkSt (git_fetch P branch (world s)) (trace s) (exitCode s))).
Proof. intros s. reflexivity. Qed.

Lemma getChangedMarkdown_quiet :
  keeps same_requests (getChangedMarkdown P h penv).
Proof.
  unfold getChangedMarkdown, warn.
  quiet ltac:(first [ apply git_fetch_quiet | apply getAllMarkdown_quiet ]).
Qed.

(** The world in a dry run. *)

Lemma same_world_refl (s : St World) : same_world s s.
Proof. reflexivity. Qed.

Lemma same_world_trans (s1 s2 s3 : St World) :
  same_world s1 s2 → same_world s2 s3 → same_world s1 s3.
Proof. unfold same_world. congruence. Qed.

Lemma same_world_console (l : Line) :
  keeps same_world (emit (World := World) (EvConsole l)).
Proof. intros s. reflexivity. Qed.

Lemma same_world_fail msg e : keeps same_world (fail (World := World) msg e).
Proof. intros s. reflexivity. Qed.

Ltac still lemmas :=
  keeps_steps same_world_refl same_world_trans
    ltac:(first [ apply same_world_console | apply same_world_fail
                | lemmas ]).

Lemma upsert_dry_still fm html filePath :
  keeps same_world (upsertWebflowItem P h penv fm html filePath true).
Proof. unfold upsertWebflowItem, log. still ltac:(fail). Qed.

Lemma processFile_dry_still filePath :
  keeps same_world (processFile P h penv filePath true).
Proof. unfold processFile. still ltac:(apply upsert_dry_still). Qed.

Lemma process_all_dry_still files :
  keeps same_world (process_all P h penv files true).
Proof.
  induction files as [|f files IH]; cbn [process_all]; [still ltac:(fail)|].
  unfold attempt.
  still ltac:(first [ apply processFile_dry_still | exact IH ]).
Qed.

Lemma getAllMarkdown_still : keeps same_world (getAllMarkdown P).
Proof. unfold getAllMarkdown. still ltac:(fail). Qed.

Lemma getChangedMarkdown_world s :
  world (snd (getChangedMarkdown P h penv s))
  = git_fetch P (ToString h (js_or (BRANCH penv) (JStr "HEAD"))) (world s).
Proof.
  unfold getChangedMarkdown. unfold bind at 1.
  set (s1 := MkSt (git_fetch P _ (world s)) (trace s) (exitCode s)).
  assert (Hkeeps : keeps same_world
            (try_catch
               (bind get_world (λ w, bind (lift (git_diff P w))
                                       (λ diff, ret (diff_lines diff))))
               (λ e, bind (warn (WDiffFailed (err_message e)))
                       (λ _, getAllMarkdown P)))).
  { unfold warn. still ltac:(apply getAllMarkdown_still). }
  exact (Hkeeps s1).
Qed.

End DryRun.

(** X12. With [--dry-run] among the arguments a run makes no [fetch]
    call, neither to Webflow nor to the dispatch endpoint of GitHub,
    whatever the files are and whatever goes wrong with them.  It is not
    a run without network access: in the default mode, with both required
    variables set, [git fetch --depth=2 origin <branch>] runs whatever
    [--dry-run] says, and that is the only change a dry run makes to the
    outside world; with [--all], or with a variable missing, the world is
    left as it was. *)
Theorem X12_dry_run_sends_nothing {World : Type} (P : Platform World)
    (h : Host) (penv : gmap string string) (argv : list string) (s : St World) :
  "--dry-run" ∈ argv →
  requests (trace (snd (run P h penv argv s))) = requests (trace s)
  ∧ world (snd (run P h penv argv s))
    = if bool_decide ("--all" ∈ argv)
         || negb (truthy (getenv penv "WEBFLOW_TOKEN")
                  && truthy (getenv penv "WEBFLOW_COLLECTION_ID"))
      then world s
      else git_fetch P (ToString h (js_or (BRANCH penv) (JStr "HEAD")))
                     (world s).
Proof.
  intros Hdry. split.
  - assert (Hkeeps : keeps same_requests (run P h penv argv)); [|apply Hkeeps].
    unfold run, main, requireEnv, log.
    rewrite (bool_decide_eq_true_2 _ Hdry).
    keeps_steps (@same_requests_refl World) (@same_requests_trans World)
      ltac:(first [ apply same_requests_console | apply same_requests_fail
                  | apply getAllMarkdown_quiet | apply getChangedMarkdown_quiet
                  | apply process_all_dry_quiet ]).
  - unfold run, main, requireEnv, log, emit, try_catch, bind, throw, ret, fail.
    rewrite (bool_decide_eq_true_2 _ Hdry).
    destruct (truthy (getenv penv "WEBFLOW_TOKEN")) eqn:Htoken;
      [|by rewrite orb_true_r].
    destruct (truthy (getenv penv "WEBFLOW_COLLECTION_ID")) eqn:Hcoll;
      [|by rewrite orb_true_r].
    rewrite orb_false_r. cbn [negb andb].
    destruct (bool_decide ("--all" ∈ argv)).
    + pose proof (getAllMarkdown_still P s) as Hfiles.
      destruct (getAllMarkdown P s) as [[e|files] s1]; [exact Hfiles|].
      cbn [snd] in Hfiles.
      destruct (bool_decide (length files = 0%nat)); [exact Hfiles|].
      pose proof (process_all_dry_still P h penv files
                    (MkSt (world s1) (trace s1 ++ [EvConsole (LFound (length files))])
                          (exitCode s1))) as Hloop.
      destruct (process_all P h penv files true _) as [[e|[]] s2];
        cbn [snd fst] in *; unfold same_world in *; cbn in *; congruence.
    + pose proof (getChangedMarkdown_world P h penv s) as Hfiles.
      destruct (getChangedMarkdown P h penv s) as [[e|files] s1]; [exact Hfiles|].
      cbn [snd] in Hfiles.
      destruct (bool_decide (length files = 0%nat)); [exact Hfiles|].
      pose proof (process_all_dry_still P h penv files
                    (MkSt (world s1) (trace s1 ++ [EvConsole (LFound (length files))])
                          (exitCode s1))) as Hloop.
      destruct (process_all P h penv files true _) as [[e|[]] s2];
        cbn [snd fst] in *; unfold same_world in *; cbn in *; congruence.
Qed.

Lemma X12_dry_run_sends_nothing_witness :
  let r := run (Fixture.platform Fixture.accepting 0 Fixture.corpus
                  (inl (Error "bad revision")) Fixture.tree)
               Fixture.host Fixture.penv ["--dry-run"] (Fixture.start []) in
  requests (trace (snd r)) = [] ∧ world (snd r) = [].
Proof.
  apply (X12_dry_run_sends_nothing
           (Fixture.platform Fixture.accepting 0 Fixture.corpus
              (inl (Error "bad revision")) Fixture.tree)
           Fixture.host Fixture.penv ["--dry-run"] (Fixture.start [])).
  apply list_elem_of_In. cbn. tauto.
Defined.

(** ** The exit code of a run *)

(** X13. A run never throws, and its exit code says whether a failure
    was printed: it is 1 as soon as [fail] has printed a line, and is left
    as it was when no failure was printed. *)
Theorem X13_exit_code_tracks_failures {World : Type} (P : Platform World)
    (h : Host) (penv : gmap string string) (argv : list string) (s : St World) :
  fst (run P h penv argv s) = inr tt
  ∧ ∃ evs,
      trace (snd (run P h penv argv s)) = trace s ++ evs
      ∧ exitCode (snd (run P h penv argv s))
        = if existsb is_failure evs then 1 else exitCode s.
Proof.
  split; [|apply exit_run].
  unfold run, try_catch, fail.
  by destruct (main P h penv argv s) as [[e|[]] s1].
Qed.

(** ** One store call per file at most *)

Section CallBudget.
Context {World : Type} (P : Platform World) (h : Host).
Context (penv : gmap string string).

Lemma at_most_calls_0_refl (s : St World) : at_most_calls 0 s s.
Proof. exists []. by rewrite app_nil_r. Qed.

Lemma at_most_calls_trans n m (s1 s2 s3 : St World) :
  at_most_calls n s1 s2 → at_most_calls m s2 s3 → at_most_calls (n + m) s1 s3.
Proof.
  intros (evs1 & Htr1 & Hn) (evs2 & Htr2 & Hm).
  exists (evs1 ++ evs2). split; [by rewrite Htr2, Htr1, app_assoc|].
  rewrite webflow_calls_app, length_app. lia.
Qed.

Lemma at_most_calls_0_trans (s1 s2 s3 : St World) :
  at_most_calls 0 s1 s2 → at_most_calls 0 s2 s3 → at_most_calls 0 s1 s3.
Proof. apply (at_most_calls_trans 0 0). Qed.

Lemma at_most_calls_console (l : Line) n (s : St World) :
  at_most_calls n s (snd (emit (EvConsole l) s)).
Proof. exists [EvConsole l]. split; [done|]. cbn. lia. Qed.

Lemma at_most_calls_fail msg e n (s : St World) :
  at_most_calls n s (snd (fail msg e s)).
Proof. exists [EvConsole (EFail msg e)]. split; [done|]. cbn. lia. Qed.

Ltac free lemmas :=
  keeps_steps at_most_calls_0_refl at_most_calls_0_trans
    ltac:(first [ intros ?; apply at_most_calls_console
                | intros ?; apply at_most_calls_fail | lemmas ]).

Lemma getAllMarkdown_free : keeps (at_most_calls 0) (getAllMarkdown P).
Proof. unfold getAllMarkdown. free ltac:(fail). Qed.

Lemma git_fetch_free branch :
  keeps (at_most_calls 0)
    (λ s : St World,
       (inr tt, MkSt (git_fetch P branch (world s)) (trace s) (exitCode s))).
Proof. intros s. exists []. cbn. by rewrite app_nil_r. Qed.

Lemma getChangedMarkdown_free :
  keeps (at_most_calls 0) (getChangedMarkdown P h penv).
Proof.
  unfold getChangedMarkdown, warn, emit.
  free ltac:(first [ apply git_fetch_free | apply getAllMarkdown_free ]).
Qed.

Lemma upsert_one_call fm html filePath dryRun s :
  at_most_calls 1 s (snd (upsertWebflowItem P h penv fm html filePath dryRun s)).
Proof.
  destruct (upsert_trace P h penv fm html filePath dryRun s)
    as (evs & Htr & [Hnone|(slug & p & _ & Hone)]);
    exists evs; (split; [done|]); [rewrite Hnone|rewrite Hone]; cbn; lia.
Qed.

Lemma processFile_one_call filePath dryRun s :
  at_most_calls 1 s (snd (processFile P h penv filePath dryRun s)).
Proof.
  assert (Hsame : at_most_calls 1 s s).
  { exists []. rewrite app_nil_r. split; [done|]. cbn. lia. }
  unfold processFile, get_world, lift, bind, ret, throw.
  destruct (readFileSync P (world s) filePath) as [e|src]; [done|].
  destruct (matter P src) as [e|[data content]]; [done|].
  destruct (mdToHtml P _) as [e|html]; [done|].
  pose proof (upsert_one_call (normalize_booleans data) html filePath dryRun s)
    as Hone.
  by destruct (upsertWebflowItem P h penv _ html filePath dryRun s)
    as [[e|v] s1].
Qed.

Lemma attempt_one_call f dryRun s :
  at_most_calls 1 s (snd (attempt P h penv f dryRun s)).
Proof.
  unfold attempt, try_catch.
  pose proof (processFile_one_call f dryRun s) as Hone.
  destruct (processFile P h penv f dryRun s) as [[e|[]] s1]; [|done].
  apply (at_most_calls_trans 1 0 _ _ _ Hone), at_most_calls_fail.
Qed.

Lemma process_all_calls files dryRun s :
  at_most_calls (length files) s (snd (process_all P h penv files dryRun s)).
Proof.
  revert s. induction files as [|f files IH]; intros s;
    [apply at_most_calls_0_refl|].
  cbn [process_all length]. unfold bind.
  pose proof (attempt_one_call f dryRun s) as Hone.
  pose proof (attempt_returns P h penv f dryRun s) as Hret.
  destruct (attempt P h penv f dryRun s) as [[e|[]] s1]; [done|].
  apply (at_most_calls_trans 1 (length files) _ _ _ Hone), IH.
Qed.

End CallBudget.

(** X14. A run sends at most one request to the store for each file it
    processes: the loop of [main] sends no more requests than it is given
    files, and a whole run sends none unless it has printed how many files
    it found, and then no more than that number. *)
Theorem X14_one_store_call_per_file {World : Type} (P : Platform World)
    (h : Host) (penv : gmap string string) :
  (∀ files dryRun s,
     ∃ evs,
       trace (snd (process_all P h penv files dryRun s)) = trace s ++ evs
       ∧ (length (webflow_calls evs) <= length files)%nat)
  ∧ (∀ argv s,
       ∃ evs,
         trace (snd (run P h penv argv s)) = trace s ++ evs
         ∧ (webflow_calls evs = []
            ∨ ∃ n, EvConsole (LFound n) ∈ evs
                   ∧ (length (webflow_calls evs) <= n)%nat)).
Proof.
  split; [intros; apply process_all_calls|].
  intros argv s.
  assert (Hnil : ∀ evs : list Event,
            (length (webflow_calls evs) <= 0)%nat → webflow_calls evs = []).
  { intros evs Hle. destruct (webflow_calls evs); [done|cbn in Hle; lia]. }
  unfold run, main, requireEnv, try_catch, bind, ret, throw, fail.
  destruct (negb (truthy (getenv penv "WEBFLOW_TOKEN"))); cbn.
  { eexists [_]. split; [done|by left]. }
  destruct (negb (truthy (getenv penv "WEBFLOW_COLLECTION_ID"))); cbn.
  { eexists [_]. split; [done|by left]. }
  assert (Hfiles : at_most_calls 0 s
            (snd ((if bool_decide ("--all" ∈ argv)
                   then getAllMarkdown P else getChangedMarkdown P h penv) s))).
  { destruct (bool_decide ("--all" ∈ argv));
      [apply getAllMarkdown_free|apply getChangedMarkdown_free]. }
  destruct ((if bool_decide ("--all" ∈ argv)
             then getAllMarkdown P else getChangedMarkdown P h penv) s)
    as [[e|files] s1]; cbn in Hfiles |- *.
  { destruct Hfiles as (evs & Htr & Hle).
    exists (evs ++ [EvConsole (EFail "Unhandled error" (Some e))]).
    split; [by rewrite Htr, app_assoc|]. left.
    by rewrite webflow_calls_app, (Hnil evs Hle). }
  destruct Hfiles as (evs & Htr & Hle).
  destruct (bool_decide (length files = 0%nat)); unfold log, emit; cbn.
  { exists (evs ++ [EvConsole (LNoFiles (bool_decide ("--all" ∈ argv)))]).
    split; [by rewrite Htr, app_assoc|]. left.
    by rewrite webflow_calls_app, (Hnil evs Hle). }
  match goal with
  | |- context [process_all P h penv files ?d ?st] =>
      destruct (process_all_calls P h penv files d st) as (evs2 & Htr2 & Hle2);
      pose proof (process_all_returns P h penv files d st) as Hret;
      destruct (process_all P h penv files d st) as [[e|[]] s2]; [done|]
  end.
  cbn in Htr2 |- *.
  exists (evs ++ [EvConsole (LFound (length files))] ++ evs2).
  split; [by rewrite Htr2, Htr, <- !app_assoc|]. right.
  exists (length files). split.
  - rewrite !elem_of_app, list_elem_of_singleton. tauto.
  - rewrite !webflow_calls_app, !length_app, (Hnil evs Hle). cbn. lia.
Qed.

(** ** The writeback *)

Section Writeback.
Context {World : Type} (P : Platform World) (h : Host).
Context (penv : gmap string string).

Ltac run_upsert :=
  unfold upsertWebflowItem, fetch, log, warn, emit,
    get_world, lift, try_catch, bind, ret, throw.

Lemma dispatchWriteback_requests filePath itemId s :
  ∃ evs,
    trace (snd (dispatchWriteback P h penv filePath itemId s)) = trace s ++ evs
    ∧ (requests evs = []
       ∨ (truthy itemId = true
          ∧ ∃ tok repo, requests evs = [PostDispatch tok repo filePath itemId])).
Proof.
  unfold dispatchWriteback. run_upsert.
  destruct (truthy itemId) eqn:Hid; cbn.
  2: { rewrite !orb_true_r. exists []. cbn. split; [by rewrite app_nil_r|by left]. }
  destruct (negb _ || negb _ || false); cbn.
  { exists []. split; [by rewrite app_nil_r|by left]. }
  destruct (fetch_step P _ (world s)) as [[e|status text json] w']; cbn.
  { eexists [_]. split; [reflexivity|]. right. split; [done|]. by eexists _, _. }
  destruct (negb (res_ok status)); cbn.
  - eexists [_]. split; [reflexivity|]. right. split; [done|]. by eexists _, _.
  - eexists [_; _]. split; [by rewrite <- app_assoc|]. right.
    split; [done|]. by eexists _, _.
Qed.

(** The requests of one upsert: none, the store call alone, or an accepted
    create followed by the dispatch for its item. *)
Lemma upsert_requests fm html filePath dryRun s :
  ∃ evs,
    trace (snd (upsertWebflowItem P h penv fm html filePath dryRun s))
    = trace s ++ evs
    ∧ (requests evs = []
       ∨ (∃ p, requests evs
               = [store_call h (ToString h (WEBFLOW_TOKEN penv))
                             (ToString h (COLLECTION_ID penv)) p])
       ∨ (dryRun = false
          ∧ truthy (prop fm "post_id") = false
          ∧ ∃ p status text data w' tok repo itemId,
              fetch_step P (PostItem (ToString h (WEBFLOW_TOKEN penv))
                                     (ToString h (COLLECTION_ID penv)) p) (world s)
              = (Response status text (inr data), w')
              ∧ res_ok status = true
              ∧ truthy itemId = true
              ∧ requests evs
                = [PostItem (ToString h (WEBFLOW_TOKEN penv))
                            (ToString h (COLLECTION_ID penv)) p;
                   PostDispatch tok repo filePath itemId])).
Proof.
  destruct (pushFlag fm) eqn:Hpush.
  2: { rewrite upsert_skipped by done. eexists [_]. split; [done|by left]. }
  destruct (truthy (prop fm "title")) eqn:Htitle.
  2: { rewrite upsert_untitled by done. exists []. cbn.
       split; [by rewrite app_nil_r|by left]. }
  destruct (buildPayload h penv (clock P (world s)) fm html)
    as [e|[slug p]] eqn:Hmap.
  { rewrite (upsert_unmapped _ _ _ _ _ _ _ _ e) by done. exists []. cbn.
    split; [by rewrite app_nil_r|by left]. }
  destruct dryRun.
  { rewrite (upsert_dry_run _ _ _ _ _ _ _ slug p) by done.
    eexists [_]. split; [done|by left]. }
  destruct (buildPayload_fields _ _ _ _ _ _ _ Hmap) as (_ & _ & Hid & _).
  assert (Hcall : store_call h (ToString h (WEBFLOW_TOKEN penv))
                    (ToString h (COLLECTION_ID penv)) p
                  = if truthy (prop fm "post_id")
                    then PatchItem (ToString h (WEBFLOW_TOKEN penv))
                           (ToString h (COLLECTION_ID penv))
                           (ToString h (prop fm "post_id")) p
                    else PostItem (ToString h (WEBFLOW_TOKEN penv))
                           (ToString h (COLLECTION_ID penv)) p).
  { unfold store_call. rewrite Hid. by destruct (truthy (prop fm "post_id")). }
  run_upsert. rewrite Hpush, Htitle. cbn. rewrite Hmap. cbn.
  destruct (truthy (prop fm "post_id")) eqn:Hpid; cbn.
  - destruct (fetch_step P _ (world s)) as [[e|status text json] w']; cbn.
    { eexists [_]. split; [done|]. right. left. exists p. by rewrite Hcall. }
    destruct (negb (res_ok status)); cbn.
    { eexists [_]. split; [done|]. right. left. exists p. by rewrite Hcall. }
    destruct json as [e|data]; cbn.
    { eexists [_]. split; [done|]. right. left. exists p. by rewrite Hcall. }
    destruct (member data "lastUpdated") as [e|lu]; cbn.
    + eexists [_; _]. split; [by rewrite <- !app_assoc|].
      right. left. exists p. by rewrite Hcall.
    + eexists [_; _; _]. split; [by rewrite <- !app_assoc|].
      right. left. exists p. by rewrite Hcall.
  - destruct (fetch_step P _ (world s)) as [[e|status text json] w'] eqn:Hfetch;
      cbn.
    { eexists [_]. split; [done|]. right. left. exists p. by rewrite Hcall. }
    destruct (negb (res_ok status)) eqn:Hok; cbn.
    { eexists [_]. split; [done|]. right. left. exists p. by rewrite Hcall. }
    destruct json as [e|data]; cbn.
    { eexists [_]. split; [done|]. right. left. exists p. by rewrite Hcall. }
    destruct (member data "createdOn") as [e|co]; cbn.
    { eexists [_; _]. split; [by rewrite <- !app_assoc|].
      right. left. exists p. by rewrite Hcall. }
    destruct (member data "lastUpdated") as [e|lu]; cbn.
    { eexists [_; _; _]. split; [by rewrite <- !app_assoc|].
      right. left. exists p. by rewrite Hcall. }
    match goal with
    | |- context [dispatchWriteback P h penv ?f ?i ?st] =>
        destruct (dispatchWriteback_requests f i st) as (evs & Htr & Hreq);
        destruct (dispatchWriteback P h penv f i st) as [[e|[]] s'] eqn:Hd
    end; cbn in *.
    + exists ([EvFetch (PostItem (ToString h (WEBFLOW_TOKEN penv))
                         (ToString h (COLLECTION_ID penv)) p);
               EvConsole (LCreated (js_or (js_or (opt_member data "id")
                   (opt_member (opt_member data "item") "id")) (JStr "(unknown)"))
                   filePath);
               EvConsole (LCreatedOn (js_or co (JStr "N/A")));
               EvConsole (LLastUpdated (js_or lu (JStr "N/A")))]
              ++ evs ++ [EvConsole (WWritebackFailed (err_message e))]).
      split; [rewrite Htr; by rewrite <- !app_assoc|].
      rewrite !requests_app. cbn. rewrite app_nil_r.
      destruct Hreq as [->|(Hitem & tok & repo & ->)].
      * right. left. exists p. by rewrite Hcall.
      * right. right. split; [done|]. split; [done|].
        apply negb_false_iff in Hok. by eexists p, _, _, _, _, _, _, _.
    + exists ([EvFetch (PostItem (ToString h (WEBFLOW_TOKEN penv))
                         (ToString h (COLLECTION_ID penv)) p);
               EvConsole (LCreated (js_or (js_or (opt_member data "id")
                   (opt_member (opt_member data "item") "id")) (JStr "(unknown)"))
                   filePath);
               EvConsole (LCreatedOn (js_or co (JStr "N/A")));
               EvConsole (LLastUpdated (js_or lu (JStr "N/A")))]
              ++ evs).
      split; [rewrite Htr; by rewrite <- !app_assoc|].
      rewrite !requests_app. cbn.
      destruct Hreq as [->|(Hitem & tok & repo & ->)].
      * right. left. exists p. by rewrite Hcall.
      * right. right. split; [done|]. split; [done|].
        apply negb_false_iff in Hok. by eexists p, _, _, _, _, _, _, _.
Qed.

End Writeback.

(** X15. One upsert sends at most two requests, and the dispatch that
    asks for the write-back of the item id is sent only for the file being
    processed, outside a dry run, for a document without [post_id], after
    the store has accepted the create, and with an item id to write back.
    An update is never followed by a dispatch. *)
Theorem X15_writeback_follows_an_accepted_create {World : Type}
    (P : Platform World) (h : Host) (penv : gmap string string)
    fm html filePath dryRun s :
  ∃ evs,
    trace (snd (upsertWebflowItem P h penv fm html filePath dryRun s))
    = trace s ++ evs
    ∧ (length (requests evs) <= 2)%nat
    ∧ ∀ tok repo path itemId,
        PostDispatch tok repo path itemId ∈ requests evs →
        path = filePath
        ∧ truthy itemId = true
        ∧ dryRun = false
        ∧ truthy (prop fm "post_id") = false
        ∧ ∃ p status text data w',
            fetch_step P (PostItem (ToString h (WEBFLOW_TOKEN penv))
                                   (ToString h (COLLECTION_ID penv)) p) (world s)
            = (Response status text (inr data), w')
            ∧ res_ok status = true
            ∧ requests evs
              = [PostItem (ToString h (WEBFLOW_TOKEN penv))
                          (ToString h (COLLECTION_ID penv)) p;
                 PostDispatch tok repo path itemId].
Proof.
  destruct (upsert_requests P h penv fm html filePath dryRun s)
    as (evs & Htr & [Hnone|[[p Hone]|
         (Hdry & Hpid & p & status & text & data & w' & tok & repo & itemId
          & Hfetch & Hok & Hitem & Htwo)]]);
    exists evs; (split; [exact Htr|]).
  - rewrite Hnone. split; [cbn; lia|]. intros ? ? ? ? Hin.
    by apply elem_of_nil in Hin.
  - rewrite Hone. split; [cbn; lia|]. intros ? ? ? ? Hin.
    apply list_elem_of_singleton in Hin. unfold store_call in Hin.
    by destruct (fieldData p !! f_postId FIELD_IDS).
  - rewrite Htwo. split; [cbn; lia|]. intros tok' repo' path itemId' Hin.
    rewrite !elem_of_cons, elem_of_nil in Hin.
    destruct Hin as [Hin|[Hin|[]]]; [discriminate|].
    injection Hin as -> -> -> ->.
    repeat (split; [done|]). by exists p, status, text, data, w'.
Qed.

(** X16. A failed write-back dispatch does not fail the document: once the
    store has accepted the create and answered with a JSON object, the
    upsert returns that object, whatever happens to the dispatch. *)
Theorem X16_writeback_failure_is_not_fatal {World : Type}
    (P : Platform World) (h : Host) (penv : gmap string string)
    fm html filePath s slug p status text props w' :
  pushFlag fm = true →
  truthy (prop fm "title") = true →
  truthy (prop fm "post_id") = false →
  buildPayload h penv (clock P (world s)) fm html = inr (slug, p) →
  fetch_step P (PostItem (ToString h (WEBFLOW_TOKEN penv))
                         (ToString h (COLLECTION_ID penv)) p) (world s)
  = (Response status text (inr (JObj props)), w') →
  res_ok status = true →
  fst (upsertWebflowItem P h penv fm html filePath false s) = inr (JObj props).
Proof.
  intros Hpush Htitle Hpid Hmap Hfetch Hok.
  unfold upsertWebflowItem, fetch, log, warn, emit, get_world, lift,
    try_catch, bind, ret, throw.
  rewrite Hpush, Htitle. cbn. rewrite Hmap. cbn. rewrite Hpid, Hfetch. cbn.
  rewrite Hok. cbn.
  by destruct (dispatchWriteback P h penv filePath _ _) as [[e|[]] s'].
Qed.

Lemma X16_writeback_failure_is_not_fatal_witness :
  let r := upsertWebflowItem
             (Fixture.platform Fixture.accepting_without_dispatch 0 []
                (inr EmptyString) None)
             Fixture.host Fixture.penv_github Fixture.doc_undated "<p>x</p>"
             "posts/u.md" false (Fixture.start []) in
  fst r = inr (Fixture.item_json "item-0")
  ∧ EvConsole (WWritebackFailed "repository_dispatch failed (500): no dispatch")
    ∈ trace (snd r).
Proof.
  intros r. split.
  - apply (X16_writeback_failure_is_not_fatal
             (Fixture.platform Fixture.accepting_without_dispatch 0 []
                (inr EmptyString) None)
             Fixture.host Fixture.penv_github Fixture.doc_undated "<p>x</p>"
             "posts/u.md" (Fixture.start []) "undated"
             (match buildPayload Fixture.host Fixture.penv_github 0
                      Fixture.doc_undated "<p>x</p>" with
              | inr (_, p) => p
              | inl _ => MkPayload false false ∅
              end)
             200 "ok"
             [("id", JStr "item-0");
              ("createdOn", JStr "2025-01-01T00:00:00.000Z");
              ("lastUpdated", JStr "2025-01-01T00:00:00.000Z")]
             [("item-0",
               match buildPayload Fixture.host Fixture.penv_github 0
                       Fixture.doc_undated "<p>x</p>" with
               | inr (_, p) => p
               | inl _ => MkPayload false false ∅
               end)]); reflexivity.
  - apply list_elem_of_In. vm_compute. tauto.
Defined.

Lemma X15_writeback_follows_an_accepted_create_witness :
  let r := upsertWebflowItem
             (Fixture.platform Fixture.accepting 0 [] (inr EmptyString) None)
             Fixture.host Fixture.penv_github Fixture.doc_undated "<p>x</p>"
             "posts/u.md" false (Fixture.start []) in
  PostDispatch "ghs" "acme/blog" "posts/u.md" (JStr "item-0")
  ∈ requests (trace (snd r))
  ∧ truthy (JStr "item-0") = true
  ∧ truthy (prop Fixture.doc_undated "post_id") = false.
Proof.
  intros r.
  assert (Hin : PostDispatch "ghs" "acme/blog" "posts/u.md" (JStr "item-0")
                ∈ requests (trace (snd r))).
  { apply list_elem_of_In. vm_compute. tauto. }
  split; [exact Hin|].
  destruct (X15_writeback_follows_an_accepted_create
              (Fixture.platform Fixture.accepting 0 [] (inr EmptyString) None)
              Fixture.host Fixture.penv_github Fixture.doc_undated "<p>x</p>"
              "posts/u.md" false (Fixture.start []))
    as (evs & Htr & _ & Hdispatch).
  change (trace (Fixture.start []) ++ evs) with evs in Htr.
  fold r in Htr. rewrite Htr in Hin.
  destruct (Hdispatch _ _ _ _ Hin) as (_ & Hitem & _ & Hpid & _).
  split; [exact Hitem|exact Hpid].
Defined.

(** ** The linter *)

Lemma Forall_omap_reports {A} (f : A -> option Lint.Report) (l : list A)
    (Q : Lint.Report -> Prop) :
  (∀ x y, f x = Some y → Q y) → Forall Q (omap f l).
Proof.
  intros Hf. apply Forall_forall. intros y Hy.
  apply list_elem_of_omap in Hy as (x & _ & Hx). by eapply Hf.
Qed.

Lemma check_rest_no_presence h image_exists filePath data :
  Forall (λ r, presence_report r = false)
         (Lint.check_rest h image_exists filePath data).
Proof.
  unfold Lint.check_rest, Lint.when.
  repeat (apply Forall_app; split);
    repeat match goal with
           | |- Forall _ (if ?c then _ else _) => destruct c
           | |- Forall _ (match ?x with _ => _ end) => destruct x
           | |- Forall _ [] => constructor
           | |- Forall _ [_] => constructor; [reflexivity|constructor]
           | |- Forall _ (_ ++ _) => apply Forall_app; split
           | |- Forall _ (omap _ _) =>
               apply Forall_omap_reports; intros ? ?;
               let H := fresh in
               intros H; repeat case_match; simplify_eq; reflexivity
           end.
Qed.

(** The reports of a parsed file: the missing required fields, the unknown
    keys, and then reports of other kinds. *)
Lemma validateFile_reports h image_exists filePath data :
  ∃ rest,
    fst (Lint.validateFile h image_exists filePath (inr data))
    = omap (λ f, if Lint.has data f then None
                 else Some (Lint.Fail filePath (Lint.MissingRequired f)))
           Lint.REQUIRED_FIELDS
      ++ omap (λ k, if Lint.mem k Lint.ALLOWED_FIELDS then None
                    else Some (Lint.Fail filePath (Lint.UnknownField k)))
              (Lint.keys data)
      ++ rest
    ∧ Forall (λ r, presence_report r = false) rest.
Proof.
  unfold Lint.validateFile.
  match goal with
  | |- context [match ?d with inl e => _ | inr r => _ end] =>
      destruct d as [e|date_reports] eqn:Hdate
  end; cbn [fst].
  - eexists. split; [reflexivity|].
    unfold Lint.when. destruct (_ && _); repeat constructor.
  - eexists. split; [reflexivity|].
    apply Forall_app. split.
    { unfold Lint.when. destruct (_ && _); repeat constructor. }
    apply Forall_app. split; [|apply check_rest_no_presence].
    revert Hdate. unfold Lint.when.
    repeat case_match; intros; simplify_eq; repeat constructor.
Qed.

(** X17. The linter reports a required field as missing exactly when the
    key is not in the frontmatter, and a key as unknown exactly when it is
    in the frontmatter and not among the allowed fields; no other check
    of the file adds or hides such a report. *)
Theorem X17_linter_reports_missing_and_unknown_keys (h : Host)
    (image_exists : string -> bool) (filePath : string)
    (data : list (string * JSValue)) :
  (∀ f, Lint.Fail filePath (Lint.MissingRequired f)
        ∈ fst (Lint.validateFile h image_exists filePath (inr data))
        ↔ f ∈ Lint.REQUIRED_FIELDS ∧ Lint.has data f = false)
  ∧ (∀ k, Lint.Fail filePath (Lint.UnknownField k)
          ∈ fst (Lint.validateFile h image_exists filePath (inr data))
          ↔ k ∈ Lint.keys data ∧ Lint.mem k Lint.ALLOWED_FIELDS = false).
Proof.
  destruct (validateFile_reports h image_exists filePath data)
    as (rest & -> & Hrest).
  rewrite Forall_forall in Hrest.
  split; intros x; rewrite !elem_of_app, !list_elem_of_omap; split.
  - intros [(f & Hf & Hsome)|[(k & _ & Hsome)|Hin]].
    + destruct (Lint.has data f) eqn:Hhas; [discriminate|].
      by injection Hsome as ->.
    + by destruct (Lint.mem k Lint.ALLOWED_FIELDS).
    + by apply Hrest in Hin.
  - intros [Hf Hhas]. left. exists x. by rewrite Hhas.
  - intros [(f & _ & Hsome)|[(k & Hk & Hsome)|Hin]].
    + by destruct (Lint.has data f).
    + destruct (Lint.mem k Lint.ALLOWED_FIELDS) eqn:Hmem; [discriminate|].
      by injection Hsome as ->.
    + by apply Hrest in Hin.
  - intros [Hk Hmem]. right. left. exists x. by rewrite Hmem.
Qed.

(** ** The default mode of [main] *)

(** X18. Without [--all], when [git diff] succeeds the run processes the
    files the diff names and no others: the corpus is not enumerated, an
    empty diff is reported as no change, sends nothing and leaves the exit
    code alone. *)
Theorem X18_delta_mode_follows_the_diff {World : Type} (P : Platform World)
    (h : Host) (penv : gmap string string) (argv : list string)
    (s : St World) (diff : string) :
  truthy (getenv penv "WEBFLOW_TOKEN") = true →
  truthy (getenv penv "WEBFLOW_COLLECTION_ID") = true →
  "--all" ∉ argv →
  git_diff P (git_fetch P (ToString h (js_or (BRANCH penv) (JStr "HEAD")))
                        (world s)) = inr diff →
  let s1 := MkSt (git_fetch P (ToString h (js_or (BRANCH penv) (JStr "HEAD")))
                            (world s))
                 (trace s) (exitCode s) in
  run P h penv argv s
  = if bool_decide (length (diff_lines diff) = 0%nat)
    then (inr tt,
          MkSt (world s1) (trace s ++ [EvConsole (LNoFiles false)]) (exitCode s))
    else process_all P h penv (diff_lines diff)
           (bool_decide ("--dry-run" ∈ argv))
           (MkSt (world s1)
                 (trace s ++ [EvConsole (LFound (length (diff_lines diff)))])
                 (exitCode s)).
Proof.
  intros Htoken Hcollection Hall Hdiff s1.
  unfold run, main, requireEnv, getChangedMarkdown, get_world, lift, log, emit,
    try_catch, bind, throw, ret.
  rewrite Htoken, Hcollection. cbn.
  rewrite (bool_decide_eq_false_2 _ Hall). cbn. rewrite Hdiff. cbn.
  destruct (bool_decide (length (diff_lines diff) = 0%nat)); [done|].
  subst s1. cbn [world].
  match goal with
  | |- context [process_all P h penv ?fs ?d ?st] =>
      pose proof (process_all_returns P h penv fs d st) as Hret;
      destruct (process_all P h penv fs d st) as [[e|[]] s2] eqn:Hloop;
        cbn in Hret; [discriminate|]
  end.
  symmetry. exact Hloop.
Qed.

Lemma X18_delta_mode_follows_the_diff_witness :
  run (Fixture.platform Fixture.accepting 0 Fixture.corpus (inr EmptyString)
         Fixture.tree)
      Fixture.host Fixture.penv [] (Fixture.start [])
  = (inr tt, MkSt [] [EvConsole (LNoFiles false)] 0).
Proof.
  apply (X18_delta_mode_follows_the_diff
           (Fixture.platform Fixture.accepting 0 Fixture.corpus (inr EmptyString)
              Fixture.tree)
           Fixture.host Fixture.penv [] (Fixture.start []) EmptyString).
  - reflexivity.
  - reflexivity.
  - apply not_elem_of_nil.
  - reflexivity.
Defined.

(** ** Dates as the linter reads them *)

Lemma holds_from_spec (f : Z -> bool) (count : nat) (start i : Z) :
  holds_from f count start = true →
  start <= i < start + Z.of_nat count → f i = true.
Proof.
  revert start. induction count as [|k IH]; intros start; [lia|].
  cbn [holds_from]. intros [Hstart Hrest]%andb_prop Hi.
  destruct (decide (i = start)) as [->|Hne]; [done|].
  apply (IH (start + 1)); [done|lia].
Qed.

Lemma pad_2_checked :
  holds_from (λ n, is_digits 2 (chars (pad 2 n))) (Z.to_nat 100) 0 = true.
Proof. vm_compute. reflexivity. Qed.

Lemma pad_3_checked :
  holds_from (λ n, is_digits 3 (chars (pad 3 n))) (Z.to_nat 1000) 0 = true.
Proof. vm_compute. reflexivity. Qed.

Lemma pad_4_checked :
  holds_from (λ n, is_digits 4 (chars (pad 4 n))) (Z.to_nat 10000) 0 = true.
Proof. vm_compute. reflexivity. Qed.

Lemma pad_digits (width : nat) (bound n : Z) :
  holds_from (λ n, is_digits width (chars (pad width n))) (Z.to_nat bound) 0 = true →
  0 <= n < bound →
  length (chars (pad width n)) = width
  ∧ forallb is_digit (chars (pad width n)) = true.
Proof.
  intros Hall Hn.
  pose proof (holds_from_spec _ _ 0 n Hall ltac:(lia)) as Hok.
  unfold is_digits in Hok. apply andb_prop in Hok as [Hlen Hdig].
  by apply Nat.eqb_eq in Hlen.
Qed.

Lemma civil_month_day (days : Z) :
  let '(y, m, d) := civil_from_days days in 1 <= m <= 12 ∧ 1 <= d <= 31.
Proof.
  unfold civil_from_days. cbv zeta.
  set (z := days + 719468).
  set (doe := z - z / 146097 * 146097).
  assert (Hdoe : 0 <= doe < 146097).
  { subst doe. Z.to_euclidean_division_equations. lia. }
  clearbody doe. clear z.
  destruct (_ <? 10) eqn:Hmp;
    [apply Z.ltb_lt in Hmp|apply Z.ltb_ge in Hmp];
    Z.to_euclidean_division_equations; lia.
Qed.

Lemma digits_app (n : nat) (l rest : list ascii) :
  length l = n → forallb is_digit l = true →
  Lint.digits n (l ++ rest) = Some rest.
Proof.
  revert l. induction n as [|n IH]; intros [|c l]; try done.
  cbn. intros [= Hlen] [Hc Hl]%andb_prop. rewrite Hc. by apply IH.
Qed.

Lemma split_on_head (sep : ascii) (l rest : list ascii) :
  forallb (λ c, negb (Ascii.eqb c sep)) l = true →
  head (split_on sep (l ++ sep :: rest)) = Some l.
Proof.
  induction l as [|c l IH]; cbn.
  - intros _. by rewrite Ascii.eqb_refl.
  - intros [Hc Hl]%andb_prop. apply negb_true_iff in Hc. rewrite Hc.
    specialize (IH Hl). by destruct (split_on sep (l ++ sep :: rest)) as [|? ?];
      simplify_eq/=.
Qed.

Lemma digit_is_plain (c : ascii) :
  is_digit c = true → negb (Ascii.eqb c "T") = true.
Proof.
  destruct c as [[] [] [] [] [] [] [] []]; vm_compute; (discriminate || done).
Qed.

Lemma digits_are_plain (l : list ascii) :
  forallb is_digit l = true → forallb (λ c, negb (Ascii.eqb c "T")) l = true.
Proof.
  induction l as [|c l IH]; [done|]. cbn. intros [Hc Hl]%andb_prop.
  by rewrite (digit_is_plain c Hc), IH.
Qed.

(** The shape of [toISOString] for a year of four digits. *)
Lemma iso_of_time_shape (t : Z) :
  0 <= utc_year t <= 9999 →
  ∃ Y M D hh mm ss ms,
    chars (iso_of_time t)
    = Y ++ "-"%char :: M ++ "-"%char :: D ++ "T"%char :: hh ++ ":"%char :: mm
      ++ ":"%char :: ss ++ "."%char :: ms ++ ["Z"%char]
    ∧ (length Y = 4%nat ∧ forallb is_digit Y = true)
    ∧ (length M = 2%nat ∧ forallb is_digit M = true)
    ∧ (length D = 2%nat ∧ forallb is_digit D = true)
    ∧ (length hh = 2%nat ∧ forallb is_digit hh = true)
    ∧ (length mm = 2%nat ∧ forallb is_digit mm = true)
    ∧ (length ss = 2%nat ∧ forallb is_digit ss = true)
    ∧ (length ms = 3%nat ∧ forallb is_digit ms = true).
Proof.
  unfold utc_year, iso_of_time. intros Hyear.
  pose proof (civil_month_day (t / 86400000)) as Hmd.
  destruct (civil_from_days (t / 86400000)) as [[y m] d]. cbn [fst] in Hyear.
  destruct Hmd as [Hm Hd].
  assert ((0 <=? y) && (y <=? 9999) = true) as ->.
  { apply andb_true_intro. split; apply Z.leb_le; lia. }
  set (ms := t mod 86400000).
  assert (Hms : 0 <= ms < 86400000) by (subst ms; apply Z.mod_pos_bound; lia).
  clearbody ms.
  exists (chars (pad 4 y)), (chars (pad 2 m)), (chars (pad 2 d)),
    (chars (pad 2 (ms / 3600000))), (chars (pad 2 (ms / 60000 mod 60))),
    (chars (pad 2 (ms / 1000 mod 60))), (chars (pad 3 (ms mod 1000))).
  split.
  { rewrite !chars_app. unfold chars at 2 4 6 8 10 12 14 15.
    cbn [list_ascii_of_string app]. reflexivity. }
  split; [apply (pad_digits 4 10000); [apply pad_4_checked|lia]|].
  split; [apply (pad_digits 2 100); [apply pad_2_checked|lia]|].
  split; [apply (pad_digits 2 100); [apply pad_2_checked|lia]|].
  split; [apply (pad_digits 2 100); [apply pad_2_checked|];
          Z.to_euclidean_division_equations; lia|].
  split; [apply (pad_digits 2 100); [apply pad_2_checked|];
          Z.to_euclidean_division_equations; lia|].
  split; [apply (pad_digits 2 100); [apply pad_2_checked|];
          Z.to_euclidean_division_equations; lia|].
  apply (pad_digits 3 1000); [apply pad_3_checked|].
  Z.to_euclidean_division_equations; lia.
Qed.

Local Arguments Lint.digits : simpl never.

Lemma isIsoDate_of_time (t : Z) :
  0 <= utc_year t <= 9999 →
  Lint.isIsoDate (iso_of_time t) = true
  ∧ Lint.isIsoDate (str (default [] (head (split_on "T" (chars (iso_of_time t))))))
    = true.
Proof.
  intros Hyear.
  destruct (iso_of_time_shape t Hyear)
    as (Y & M & D & hh & mm & ss & ms & Hchars
        & [HY1 HY2] & [HM1 HM2] & [HD1 HD2] & [Hh1 Hh2] & [Hm1 Hm2]
        & [Hs1 Hs2] & [Hms1 Hms2]).
  split.
  - unfold Lint.isIsoDate. rewrite Hchars.
    rewrite (digits_app 4 Y) by done. cbn.
    rewrite (digits_app 2 M) by done. cbn.
    rewrite (digits_app 2 D) by done. cbn.
    unfold Lint.opt at 1, Lint.iso_time. cbn.
    rewrite (digits_app 2 hh) by done. cbn.
    rewrite (digits_app 2 mm) by done. cbn.
    unfold Lint.opt at 3, Lint.iso_seconds. cbn.
    rewrite (digits_app 2 ss) by done.
    unfold Lint.opt at 2, Lint.iso_millis. cbn.
    rewrite (digits_app 3 ms) by done. reflexivity.
  - rewrite Hchars.
    replace (Y ++ "-"%char :: M ++ "-"%char :: D ++ "T"%char :: hh ++ ":"%char
               :: mm ++ ":"%char :: ss ++ "."%char :: ms ++ ["Z"%char])
      with ((Y ++ "-"%char :: M ++ "-"%char :: D)
              ++ "T"%char :: hh ++ ":"%char :: mm ++ ":"%char :: ss
              ++ "."%char :: ms ++ ["Z"%char])
      by (repeat (rewrite <- app_assoc; cbn [app]); reflexivity).
    rewrite split_on_head.
    2: { rewrite !forallb_app. cbn. rewrite !forallb_app. cbn.
         by rewrite !digits_are_plain. }
    cbn [default]. unfold id, Lint.isIsoDate. rewrite chars_str.
    rewrite (digits_app 4 Y) by done. cbn.
    rewrite (digits_app 2 M) by done. cbn.
    rewrite <- (app_nil_r D). rewrite (digits_app 2 D) by done. reflexivity.
Qed.

Lemma check_rest_no_date h image_exists filePath data :
  Forall (λ r, date_report r = false)
         (Lint.check_rest h image_exists filePath data).
Proof.
  unfold Lint.check_rest, Lint.when.
  repeat (apply Forall_app; split);
    repeat match goal with
           | |- Forall _ (if ?c then _ else _) => destruct c
           | |- Forall _ (match ?x with _ => _ end) => destruct x
           | |- Forall _ [] => constructor
           | |- Forall _ [_] => constructor; [reflexivity|constructor]
           | |- Forall _ (_ ++ _) => apply Forall_app; split
           | |- Forall _ (omap _ _) =>
               apply Forall_omap_reports; intros ? ?;
               let H := fresh in
               intros H; repeat case_match; simplify_eq; reflexivity
           end.
Qed.

(** X19. A time whose UTC year has four digits is printed by
    [toISOString] in a form the linter's [isIsoDate] accepts, so every
    such publish date the sync sends is a valid [date] for the linter; and
    a frontmatter [date] that YAML has read as such a time never gets the
    report that the date must be in ISO format. *)
Theorem X19_iso_dates_pass_the_linter (h : Host)
    (image_exists : string -> bool) (filePath : string)
    (data : list (string * JSValue)) (t : Z) :
  0 <= utc_year t <= 9999 →
  Lint.isIsoDate (iso_of_time t) = true
  ∧ (assoc "date" data = JDate (Some t) →
     snd (Lint.validateFile h image_exists filePath (inr data)) = None
     ∧ Forall (λ r, date_report r = false)
              (fst (Lint.validateFile h image_exists filePath (inr data)))).
Proof.
  intros Hyear. destruct (isIsoDate_of_time t Hyear) as [Hfull Hdate].
  split; [exact Hfull|]. intros Hdata.
  unfold Lint.validateFile. rewrite Hdata. cbn [truthy toISOString].
  rewrite Hdate. cbn [negb Lint.when fst snd]. split; [done|].
  apply Forall_app; split.
  { apply Forall_omap_reports. intros f r.
    destruct (Lint.has data f); [discriminate|]. by intros [= <-]. }
  apply Forall_app; split.
  { apply Forall_omap_reports. intros k r.
    destruct (Lint.mem k Lint.ALLOWED_FIELDS); [discriminate|].
    by intros [= <-]. }
  apply Forall_app; split.
  { unfold Lint.when. destruct (_ && _); repeat constructor. }
  apply Forall_app; split; [constructor|].
  apply check_rest_no_date.
Qed.

Lemma X19_iso_dates_pass_the_linter_witness :
  utc_year 1735689600000 = 2025
  ∧ Lint.isIsoDate (iso_of_time 1735689600000) = true.
Proof.
  split; [reflexivity|].
  apply (X19_iso_dates_pass_the_linter Fixture.host (λ _, false) "posts/a.md"
           [] 1735689600000).
  vm_compute. split; discriminate.
Defined.

(** ** Errors before the mapping *)

(** X20. A file that cannot be read, whose frontmatter cannot be parsed
    or whose markdown cannot be rendered is failed with that very error:
    the failure is printed with the file name, the exit code becomes 1,
    nothing is sent and the outside world is as it was. *)
Theorem X20_unreadable_file_is_failed_and_not_sent {World : Type}
    (P : Platform World) (h : Host) (penv : gmap string string)
    (f : string) (dryRun : bool) (s : St World) (e : JSError) :
  readFileSync P (world s) f = inl e
  ∨ (∃ src, readFileSync P (world s) f = inr src ∧ matter P src = inl e)
  ∨ (∃ src data content,
       readFileSync P (world s) f = inr src
       ∧ matter P src = inr (data, content)
       ∧ mdToHtml P (rewriteImageLinksInMarkdown P (world s) content
                       (dirname P f)) = inl e) →
  attempt P h penv f dryRun s
  = (inr tt,
     MkSt (world s)
          (trace s ++ [EvConsole (EFail ("Failed processing " +:+ f) (Some e))])
          1).
Proof.
  unfold attempt, processFile, get_world, lift, try_catch, bind, ret, throw, fail.
  intros [Hread|[(src & Hread & Hparse)
                |(src & data & content & Hread & Hparse & Hrender)]].
  - by rewrite Hread.
  - by rewrite Hread, Hparse.
  - by rewrite Hread, Hparse, Hrender.
Qed.

Lemma X20_unreadable_file_is_failed_and_not_sent_witness :
  attempt (Fixture.platform Fixture.accepting 0 Fixture.corpus (inr EmptyString)
             Fixture.tree)
          Fixture.host Fixture.penv "posts/missing.md" false (Fixture.start [])
  = (inr tt,
     MkSt []
          [EvConsole
             (EFail "Failed processing posts/missing.md"
                (Some (Error "ENOENT: no such file or directory, open posts/missing.md")))]
          1).
Proof.
  apply (X20_unreadable_file_is_failed_and_not_sent
           (Fixture.platform Fixture.accepting 0 Fixture.corpus (inr EmptyString)
              Fixture.tree)
           Fixture.host Fixture.penv "posts/missing.md" false (Fixture.start [])).
  left. reflexivity.
Defined.

(** X21. With [--all], a posts directory that exists and cannot be walked
    (some directory in it cannot be read) fails the whole run: the error
    is printed as unhandled, the exit code becomes 1, no file is processed
    and nothing is sent. *)
Theorem X21_unwalkable_corpus_fails_the_run {World : Type}
    (P : Platform World) (h : Host) (penv : gmap string string)
    (argv : list string) (s : St World) listing (e : JSError) :
  truthy (getenv penv "WEBFLOW_TOKEN") = true →
  truthy (getenv penv "WEBFLOW_COLLECTION_ID") = true →
  "--all" ∈ argv →
  posts_dir P (world s) = Some listing →
  walk POSTS_DIR listing = inl e →
  run P h penv argv s
  = (inr tt,
     MkSt (world s)
          (trace s ++ [EvConsole (EFail "Unhandled error" (Some e))]) 1).
Proof.
  intros Htoken Hcollection Hall Hdir Hwalk.
  unfold run, main, requireEnv, getAllMarkdown, get_world, lift, try_catch,
    bind, throw, ret, fail.
  rewrite Htoken, Hcollection. cbn.
  rewrite (bool_decide_eq_true_2 _ Hall), Hdir, Hwalk. reflexivity.
Qed.

Lemma X21_unwalkable_corpus_fails_the_run_witness :
  run (Fixture.platform Fixture.accepting 0 Fixture.corpus (inr EmptyString)
         (Some (inr [DFile "a.md";
                     DDir "private" (inl (Error "EACCES: permission denied"))])))
      Fixture.host Fixture.penv ["--all"] (Fixture.start [])
  = (inr tt,
     MkSt []
          [EvConsole (EFail "Unhandled error"
                        (Some (Error "EACCES: permission denied")))] 1).
Proof.
  eapply (X21_unwalkable_corpus_fails_the_run
            (Fixture.platform Fixture.accepting 0 Fixture.corpus (inr EmptyString)
               (Some (inr [DFile "a.md";
                           DDir "private"
                             (inl (Error "EACCES: permission denied"))])))
            Fixture.host Fixture.penv ["--all"] (Fixture.start [])).
  - reflexivity.
  - reflexivity.
  - apply list_elem_of_In. cbn. tauto.
  - reflexivity.
  - reflexivity.
Defined.

(** ** What [isIsoDate] accepts *)

Lemma digits_inv (n : nat) (l r : list ascii) :
  Lint.digits n l = Some r →
  ∃ X, l = X ++ r ∧ is_digits n X = true.
Proof.
  revert l. induction n as [|n IH]; intros l.
  - intros [= ->]. by exists [].
  - destruct l as [|c l]; [intros H; cbv in H; discriminate|].
    change (Lint.digits (S n) (c :: l))
      with (if is_digit c then Lint.digits n l else None).
    destruct (is_digit c) eqn:Hc; [|discriminate].
    intros (X & -> & HX)%IH. exists (c :: X). split; [done|].
    unfold is_digits in *. cbn. rewrite Hc. exact HX.
Qed.

Lemma lit_inv (c : ascii) (l r : list ascii) :
  Lint.lit c l = Some r → l = c :: r.
Proof.
  destruct l as [|c' l]; [discriminate|]. cbn.
  destruct (Ascii.eqb_spec c c') as [->|]; [|discriminate]. by intros [= ->].
Qed.

(** X22. Whatever [isIsoDate] accepts begins with four digits, a hyphen,
    two digits, a hyphen and two digits, and either ends there or goes on
    with a [T] or a space; the linter asks no more of the date than this
    shape. *)
Theorem X22_isIsoDate_accepts_dated_strings_only (s : string) :
  Lint.isIsoDate s = true →
  ∃ Y M D rest,
    chars s = Y ++ "-"%char :: M ++ "-"%char :: D ++ rest
    ∧ is_digits 4 Y = true ∧ is_digits 2 M = true ∧ is_digits 2 D = true
    ∧ (rest = []
       ∨ head_is (λ c, Ascii.eqb c "T" || Ascii.eqb c " ") rest = true).
Proof.
  unfold Lint.isIsoDate.
  destruct (Lint.digits 4 (chars s)) as [r1|] eqn:H1; [|discriminate].
  cbn [mbind option_bind].
  destruct (Lint.lit "-" r1) as [r2|] eqn:H2; [|discriminate].
  cbn [mbind option_bind].
  destruct (Lint.digits 2 r2) as [r3|] eqn:H3; [|discriminate].
  cbn [mbind option_bind].
  destruct (Lint.lit "-" r3) as [r4|] eqn:H4; [|discriminate].
  cbn [mbind option_bind].
  destruct (Lint.digits 2 r4) as [r|] eqn:H5; [|discriminate].
  apply digits_inv in H1 as (Y & HY & HYd).
  apply lit_inv in H2 as ->.
  apply digits_inv in H3 as (M & -> & HMd).
  apply lit_inv in H4 as ->.
  apply digits_inv in H5 as (D & -> & HDd).
  intros Hrest. exists Y, M, D, r. repeat (split; [done|]).
  destruct r as [|c r]; [by left|]. right.
  unfold Lint.opt, Lint.iso_time in Hrest. cbn [head_is].
  destruct (Ascii.eqb c "T" || Ascii.eqb c " "); [done|]. discriminate.
Qed.

Lemma X22_isIsoDate_accepts_dated_strings_only_witness :
  ∃ Y M D rest,
    chars "2025-11-06T09:42" = Y ++ "-"%char :: M ++ "-"%char :: D ++ rest
    ∧ is_digits 4 Y = true ∧ is_digits 2 M = true ∧ is_digits 2 D = true
    ∧ (rest = []
       ∨ head_is (λ c, Ascii.eqb c "T" || Ascii.eqb c " ") rest = true).
Proof.
  apply (X22_isIsoDate_accepts_dated_strings_only "2025-11-06T09:42").
  reflexivity.
Defined.
